(** * RSH: a shallow embedding of [rsh.c] and the proofs of its specification

    The shell of [rsh.c] is embedded function by function.  Pure helpers
    (the tokenisers, the list walks over the history and the job list) become
    Rocq functions; everything that talks to the operating system runs in a
    small monad [M] over a [world] that holds the program's globals, the part
    of the kernel state the shell changes (terminal discipline, foreground
    process group, signal dispositions, [atexit] list), the answers the
    environment gives to system calls, and the trace of actions performed.
    A computation returns to its caller or halts: [exit], [_exit], a
    successful [execvp], the default action of a signal, a wait that never
    ends, or undefined behaviour.

    The first part of the file holds the embedding, what is observed of a
    world, the specification's own wording of the tokenisation, and the
    example sessions; the second part holds the proofs, claim by claim, and
    then further properties of the code. *)

From Stdlib Require Import String Ascii List ZArith Lia Bool DecimalString DecimalZ.
From Equations Require Import Equations.
From ExtLib Require Import Structures.Monad.
Import ListNotations.
Import MonadNotation.

Open Scope string_scope.
Open Scope Z_scope.
Open Scope monad_scope.

(** ** Characters and the C library on strings

    A C string is modelled by the [string] of its bytes before the
    terminating NUL. *)

Module CString.

Definition TAB : ascii := "009"%char.
Definition LF : ascii := "010"%char.
Definition VT : ascii := "011"%char.
Definition FF : ascii := "012"%char.
Definition CR : ascii := "013"%char.
Definition BS : ascii := "008"%char.
Definition DEL : ascii := "127"%char.
Definition ETX : ascii := "003"%char.
Definition NUL : ascii := "000"%char.

(** ["\r\n"] and the delimiter set [" \t\n"] of the source. *)
Definition CRLF : string := String CR (String LF "").
Definition BLANKS : string := String " " (String TAB (String LF "")).

(** [iscntrl] and [isspace] in the C locale. *)
Definition iscntrl (c : ascii) : bool :=
  (N_of_ascii c <? 32)%N || (N_of_ascii c =? 127)%N.

Definition isspace (c : ascii) : bool :=
  Ascii.eqb c " " || Ascii.eqb c TAB || Ascii.eqb c LF
  || Ascii.eqb c VT || Ascii.eqb c FF || Ascii.eqb c CR.

Definition isdigit (c : ascii) : bool :=
  (48 <=? N_of_ascii c)%N && (N_of_ascii c <=? 57)%N.

(** [strchr delim c != NULL] for a byte [c] other than NUL. *)
Fixpoint strchr (delim : string) (c : ascii) : bool :=
  match delim with
  | EmptyString => false
  | String d delim' => Ascii.eqb d c || strchr delim' c
  end.

(** [s + strspn(s, delim)]: the string after its leading delimiters. *)
Fixpoint strspn_drop (delim s : string) : string :=
  match s with
  | EmptyString => EmptyString
  | String c s' => if strchr delim c then strspn_drop delim s' else s
  end.

(** The token that ends at [s + strcspn(s, delim)], and the save pointer:
    one past the delimiter overwritten with NUL, or the end of the string. *)
Fixpoint strcspn_cut (delim s : string) : string * string :=
  match s with
  | EmptyString => (EmptyString, EmptyString)
  | String c s' =>
      if strchr delim c then (EmptyString, s')
      else let (token, save) := strcspn_cut delim s' in (String c token, save)
  end.

(** [strtok_r]: [None] is the NULL result; otherwise the token and the
    new value of the save pointer. *)
Definition strtok_r (s delim : string) : option (string * string) :=
  match strspn_drop delim s with
  | EmptyString => None
  | String c s' => Some (strcspn_cut delim (String c s'))
  end.

Lemma strspn_drop_length delim s :
  (String.length (strspn_drop delim s) <= String.length s)%nat.
Proof.
  induction s as [|c s IH]; simpl; [lia|].
  destruct (strchr delim c); simpl; lia.
Qed.

Lemma strcspn_cut_length delim s :
  (String.length (snd (strcspn_cut delim s)) <= Nat.pred (String.length s))%nat.
Proof.
  induction s as [|c s IH]; simpl; [lia|].
  destruct (strchr delim c); simpl; [lia|].
  destruct (strcspn_cut delim s) as [token save]; simpl in *. lia.
Qed.

Lemma strtok_r_save_shorter s delim token save :
  strtok_r s delim = Some (token, save) ->
  (String.length save < String.length s)%nat.
Proof.
  unfold strtok_r. pose proof (strspn_drop_length delim s) as Hd.
  destruct (strspn_drop delim s) as [|c s'] eqn:E; [discriminate|].
  intros [= H]. pose proof (strcspn_cut_length delim (String c s')) as Hc.
  assert (Hs : snd (strcspn_cut delim (String c s')) = save)
    by (transitivity (snd (token, save)); [f_equal; exact H | reflexivity]).
  rewrite Hs in Hc. simpl in Hc, Hd. lia.
Qed.

Definition inspect {A} (a : A) : {b : A | a = b} := exist _ a eq_refl.

(** The loop the source writes three times:
    [token = strtok(s, delim); while (token != NULL) { ...; token = strtok(NULL, delim); }]
    collecting the tokens in order. *)
Equations? strtok_loop (delim s : string) : list string
  by wf (String.length s) lt :=
  strtok_loop delim s with inspect (strtok_r s delim) := {
    | exist _ None _ => [];
    | exist _ (Some (token, save)) Heq => token :: strtok_loop delim save }.
Proof. eapply strtok_r_save_shorter; eauto. Qed.

(** The digits of [strtol]: their value, the digits before them having the
    value [acc]. *)
Fixpoint atoi_digits (s : string) (acc : Z) : Z :=
  match s with
  | EmptyString => acc
  | String c s' =>
      if isdigit c
      then atoi_digits s' (10 * acc + (Z.of_N (N_of_ascii c) - 48))
      else acc
  end.

Fixpoint skip_space (s : string) : string :=
  match s with
  | EmptyString => EmptyString
  | String c s' => if isspace c then skip_space s' else s
  end.

Definition LONG_MAX : Z := 2 ^ 63 - 1.
Definition LONG_MIN : Z := - 2 ^ 63.

(** [strtol(s, NULL, 10)]: leading white space, an optional sign, then
    decimal digits; 0 when there is no digit, and the nearest bound of [long]
    (64 bits) for a number beyond it. *)
Definition strtol (s : string) : Z :=
  let value :=
    match skip_space s with
    | String "-" s' => - atoi_digits s' 0
    | String "+" s' => atoi_digits s' 0
    | s' => atoi_digits s' 0
    end in
  Z.max LONG_MIN (Z.min LONG_MAX value).

(** [(int) x] for a [long] [x]: the value modulo 2^32, in the range of
    [int]. *)
Definition to_int (x : Z) : Z := (x + 2 ^ 31) mod 2 ^ 32 - 2 ^ 31.

(** [atoi] is [(int) strtol(s, NULL, 10)] in glibc; [pid_t] is [int]. *)
Definition atoi (s : string) : Z := to_int (strtol s).

(** [printf("%d", n)]. *)
Definition decimal (n : Z) : string := NilZero.string_of_int (Z.to_int n).

End CString.
Import CString.

(** ** Wait statuses, signals and terminal flags

    These come from the system headers, not from the repository; the values
    are those of Linux and glibc. *)

Module Sys.

Definition SIGINT : Z := 2.
Definition SIGCONT : Z := 18.
Definition SIGTSTP : Z := 20.
Definition SIGTTOU : Z := 22.

Definition WUNTRACED : Z := 2.

Definition STDIN_FILENO : Z := 0.
Definition STDOUT_FILENO : Z := 1.

(** [(signed char) x]. *)
Definition signed_char (x : Z) : Z :=
  let y := x mod 256 in if y <? 128 then y else y - 256.

(** [<bits/waitstatus.h>] *)
Definition WEXITSTATUS (status : Z) : Z := Z.shiftr (Z.land status 65280) 8.
Definition WTERMSIG (status : Z) : Z := Z.land status 127.
Definition WIFEXITED (status : Z) : bool := WTERMSIG status =? 0.
Definition WIFSIGNALED (status : Z) : bool :=
  0 <? Z.shiftr (signed_char (Z.land status 127 + 1)) 1.
Definition WIFSTOPPED (status : Z) : bool := Z.land status 255 =? 127.

(** The status [waitpid] stores for a child that called [exit(ret)], that
    was killed by [sig], or that was stopped by [sig]. *)
Definition W_EXITCODE (ret sig : Z) : Z := Z.lor (Z.shiftl ret 8) sig.
Definition W_STOPCODE (sig : Z) : Z := Z.lor (Z.shiftl sig 8) 127.

(** [struct termios] *)
Record termios := {
  c_iflag : Z;
  c_oflag : Z;
  c_cflag : Z;
  c_lflag : Z;
  c_line : Z;
  c_cc : list Z;
  c_ispeed : Z;
  c_ospeed : Z
}.

Definition BRKINT : Z := 2.
Definition ICRNL : Z := 256.
Definition INPCK : Z := 16.
Definition ISTRIP : Z := 32.
Definition IXON : Z := 1024.
Definition OPOST : Z := 1.
Definition CS8 : Z := 48.
Definition ECHO : Z := 8.
Definition ICANON : Z := 2.
Definition IEXTEN : Z := 32768.

End Sys.
Import Sys.

(** ** Data structures of the shell *)

Module Data.

(** [struct __hist_node]; the [next] pointers make the list. *)
Record __hist_node := { hist_command : option string }.

(** [struct __job_node]; the [next] pointers make the list. *)
Record __job_node := {
  pid : Z;
  command : string;
  status : Z
}.

(** [struct __rsh].  A null-terminated singly linked list is the list of
    its nodes, the null pointer the empty list. *)
Record __rsh := {
  capacity : Z;
  running_process : Z;
  path : string;
  hist_buffer : list __hist_node;
  job_buffer : list __job_node
}.

Definition set_running_process (x : Z) (r : __rsh) : __rsh :=
  Build___rsh (capacity r) x (path r) (hist_buffer r) (job_buffer r).

Definition set_hist_buffer (x : list __hist_node) (r : __rsh) : __rsh :=
  Build___rsh (capacity r) (running_process r) (path r) x (job_buffer r).

Definition set_job_buffer (x : list __job_node) (r : __rsh) : __rsh :=
  Build___rsh (capacity r) (running_process r) (path r) (hist_buffer r) x.

End Data.
Import Data.

(** ** The world and the monad of the shell *)

Module World.

(** A handler given to [signal]. *)
Inductive sighandler :=
| SIG_DFL
| SIG_IGN
| handler_ctrlc     (* [__handle_ctrlc] *)
| handler_ctrlz.    (* [__handle_ctrlz] *)

(** A function given to [atexit]. *)
Inductive atexit_fn :=
| fn_disable_raw_mode.   (* [__disable_raw_mode] *)

(** What a call of [fork] can do: return 0 in the new process, whose pid
    is [me]; return the pid of the new process; or fail. *)
Inductive fork_result :=
| in_child (me : positive)
| in_parent (child : positive)
| fork_failed.

(** What a call [read(STDIN_FILENO, c, 1)] can do. *)
Inductive read_result :=
| read_byte (c : ascii)     (* returns 1 and stores the byte *)
| read_eof                  (* returns 0 and stores nothing *)
| read_signal (sig : Z)     (* a signal is delivered; returns -1, EINTR *)
| read_error.               (* returns -1 with another errno *)

(** The visible actions of the process. *)
Inductive event :=
| Stdout (s : string)
| Stderr (s : string)
| Perror (s : string)
| Kill (pid sig : Z)
| Tcsetpgrp (pgrp : Z)
| Tcsetattr (t : termios)
| Setpgid (pid pgid : Z)
| Fork (ret : Z)
| Pipe (ret : option (Z * Z))
| Dup2 (oldfd newfd : Z)
| Close (fd : Z)
| Execvp (file : option string) (argv : list string)
| Waitpid (pid options : Z).

Record world := {
  orig_termios : termios;  (* [struct termios orig_termios] *)
  rsh_initialized : bool;  (* [static bool rsh_initialized] *)
  rsh : option __rsh;  (* [struct __rsh* rsh]; [None] is the null pointer *)
  tty : termios;  (* discipline of the controlling terminal *)
  tty_pgrp : Z;  (* foreground process group of the terminal *)
  atexit_fns : list atexit_fn;  (* registered with [atexit], latest first *)
  sigdisp : Z -> sighandler;  (* disposition of each signal *)
  self_pid : Z;  (* what [getpid] returns *)
  env_PATH : option string;  (* what [getenv] returns for PATH *)
  exec_ok : string -> bool;  (* whether [execvp] finds and starts the file *)
  stdin : list read_result;  (* what the next calls of [read] return *)
  forks : list fork_result;  (* what the next calls of [fork] do *)
  pipes : list (option (Z * Z));  (* what the next calls of [pipe] give *)
  waits : list (option Z);  (* what the next calls of [waitpid] store *)
  unwritten : list ascii;  (* what the next reads of a byte that was
                              allocated but never written find *)
  trace : list event  (* actions performed so far, oldest first *)
}.

Definition set_orig_termios (x : termios) (w : world) : world :=
  Build_world x (rsh_initialized w) (rsh w) (tty w) (tty_pgrp w)
    (atexit_fns w) (sigdisp w) (self_pid w) (env_PATH w) (exec_ok w)
    (stdin w) (forks w) (pipes w) (waits w) (unwritten w) (trace w).

Definition set_rsh_initialized (x : bool) (w : world) : world :=
  Build_world (orig_termios w) x (rsh w) (tty w) (tty_pgrp w) (atexit_fns w)
    (sigdisp w) (self_pid w) (env_PATH w) (exec_ok w) (stdin w) (forks w)
    (pipes w) (waits w) (unwritten w) (trace w).

Definition set_rsh (x : option __rsh) (w : world) : world :=
  Build_world (orig_termios w) (rsh_initialized w) x (tty w) (tty_pgrp w)
    (atexit_fns w) (sigdisp w) (self_pid w) (env_PATH w) (exec_ok w)
    (stdin w) (forks w) (pipes w) (waits w) (unwritten w) (trace w).

Definition set_tty (x : termios) (w : world) : world :=
  Build_world (orig_termios w) (rsh_initialized w) (rsh w) x (tty_pgrp w)
    (atexit_fns w) (sigdisp w) (self_pid w) (env_PATH w) (exec_ok w)
    (stdin w) (forks w) (pipes w) (waits w) (unwritten w) (trace w).

Definition set_tty_pgrp (x : Z) (w : world) : world :=
  Build_world (orig_termios w) (rsh_initialized w) (rsh w) (tty w) x
    (atexit_fns w) (sigdisp w) (self_pid w) (env_PATH w) (exec_ok w)
    (stdin w) (forks w) (pipes w) (waits w) (unwritten w) (trace w).

Definition set_atexit_fns (x : list atexit_fn) (w : world) : world :=
  Build_world (orig_termios w) (rsh_initialized w) (rsh w) (tty w)
    (tty_pgrp w) x (sigdisp w) (self_pid w) (env_PATH w) (exec_ok w)
    (stdin w) (forks w) (pipes w) (waits w) (unwritten w) (trace w).

Definition set_sigdisp (x : Z -> sighandler) (w : world) : world :=
  Build_world (orig_termios w) (rsh_initialized w) (rsh w) (tty w)
    (tty_pgrp w) (atexit_fns w) x (self_pid w) (env_PATH w) (exec_ok w)
    (stdin w) (forks w) (pipes w) (waits w) (unwritten w) (trace w).

Definition set_self_pid (x : Z) (w : world) : world :=
  Build_world (orig_termios w) (rsh_initialized w) (rsh w) (tty w)
    (tty_pgrp w) (atexit_fns w) (sigdisp w) x (env_PATH w) (exec_ok w)
    (stdin w) (forks w) (pipes w) (waits w) (unwritten w) (trace w).

Definition set_stdin (x : list read_result) (w : world) : world :=
  Build_world (orig_termios w) (rsh_initialized w) (rsh w) (tty w)
    (tty_pgrp w) (atexit_fns w) (sigdisp w) (self_pid w) (env_PATH w)
    (exec_ok w) x (forks w) (pipes w) (waits w) (unwritten w) (trace w).

Definition set_forks (x : list fork_result) (w : world) : world :=
  Build_world (orig_termios w) (rsh_initialized w) (rsh w) (tty w)
    (tty_pgrp w) (atexit_fns w) (sigdisp w) (self_pid w) (env_PATH w)
    (exec_ok w) (stdin w) x (pipes w) (waits w) (unwritten w) (trace w).

Definition set_pipes (x : list (option (Z * Z))) (w : world) : world :=
  Build_world (orig_termios w) (rsh_initialized w) (rsh w) (tty w)
    (tty_pgrp w) (atexit_fns w) (sigdisp w) (self_pid w) (env_PATH w)
    (exec_ok w) (stdin w) (forks w) x (waits w) (unwritten w) (trace w).

Definition set_waits (x : list (option Z)) (w : world) : world :=
  Build_world (orig_termios w) (rsh_initialized w) (rsh w) (tty w)
    (tty_pgrp w) (atexit_fns w) (sigdisp w) (self_pid w) (env_PATH w)
    (exec_ok w) (stdin w) (forks w) (pipes w) x (unwritten w) (trace w).

Definition set_unwritten (x : list ascii) (w : world) : world :=
  Build_world (orig_termios w) (rsh_initialized w) (rsh w) (tty w)
    (tty_pgrp w) (atexit_fns w) (sigdisp w) (self_pid w) (env_PATH w)
    (exec_ok w) (stdin w) (forks w) (pipes w) (waits w) x (trace w).

Definition set_trace (x : list event) (w : world) : world :=
  Build_world (orig_termios w) (rsh_initialized w) (rsh w) (tty w)
    (tty_pgrp w) (atexit_fns w) (sigdisp w) (self_pid w) (env_PATH w)
    (exec_ok w) (stdin w) (forks w) (pipes w) (waits w) (unwritten w) x.

(** How a computation can end without returning to its caller. *)
Inductive halt :=
| Exit (code : Z)            (* [exit]: the [atexit] functions have run *)
| Exit_now (code : Z)        (* [_exit] *)
| Image_replaced (file : string) (argv : list string)
                             (* [execvp] succeeded *)
| Default_action (sig : Z)   (* a signal with disposition [SIG_DFL] *)
| Blocked                    (* waits for an answer that never comes *)
| Undefined.                 (* undefined behaviour in C *)

Inductive outcome (A : Type) :=
| Returned (a : A) (w : world)
| Halted (h : halt) (w : world).
Arguments Returned {A} a w.
Arguments Halted {A} h w.

Definition M (A : Type) : Type := world -> outcome A.

#[export] Instance Monad_M : Monad M := {
  ret := fun A (a : A) w => Returned a w;
  bind := fun A B (m : M A) (k : A -> M B) w =>
    match m w with
    | Returned a w' => k a w'
    | Halted h w' => Halted h w'
    end
}.

Definition gets {A} (f : world -> A) : M A := fun w => Returned (f w) w.
Definition modify (f : world -> world) : M unit := fun w => Returned tt (f w).
Definition stop {A} (h : halt) : M A := fun w => Halted h w.
Definition emit (e : event) : M unit :=
  modify (fun w => set_trace (trace w ++ [e]) w).

(** Access to [*rsh]; a null [rsh] cannot be dereferenced. *)
Definition rsh_read {A} (f : __rsh -> A) : M A :=
  fun w => match rsh w with
           | Some r => Returned (f r) w
           | None => Halted Undefined w
           end.

Definition rsh_write (f : __rsh -> __rsh) : M unit :=
  fun w => match rsh w with
           | Some r => Returned tt (set_rsh (Some (f r)) w)
           | None => Halted Undefined w
           end.

(** The read of a byte of memory that [malloc] returned and the program
    never wrote: its value is indeterminate, and the world gives it. *)
Definition unwritten_byte : M ascii :=
  fun w => match unwritten w with
           | b :: rest => Returned b (set_unwritten rest w)
           | [] => Halted Undefined w
           end.

End World.
Import World.

(** ** System calls

    Each call records what it does in the trace, changes the kernel state
    the shell can observe, and takes its answer from the world.  [malloc],
    [strdup] and [realloc] are taken to succeed and [free] is not modelled. *)

Module Syscall.

Definition printf (s : string) : M unit := emit (Stdout s).
Definition fprintf_stderr (s : string) : M unit := emit (Stderr s).
Definition perror (s : string) : M unit := emit (Perror s).
Definition kill (pid sig : Z) : M unit := emit (Kill pid sig).
Definition setpgid (pid pgid : Z) : M unit := emit (Setpgid pid pgid).
Definition dup2 (oldfd newfd : Z) : M unit := emit (Dup2 oldfd newfd).
Definition close (fd : Z) : M unit := emit (Close fd).
Definition getpid : M Z := gets self_pid.
Definition getenv_PATH : M (option string) := gets env_PATH.

Definition signal (sig : Z) (h : sighandler) : M unit :=
  modify (fun w => set_sigdisp (fun s => if s =? sig then h else sigdisp w s) w).

(** [tcsetpgrp(STDIN_FILENO, pgrp)], taken to succeed. *)
Definition tcsetpgrp (pgrp : Z) : M unit :=
  emit (Tcsetpgrp pgrp) ;; modify (set_tty_pgrp pgrp).

(** [tcgetattr(STDIN_FILENO, &t)] and
    [tcsetattr(STDIN_FILENO, TCSAFLUSH, &t)], taken to succeed. *)
Definition tcgetattr : M termios := gets tty.
Definition tcsetattr (t : termios) : M unit :=
  emit (Tcsetattr t) ;; modify (set_tty t).

Definition atexit (fn : atexit_fn) : M unit :=
  modify (fun w => set_atexit_fns (fn :: atexit_fns w) w).

(** [fork]: 0 in the child, the child's pid in the parent, -1 on failure
    (also when the world has no answer left). *)
Definition fork : M Z :=
  fun w =>
    match forks w with
    | [] => Returned (-1) (set_trace (trace w ++ [Fork (-1)]) w)
    | in_child me :: rest =>
        Returned 0
          (set_self_pid (Z.pos me)
             (set_forks rest (set_trace (trace w ++ [Fork 0]) w)))
    | in_parent child :: rest =>
        Returned (Z.pos child)
          (set_forks rest (set_trace (trace w ++ [Fork (Z.pos child)]) w))
    | fork_failed :: rest =>
        Returned (-1) (set_forks rest (set_trace (trace w ++ [Fork (-1)]) w))
    end.

(** [pipe(fds)]: [None] is the result -1. *)
Definition pipe : M (option (Z * Z)) :=
  fun w =>
    match pipes w with
    | [] => Returned None (set_trace (trace w ++ [Pipe None]) w)
    | r :: rest =>
        Returned r (set_pipes rest (set_trace (trace w ++ [Pipe r]) w))
    end.

(** [execvp(file, argv)] returns only when it fails.  A null [file] is
    dereferenced by the C library. *)
Definition execvp (file : option string) (argv : list string) : M unit :=
  emit (Execvp file argv) ;;
  match file with
  | None => stop Undefined
  | Some f =>
      ok <- gets (fun w => exec_ok w f) ;;
      if ok then stop (Image_replaced f argv) else ret tt
  end.

(** [waitpid(pid, &status, options)]: the new content of [status], which
    is left as it was ([None]: never assigned) when the call fails. *)
Definition waitpid (pid : Z) (status : option Z) (options : Z)
  : M (option Z) :=
  emit (Waitpid pid options) ;;
  fun w =>
    match waits w with
    | [] => Halted Blocked w
    | Some s :: rest => Returned (Some s) (set_waits rest w)
    | None :: rest => Returned status (set_waits rest w)
    end.

Definition _exit {A} (code : Z) : M A := stop (Exit_now code).

End Syscall.
Import Syscall.

(** ** The functions of [rsh.c] *)

Definition PATH_LENGTH : Z := 1024.

(** [__disable_raw_mode]: write the saved discipline back. *)
Definition __disable_raw_mode : M unit :=
  t <- gets orig_termios ;;
  tcsetattr t.

Definition run_atexit_fn (fn : atexit_fn) : M unit :=
  match fn with
  | fn_disable_raw_mode => __disable_raw_mode
  end.

Fixpoint run_atexit_fns (fns : list atexit_fn) : M unit :=
  match fns with
  | [] => ret tt
  | fn :: rest => run_atexit_fn fn ;; run_atexit_fns rest
  end.

(** [exit(code)]: the registered functions run, latest first, and the
    process ends. *)
Definition exit {A} (code : Z) : M A :=
  fns <- gets atexit_fns ;;
  run_atexit_fns fns ;;
  stop (Exit code).

(** The discipline [__enable_raw_mode] installs. *)
Definition raw_of (orig : termios) : termios :=
  {| c_iflag := Z.land (c_iflag orig)
                  (Z.lnot (Z.lor BRKINT (Z.lor ICRNL (Z.lor INPCK (Z.lor ISTRIP IXON)))));
     c_oflag := Z.land (c_oflag orig) (Z.lnot OPOST);
     c_cflag := Z.lor (c_cflag orig) CS8;
     c_lflag := Z.land (c_lflag orig) (Z.lnot (Z.lor ECHO (Z.lor ICANON IEXTEN)));
     c_line := c_line orig;
     c_cc := c_cc orig;
     c_ispeed := c_ispeed orig;
     c_ospeed := c_ospeed orig |}.

Definition __enable_raw_mode : M unit :=
  t <- tcgetattr ;;
  modify (set_orig_termios t) ;;
  atexit fn_disable_raw_mode ;;
  orig <- gets orig_termios ;;
  tcsetattr (raw_of orig).

(** [__rsh_get]: the session is created on first use.  The source assigns
    every field of the new structure but [job_buffer], which keeps what
    [malloc] left there; a walk over the job list is defined only if that is
    the null pointer, and the model reads the field so.  The statements
    below about the job list do not rest on this reading: they take a
    session that exists, with the job list it has, as their hypothesis. *)
Definition __rsh_get : M unit :=
  initialized <- gets rsh_initialized ;;
  if negb initialized then
    __enable_raw_mode ;;
    signal SIGINT handler_ctrlc ;;
    signal SIGTSTP handler_ctrlz ;;
    p <- getenv_PATH ;;
    modify (set_rsh (Some {|
      capacity := 16;
      running_process := 0;
      path := match p with Some s => s | None => "/bin:/usr/bin" end;
      hist_buffer := [ {| hist_command := None |} ];
      job_buffer := [] |})) ;;
    modify (set_rsh_initialized true)
  else ret tt.

(** [__rsh_destroy(rsh)]: every node and the structure itself are freed. *)
Definition __rsh_destroy : M unit := modify (set_rsh None).

(** [__append_job]: the new node becomes the head of the list. *)
Definition __append_job (pid : Z) (cmd : string) (status : Z) : M unit :=
  __rsh_get ;;
  rsh_write (fun r =>
    set_job_buffer
      ({| pid := pid; command := cmd; status := status |} :: job_buffer r) r).

(** The walk of [__remove_job]: unlink the first node with this pid. *)
Fixpoint unlink_job (pid : Z) (curr : list __job_node) : list __job_node :=
  match curr with
  | [] => []
  | j :: next => if Data.pid j =? pid then next else j :: unlink_job pid next
  end.

Definition __remove_job (pid : Z) : M unit :=
  __rsh_get ;;
  rsh_write (fun r => set_job_buffer (unlink_job pid (job_buffer r)) r).

(** The walk of [__append_history] from [current] to the last node, where
    [to_add] is linked. *)
Fixpoint link_last (current : __hist_node) (next : list __hist_node)
    (to_add : __hist_node) : list __hist_node :=
  match next with
  | [] => [current; to_add]
  | n :: next' => current :: link_last n next' to_add
  end.

Definition __append_history (str : string) : M unit :=
  __rsh_get ;;
  rsh_write (fun r =>
    match hist_buffer r with
    | [] => set_hist_buffer [ {| hist_command := None |} ] r
    | _ => r
    end) ;;
  h <- rsh_read hist_buffer ;;
  match h with
  | [] => stop Undefined
  | current :: next =>
      rsh_write
        (set_hist_buffer (link_last current next {| hist_command := Some str |}))
  end.

(** [__display_history]: every node after the head is printed.  [printf]
    of a null string is undefined. *)
Fixpoint print_history (current : list __hist_node) : M unit :=
  match current with
  | [] => ret tt
  | n :: next =>
      match hist_command n with
      | Some s => printf (s ++ CRLF) ;; print_history next
      | None => stop Undefined
      end
  end.

Definition __display_history : M unit :=
  __rsh_get ;;
  h <- rsh_read hist_buffer ;;
  match h with
  | [] => stop Undefined
  | _ :: current => print_history current
  end.

(** [__handle_ctrlc]: the interrupt goes to the foreground process, or the
    shell ends. *)
Definition __handle_ctrlc (sig : Z) : M unit :=
  __rsh_get ;;
  rp <- rsh_read running_process ;;
  if negb (rp =? 0) then kill rp SIGINT
  else
    printf CRLF ;;
    __rsh_destroy ;;
    exit 0.

(** [__handle_ctrlz].  [rp] is [r->running_process], which nothing writes
    between its four uses; [status] is not initialised, and is read after
    [waitpid] whether or not the call stored something. *)
Definition __handle_ctrlz (sig : Z) : M unit :=
  __rsh_get ;;
  rp <- rsh_read running_process ;;
  if negb (rp =? 0) then
    kill rp SIGTSTP ;;
    status <- waitpid rp None WUNTRACED ;;
    match status with
    | None => stop Undefined
    | Some status =>
        (if WIFSTOPPED status
         then __append_job rp "command" 1
         else ret tt) ;;
        rsh_write (set_running_process 0)
    end
  else ret tt.

(** Delivery of a signal to the shell, by its current disposition. *)
Definition deliver (sig : Z) : M unit :=
  h <- gets (fun w => sigdisp w sig) ;;
  match h with
  | SIG_DFL => stop (Default_action sig)
  | SIG_IGN => ret tt
  | handler_ctrlc => __handle_ctrlc sig
  | handler_ctrlz => __handle_ctrlz sig
  end.

(** *** Reading a line: [__parse_input] *)

(** The buffer without its last byte ([input_len--]). *)
Fixpoint drop_last (buf : string) : string :=
  match buf with
  | EmptyString => EmptyString
  | String c EmptyString => EmptyString
  | String c buf' => String c (drop_last buf')
  end.

(** The read loop.  [keys] is what is left to read, [c] the byte that [*c]
    holds ([None] while it is as [malloc] left it), [buf] the first
    [input_len] bytes of the input buffer.  The result is [Some line] when
    the line is complete and [None] when the function returns NULL.

    When the buffer is full the source prints the limit and leaves the loop
    without writing the terminating NUL: the 1023 bytes of the buffer are
    followed by a byte that was never written, which [strlen] in
    [__append_history] reads.  If this byte is NUL the line is the 1023 bytes;
    otherwise [strlen] reads on beyond the allocated block.

    A [read] that returns 0 stores nothing, and the source goes on with
    what [*c] holds: the byte read before or, if none was read, what [malloc]
    left there. *)
Fixpoint read_loop (keys : list read_result) (c : option ascii) (buf : string)
  : M (option string) :=
  match keys with
  | [] => stop Blocked
  | k :: keys' =>
      modify (set_stdin keys') ;;
      let process (ch : ascii) : M (option string) :=
        if iscntrl ch then
          if Ascii.eqb ch LF || Ascii.eqb ch CR then
            printf CRLF ;; ret (Some buf)
          else if Ascii.eqb ch BS || Ascii.eqb ch DEL then
            if (0 <? String.length buf)%nat then
              printf (String BS (String " " (String BS ""))) ;;
              read_loop keys' (Some ch) (drop_last buf)
            else read_loop keys' (Some ch) buf
          else if Ascii.eqb ch TAB then
            printf (String TAB "") ;; read_loop keys' (Some ch) buf
          else if Ascii.eqb ch ETX then
            __handle_ctrlc 0 ;; read_loop keys' (Some ch) buf
          else read_loop keys' (Some ch) buf
        else
          if Z.of_nat (String.length buf) <? PATH_LENGTH - 1 then
            printf (String ch "") ;;
            read_loop keys' (Some ch) (buf ++ String ch "")
          else
            printf (CRLF ++ "Input too long! Maximum length is 1023" ++ CRLF) ;;
            after <- unwritten_byte ;;
            if Ascii.eqb after NUL then ret (Some buf) else stop Undefined in
      match k with
      | read_signal sig => deliver sig ;; read_loop keys' c buf
      | read_error =>
          perror "Error (FATAL): Cannot read from stdin" ;; ret None
      | read_byte b => process b
      | read_eof =>
          match c with
          | Some ch => process ch
          | None => ch <- unwritten_byte ;; process ch
          end
      end
  end.

(** The capacity of [argv] after the tokens have been stored: it doubles
    whenever [ind] has reached it. *)
Fixpoint argv_capacity (tokens : list string) (ind capacity : nat) : nat :=
  match tokens with
  | [] => capacity
  | _ :: rest =>
      argv_capacity rest (S ind)
        (if (capacity <=? ind)%nat then (2 * capacity)%nat else capacity)
  end.

(** [__parse_input]: [Some (argc, argv)] or [None] for NULL, together with
    the line left in [*input_ptr].  [argv[ind] = NULL] after the loop is
    written without a capacity check. *)
Definition __parse_input : M (option (Z * list string) * string) :=
  printf (String CR "> ") ;;
  keys <- gets stdin ;;
  line <- read_loop keys None "" ;;
  match line with
  | None => ret (None, "")
  | Some input =>
      __append_history input ;;
      let argv := strtok_loop BLANKS input in
      if (List.length argv <? argv_capacity argv 0 16)%nat
      then ret (Some (Z.of_nat (List.length argv), argv), input)
      else stop Undefined
  end.

(** *** Pipelines: [__parse_pipeline] and [__handle_pipeline] *)

(** The inner loop of [__parse_pipeline]: [args] has room for 16 pointers,
    the last of them the terminating NULL. *)
Definition stage_args (token : string) : option (list string) :=
  let args := strtok_loop BLANKS token in
  if (List.length args <? 16)%nat then Some args else None.

Fixpoint stages_args (tokens : list string) : option (list (list string)) :=
  match tokens with
  | [] => Some []
  | token :: rest =>
      match stage_args token, stages_args rest with
      | Some args, Some commands => Some (args :: commands)
      | _, _ => None
      end
  end.

(** [__parse_pipeline]: the stages in order, [*pipe_count] being their
    number; [None] when one of the two fixed arrays is overrun. *)
Definition __parse_pipeline (input : string) : option (list (list string)) :=
  let tokens := strtok_loop "|" input in
  if (List.length tokens <=? 16)%nat then stages_args tokens else None.

(** The first loop of [__handle_pipeline], from stage [i] on: [inl v] when
    the function returns [v] from inside the loop, [inr pids] otherwise. *)
Fixpoint pipeline_spawn (commands : list (list string)) (i num_commands : Z)
    (prev_pipe next_pipe : Z * Z) (pids : list Z) : M (Z + list Z) :=
  match commands with
  | [] => ret (inr pids)
  | command_i :: rest =>
      opened <-
        (if i <? num_commands - 1 then
           r <- pipe ;;
           match r with
           | None =>
               printf "Error (FATAL): Could not open pipe" ;; ret (inl (-1))
           | Some fds => ret (inr fds)
           end
         else ret (inr next_pipe)) ;;
      match opened with
      | inl v => ret (inl v)
      | inr next_pipe =>
          pid <- fork ;;
          forked <-
            (if pid =? 0 then
               (if 0 <? i then
                  dup2 (fst prev_pipe) STDIN_FILENO ;;
                  close (fst prev_pipe) ;;
                  close (snd prev_pipe)
                else ret tt) ;;
               (if i <? num_commands - 1 then
                  close (fst next_pipe) ;;
                  dup2 (snd next_pipe) STDOUT_FILENO ;;
                  close (snd next_pipe)
                else ret tt) ;;
               execvp (hd_error command_i) command_i ;;
               ret (inr tt)
             else if pid <? 0 then
               perror "fork" ;; ret (inl (-1))
             else ret (inr tt)) ;;
          match forked with
          | inl v => ret (inl v)
          | inr _ =>
              (if 0 <? i then
                 close (fst prev_pipe) ;; close (snd prev_pipe)
               else ret tt) ;;
              pipeline_spawn rest (i + 1) num_commands
                (if i <? num_commands - 1 then next_pipe else prev_pipe)
                next_pipe (pids ++ [pid])
          end
      end
  end.

(** The second loop: every pid is waited for, into the same [status]. *)
Fixpoint pipeline_wait (pids : list Z) (status : Z) : M Z :=
  match pids with
  | [] => ret status
  | pid :: rest =>
      s <- waitpid pid (Some status) 0 ;;
      match s with
      | Some status' => pipeline_wait rest status'
      | None => stop Undefined
      end
  end.

(** [__handle_pipeline].  The two pipe arrays are not initialised in the
    source; they are read only after they have been assigned. *)
Definition __handle_pipeline (commands : list (list string)) (num_commands : Z)
  : M Z :=
  spawned <- pipeline_spawn commands 0 num_commands (0, 0) (0, 0) [] ;;
  match spawned with
  | inl v => ret v
  | inr pids =>
      status <- pipeline_wait pids 0 ;;
      ret (WEXITSTATUS status)
  end.

(** *** Dispatch: [__handle_input] *)

(** The [jobs] listing. *)
Fixpoint print_jobs (j : list __job_node) : M unit :=
  match j with
  | [] => ret tt
  | n :: next =>
      printf ("[" ++ decimal (pid n) ++ "] "
              ++ (if status n =? 1 then "Stopped" else "Running")
              ++ String TAB (command n) ++ String LF "") ;;
      print_jobs next
  end.

(** [for (uint8_t i = 0; i < 255; i++) printf("\r\n");] *)
Fixpoint print_lines (n : nat) : M unit :=
  match n with
  | O => ret tt
  | S n' => printf CRLF ;; print_lines n'
  end.

(** The foreground wait: [do waitpid(...) while (...)].  [ws] is what
    is left for [waitpid] to answer. *)
Fixpoint wait_foreground (id : Z) (ws : list (option Z)) (status : option Z)
  : M Z :=
  match ws with
  | [] => s <- waitpid id status WUNTRACED ;; stop Blocked
  | _ :: ws' =>
      s <- waitpid id status WUNTRACED ;;
      match s with
      | None => stop Undefined
      | Some st =>
          if negb (WIFEXITED st) && negb (WIFSIGNALED st) && negb (WIFSTOPPED st)
          then wait_foreground id ws' s
          else ret st
      end
  end.

(** [ioctl]s that hand the terminal to a process group, as the source
    writes them three times. *)
Definition give_terminal (pgrp : Z) : M unit :=
  signal SIGTTOU SIG_IGN ;;
  tcsetpgrp pgrp ;;
  signal SIGTTOU SIG_DFL.

(** From [int pipe_count = 0;] to the end of [__handle_input]: what runs
    when no built-in has returned. *)
Definition launch (argv : list string) (raw_input : string) : M Z :=
  match __parse_pipeline raw_input with
  | None => stop Undefined
  | Some commands =>
      let pipe_count := Z.of_nat (List.length commands) in
      if 1 <? pipe_count then
        res <- __handle_pipeline commands pipe_count ;;
        ret res
      else
        match argv with
        | [] => stop Undefined
        | argv0 :: _ =>
            if String.eqb argv0 "history" || String.eqb argv0 "History" then
              __display_history ;; ret 0
            else
              (* strcpy(cpy_path, rsh->path) into PATH_LENGTH bytes *)
              p <- rsh_read path ;;
              if PATH_LENGTH <=? Z.of_nat (String.length p) then stop Undefined
              else
                id <- fork ;;
                if id =? 0 then
                  setpgid 0 0 ;;
                  execvp (Some argv0) argv ;;
                  perror "execvp failed" ;;
                  _exit 127
                else if 0 <? id then
                  setpgid id id ;;
                  give_terminal id ;;
                  signal SIGINT SIG_IGN ;;
                  signal SIGTSTP SIG_IGN ;;
                  rsh_write (set_running_process id) ;;
                  ws <- gets waits ;;
                  status <- wait_foreground id ws None ;;
                  signal SIGINT handler_ctrlc ;;
                  signal SIGTSTP handler_ctrlz ;;
                  me <- getpid ;;
                  give_terminal me ;;
                  (if WIFSTOPPED status
                   then __append_job id argv0 1
                   else __remove_job id) ;;
                  rsh_write (set_running_process 0) ;;
                  ret 0
                else
                  fprintf_stderr ("Error: Fork failed" ++ CRLF) ;;
                  ret (-1)
        end
  end.

Definition __handle_input (argc : Z) (argv : list string) (raw_input : string)
  : M Z :=
  __rsh_get ;;
  match argv with
  | [] => ret (-1)
  | argv0 :: _ =>
      if argc =? 0 then ret (-1)
      else if String.eqb argv0 "exit" then
        __handle_ctrlc 0 ;;
        launch argv raw_input
      else if String.eqb argv0 "clear" then
        print_lines 255 ;;
        launch argv raw_input
      else if String.eqb argv0 "jobs" then
        j <- rsh_read job_buffer ;;
        print_jobs j ;;
        ret 0
      else if String.eqb argv0 "fg" then
        if argc <? 2 then
          fprintf_stderr ("Usage: fg <pid>" ++ String LF "") ;;
          ret (-1)
        else
          match nth_error argv 1 with
          | None => stop Undefined
          | Some argv1 =>
              let pid := atoi argv1 in
              give_terminal pid ;;
              kill (- pid) SIGCONT ;;
              waitpid pid None WUNTRACED ;;
              me <- getpid ;;
              give_terminal me ;;
              ret 0
          end
      else if String.eqb argv0 "bg" then
        if argc <? 2 then
          fprintf_stderr ("Usage: bg <pid>" ++ String LF "") ;;
          ret (-1)
        else
          match nth_error argv 1 with
          | None => stop Undefined
          | Some argv1 =>
              let pid := atoi argv1 in
              kill pid SIGCONT ;;
              __remove_job pid ;;
              ret 0
          end
      else launch argv raw_input
  end.

(** *** The main loop: [rsh_run]

    The loop of the source never ends; [main_loop n] is its first [n]
    rounds. *)
Fixpoint main_loop (n : nat) : M unit :=
  match n with
  | O => ret tt
  | S n' =>
      '(parsed, raw_input) <- __parse_input ;;
      match parsed with
      | None =>
          printf ("Error: Failed to get user input" ++ String LF "") ;;
          main_loop n'
      | Some (argc, argv) =>
          __handle_input argc argv raw_input ;;
          main_loop n'
      end
  end.

Definition rsh_run (n : nat) : M unit :=
  printf ("RSH V0.0.1, program developed by Robert Fudge" ++ String LF "") ;;
  main_loop n.

(** The world in which the program starts: zero-initialised globals, every
    signal at its default disposition, nothing registered with [atexit]. *)
Definition boot (t : termios) (shell_pid : Z) (p : option string)
    (resolves : string -> bool) (keys : list read_result)
    (fs : list fork_result) (ps : list (option (Z * Z)))
    (ws : list (option Z)) : world :=
  {| orig_termios := Build_termios 0 0 0 0 0 [] 0 0;
     rsh_initialized := false;
     rsh := None;
     tty := t;
     tty_pgrp := shell_pid;
     atexit_fns := [];
     sigdisp := fun _ => SIG_DFL;
     self_pid := shell_pid;
     env_PATH := p;
     exec_ok := resolves;
     stdin := keys;
     forks := fs;
     pipes := ps;
     waits := ws;
     unwritten := [];
     trace := [] |}.

(** A world in which the session exists: the state [__rsh_get] leaves on
    first use, with the session record [r]. *)
Definition session (t : termios) (shell_pid : Z) (r : __rsh)
    (resolves : string -> bool) (keys : list read_result)
    (fs : list fork_result) (ps : list (option (Z * Z)))
    (ws : list (option Z)) : world :=
  {| orig_termios := t;
     rsh_initialized := true;
     rsh := Some r;
     tty := raw_of t;
     tty_pgrp := shell_pid;
     atexit_fns := [fn_disable_raw_mode];
     sigdisp := fun s => if s =? SIGTSTP then handler_ctrlz
                         else if s =? SIGINT then handler_ctrlc
                         else SIG_DFL;
     self_pid := shell_pid;
     env_PATH := None;
     exec_ok := resolves;
     stdin := keys;
     forks := fs;
     pipes := ps;
     waits := ws;
     unwritten := [];
     trace := [] |}.

(** A discipline of a terminal in canonical mode, and a session record
    with the given foreground process and job list. *)
Definition cooked : termios := Build_termios 1280 5 191 35387 0 [3; 28] 15 15.

Definition rsh_with (rp : Z) (history : list string) (jobs : list __job_node)
  : __rsh :=
  {| capacity := 16;
     running_process := rp;
     path := "/bin:/usr/bin";
     hist_buffer := {| hist_command := None |}
                    :: map (fun s => {| hist_command := Some s |}) history;
     job_buffer := jobs |}.

(** * Observations, specifications and examples *)

(** ** What is observed of a world *)

Definition job_pids (jobs : list __job_node) : list Z := map pid jobs.

(** The records of the table for one pid. *)
Definition records_of (p : Z) (jobs : list __job_node) : list __job_node :=
  filter (fun j => pid j =? p) jobs.

(** The job list of a world, empty before the session exists. *)
Definition job_table (w : world) : list __job_node :=
  match rsh w with
  | Some r => job_buffer r
  | None => []
  end.

(** [running_process], where 0 stands for "no foreground process". *)
Definition foreground_pid (w : world) : option Z :=
  option_map running_process (rsh w).

(** The commands of the nodes [__display_history] walks over. *)
Definition displayed (w : world) : list (option string) :=
  match rsh w with
  | Some r => map hist_command (tl (hist_buffer r))
  | None => []
  end.

Definition is_kill (e : event) : bool :=
  match e with Kill _ _ => true | _ => false end.

Definition is_stderr (e : event) : bool :=
  match e with Stderr _ => true | _ => false end.

(** ** The tokenisation as the specification words it

    [fields] splits at every separator, so that k separators give k + 1
    fields, some of them possibly empty.  A stage string is a field between
    pipe characters that is not empty (an empty line has no stage), and an
    argument is a field between blanks that is not empty. *)

Module Spec.

Definition is_pipe (c : ascii) : bool := Ascii.eqb c "|".

Definition is_blank (c : ascii) : bool :=
  Ascii.eqb c " " || Ascii.eqb c TAB || Ascii.eqb c LF.

Fixpoint fields (sep : ascii -> bool) (s : string) : list string :=
  match s with
  | EmptyString => [EmptyString]
  | String c s' =>
      if sep c then EmptyString :: fields sep s'
      else
        match fields sep s' with
        | f :: fs => String c f :: fs
        | [] => [String c EmptyString]
        end
  end.

Definition nonempty (l : list string) : list string :=
  filter (fun f => negb (String.eqb f "")) l.

Fixpoint ltrim (s : string) : string :=
  match s with
  | EmptyString => EmptyString
  | String c s' => if is_blank c then ltrim s' else s
  end.

Fixpoint rtrim (s : string) : string :=
  match s with
  | EmptyString => EmptyString
  | String c s' =>
      match rtrim s' with
      | EmptyString => if is_blank c then EmptyString else String c EmptyString
      | r => String c r
      end
  end.

Definition trim (s : string) : string := rtrim (ltrim s).

Definition split_blank (s : string) : list string :=
  nonempty (fields is_blank s).

Definition tokenize (line : string) : list (list string) :=
  map (fun stage => split_blank (trim stage)) (nonempty (fields is_pipe line)).

(** What the two fixed arrays of [__parse_pipeline] can hold. *)
Definition within_capacity (line : string) : bool :=
  (List.length (tokenize line) <=? 16)%nat
  && forallb (fun args => (List.length args <? 16)%nat) (tokenize line).

End Spec.
Import Spec.

Fixpoint all_blank (s : string) : bool :=
  match s with
  | EmptyString => true
  | String c s' => is_blank c && all_blank s'
  end.

(** The stages of a list of fields between pipe characters. *)
Definition stages_of (fs : list string) : list (list string) :=
  map (fun stage => split_blank (trim stage)) (nonempty fs).

(** ** Lines typed at the terminal *)

(** The bytes [read] returns when [line] is typed and Enter pressed. *)
Definition typed (line : string) : list read_result :=
  (map read_byte (list_ascii_of_string line) ++ [read_byte CR])%list.

(** A line that can be typed: no control character (those are taken by the
    line editor) and at most 1023 bytes. *)
Fixpoint printable (line : string) : bool :=
  match line with
  | EmptyString => true
  | String c line' => negb (iscntrl c) && printable line'
  end.

Definition typeable (line : string) : Prop :=
  printable line = true /\ (String.length line <= 1023)%nat.

(** ** The history after some lines *)

Definition node_of (line : string) : __hist_node :=
  {| hist_command := Some line |}.

(** The state of the history after the lines [done] were submitted. *)
Definition history_is (done : list string) (w : world) : Prop :=
  if rsh_initialized w
  then exists r head, rsh w = Some r /\ hist_buffer r = head :: map node_of done
  else done = [].

(** What [__handle_input] may do to a session leaves history and input. *)
Definition history_kept (done : list string) (keys : list read_result)
    (w : world) : Prop :=
  rsh_initialized w = true /\ history_is done w /\ stdin w = keys.

(** ** The discipline to restore *)



(** A halt other than through [exit] and [_exit]. *)
Definition not_an_exit (h : halt) (w : world) : Prop :=
  match h with
  | Exit _ | Exit_now _ => False
  | _ => True
  end.

(** ** Weakest preconditions

    [wp m Q E w]: run from [w], the computation [m] either returns a value
    and a world that satisfy [Q], or halts in a way and a world that
    satisfy [E]. *)

Definition wp {A} (m : M A) (Q : A -> world -> Prop) (E : halt -> world -> Prop)
    (w : world) : Prop :=
  match m w with
  | Returned a w' => Q a w'
  | Halted h w' => E h w'
  end.

(** No halt is accepted: the computation returns. *)
Definition returns : halt -> world -> Prop := fun _ _ => False.

(** [inv I E m]: from a world that satisfies [I], the computation [m]
    returns to a world that satisfies [I], or halts as [E] accepts. *)
Definition inv (I : world -> Prop) (E : halt -> world -> Prop) {A} (m : M A)
  : Prop :=
  forall w, I w -> wp m (fun _ w' => I w') E w.

(** ** Example sessions *)

(** [vim], process 1234, is in the foreground and is reported as stopped. *)
Definition stopped_vim : world :=
  session cooked 500 (rsh_with 1234 ["vim"] []) (fun _ => true) [] [] []
    [Some (W_STOPCODE SIGTSTP)].

(** The same, with a record of an earlier job 1234 still in the job list. *)
Definition stopped_vim_again : world :=
  session cooked 500
    (rsh_with 1234 ["vim"; "fg 1234"; "vim"]
       [ {| pid := 1234; command := "vim"; status := 1 |} ])
    (fun _ => true) [] [] [] [Some (W_STOPCODE SIGTSTP)].

(** The parent of the three stages of [ls | grep foo | wc -l]: the first
    stage exits with 1, the wait for the second fails, the last exits
    with 7. *)
Definition three_stages : world :=
  session cooked 500 (rsh_with 0 ["ls | grep foo | wc -l"] []) (fun _ => true) []
    [in_parent 101; in_parent 102; in_parent 103] [Some (3, 4); Some (5, 6)]
    [Some (W_EXITCODE 1 0); None; Some (W_EXITCODE 7 0)].

(** The child of the first stage of [nosuch | cat], where [nosuch] cannot
    be started. *)
Definition in_stage_child : world :=
  session cooked 500 (rsh_with 0 ["nosuch | cat"] []) (fun f => String.eqb f "cat")
    [] [in_child 101; in_parent 102] [Some (3, 4)]
    [Some (W_EXITCODE 0 0); Some (W_EXITCODE 0 0)].

(** A session with one stopped job, [vim] with pid 1234. *)
Definition one_stopped_job (ws : list (option Z)) : world :=
  session cooked 500
    (rsh_with 0 ["vim"] [ {| pid := 1234; command := "vim"; status := 1 |} ])
    (fun _ => true) [] [] [] ws.


Definition three_lines : list string := [""; "jobs"; "history"].

(** A session in which the pid of a reaped process is given to the next
    child: the job list has the record of [vim], process 1234; the process
    that [fg] waits for exits, and the next child is process 1234 again and
    is stopped. *)
Definition pid_reused (keys : list read_result) : world :=
  session cooked 500
    (rsh_with 0 ["vim"] [ {| pid := 1234; command := "vim"; status := 1 |} ])
    (fun _ => true) keys [in_parent 1234] []
    [Some (W_EXITCODE 0 0); Some (W_STOPCODE SIGTSTP)].

(** ** Further observations and example sessions *)

(** [vim], process 1234, is in the foreground and is reported as ended
    with status 0. *)
Definition exited_vim : world :=
  session cooked 500 (rsh_with 1234 ["vim"] []) (fun _ => true) [] [] []
    [Some (W_EXITCODE 0 0)].

(** The names [__handle_input] compares [argv[0]] with. *)
Definition builtin (argv0 : string) : bool :=
  existsb (String.eqb argv0)
    ["exit"; "clear"; "jobs"; "fg"; "bg"; "history"; "History"].

(** A session at the prompt with no job, in which the only program that can
    be started is [ls]. *)
Definition at_prompt (fs : list fork_result) (ws : list (option Z)) : world :=
  session cooked 500 (rsh_with 0 ["ls"] []) (fun f => String.eqb f "ls") [] fs [] ws.

(** The child that [fork] creates for the line [clear], every program
    being startable. *)
Definition clear_child : world :=
  session cooked 500 (rsh_with 0 ["clear"] []) (fun _ => true) []
    [in_child 101] [] [].

(** Whether a string has a byte with the property [p]. *)
Definition has_char (p : ascii -> bool) (s : string) : bool :=
  existsb p (list_ascii_of_string s).

(** A line of sixteen words. *)
Definition sixteen_words : string := "a b c d e f g h i j k l m n o p".

(** A halt through [exit] has status 0 and leaves no session. *)
Definition exits_with_zero (h : halt) (w : world) : Prop :=
  match h with
  | Exit code => code = 0 /\ rsh w = None
  | _ => True
  end.

(** The actions of job control: process groups, the foreground group of
    the terminal, and signals. *)
Definition is_job_control (e : event) : bool :=
  match e with
  | Setpgid _ _ | Tcsetpgrp _ | Kill _ _ => true
  | _ => false
  end.

(** From [w0] to [w] the session, the foreground group of the terminal and
    the signal dispositions were left alone, and no action of job control
    was performed. *)
Definition no_job_control (w0 w : world) : Prop :=
  rsh w = rsh w0
  /\ tty_pgrp w = tty_pgrp w0
  /\ sigdisp w = sigdisp w0
  /\ exists evs, trace w = (trace w0 ++ evs)%list
                 /\ forallb (fun e => negb (is_job_control e)) evs = true.

Definition is_waitpid (e : event) : bool :=
  match e with Waitpid _ _ => true | _ => false end.

(** The parent of the stages of [a | b | c] in which the second [pipe]
    fails. *)
Definition second_pipe_fails : world :=
  session cooked 500 (rsh_with 0 ["a | b | c"] []) (fun _ => true) []
    [in_parent 101; in_parent 102; in_parent 103] [Some (3, 4); None]
    [Some (W_EXITCODE 0 0)].

(** The session exists, and every record of the job list has the state
    Stopped (1). *)
Definition all_stopped (w : world) : Prop :=
  rsh_initialized w = true
  /\ Forall (fun j => status j = 1) (job_table w).

(** Every halt is accepted. *)
Definition any_halt : halt -> world -> Prop := fun _ _ => True.

(** No foreground process is tracked: [running_process] is 0 once the
    session exists. *)
Definition no_foreground (w : world) : Prop :=
  rsh_initialized w = true -> exists r, rsh w = Some r /\ running_process r = 0.

Definition is_close (e : event) : bool :=
  match e with Close _ => true | _ => false end.

(** The two calls of [close] for the ends of a pipe. *)
Definition close_both (fds : Z * Z) : list event :=
  [Close (fst fds); Close (snd fds)].

(** A session with a stopped job at the prompt, before a line [ls] that
    runs as process 101 in the foreground and ends with status 0. *)
Definition before_ls : world :=
  session cooked 500
    (rsh_with 0 ["vim"] [ {| pid := 1234; command := "vim"; status := 1 |} ])
    (fun _ => true) (typed "ls") [in_parent 101] [] [Some (W_EXITCODE 0 0)].

(** What the read loop prints when the input buffer is full. *)
Definition too_long : event :=
  Stdout (CRLF ++ "Input too long! Maximum length is 1023" ++ CRLF).

(** * Properties *)

(** ** Strings *)

Lemma append_assoc (x y z : string) : (x ++ y) ++ z = x ++ (y ++ z).
Proof. induction x as [|c x IH]; cbn; [reflexivity | now rewrite IH]. Qed.

Lemma append_empty_r (x : string) : x ++ "" = x.
Proof. induction x as [|c x IH]; cbn; [reflexivity | now rewrite IH]. Qed.

(** ** Running the monad *)

Arguments __rsh_get : simpl never.

Lemma bind_unfold {A B} (m : M A) (k : A -> M B) (w : world) :
  bind m k w =
  match m w with
  | Returned a w' => k a w'
  | Halted h w' => Halted h w'
  end.
Proof. reflexivity. Qed.

Lemma rsh_get_initialized (w : world) :
  rsh_initialized w = true -> __rsh_get w = Returned tt w.
Proof. intros H. unfold __rsh_get, gets. cbn. rewrite H. reflexivity. Qed.

(** One step of symbolic execution in a world whose session exists. *)
Ltac run_step :=
  cbn;
  first
    [ rewrite rsh_get_initialized by (cbn; assumption)
    | match goal with
      | H : rsh ?w = Some _ |- context [rsh ?w] => rewrite H
      | H : waits ?w = _ |- context [waits ?w] => rewrite H
      | H : forks ?w = _ |- context [forks ?w] => rewrite H
      | H : pipes ?w = _ |- context [pipes ?w] => rewrite H
      end ].

Ltac run := repeat run_step; cbn.

(** ** The job list *)

Lemma unlink_job_absent (p : Z) (jobs : list __job_node) :
  ~ In p (job_pids jobs) -> unlink_job p jobs = jobs.
Proof.
  induction jobs as [|j jobs IH]; simpl; intros Hn; [reflexivity|].
  destruct (Z.eqb_spec (pid j) p) as [E|E].
  - exfalso. apply Hn. now left.
  - f_equal. apply IH. intros Hin. apply Hn. now right.
Qed.

Lemma unlink_job_first (p : Z) (before after : list __job_node) (j : __job_node) :
  ~ In p (job_pids before) -> pid j = p ->
  unlink_job p (before ++ j :: after) = (before ++ after)%list.
Proof.
  intros Hn Hj. induction before as [|b before IH]; simpl.
  - rewrite Hj, Z.eqb_refl. reflexivity.
  - destruct (Z.eqb_spec (pid b) p) as [E|E].
    + exfalso. apply Hn. now left.
    + f_equal. apply IH. intros Hin. apply Hn. now right.
Qed.

(** A list that has a record for [p] splits at the first one. *)
Lemma first_record_split (p : Z) (jobs : list __job_node) :
  In p (job_pids jobs) ->
  exists before j after,
    jobs = (before ++ j :: after)%list /\ pid j = p /\ ~ In p (job_pids before).
Proof.
  induction jobs as [|k jobs IH]; simpl; intros Hin; [contradiction|].
  destruct (Z.eq_dec (pid k) p) as [E|E].
  - exists [], k, jobs. repeat split; auto.
  - destruct Hin as [Hk|Hin]; [contradiction|].
    destruct (IH Hin) as (before & j & after & -> & Hj & Hb).
    exists (k :: before), j, after. repeat split; auto.
    simpl. intros [H|H]; [contradiction | auto].
Qed.

Lemma remove_job_run (p : Z) (w : world) (r : __rsh) :
  rsh_initialized w = true -> rsh w = Some r ->
  __remove_job p w =
  Returned tt (set_rsh (Some (set_job_buffer (unlink_job p (job_buffer r)) r)) w).
Proof. intros Hi Hr. unfold __remove_job, rsh_write. run. reflexivity. Qed.

Lemma append_job_run (p : Z) (cmd : string) (st : Z) (w : world) (r : __rsh) :
  rsh_initialized w = true -> rsh w = Some r ->
  __append_job p cmd st w =
  Returned tt
    (set_rsh (Some (set_job_buffer
                      ({| pid := p; command := cmd; status := st |} :: job_buffer r) r)) w).
Proof. intros Hi Hr. unfold __append_job, rsh_write. run. reflexivity. Qed.

(** C10.  [__remove_job(pid)] leaves the job list as it is when no record
    has this pid; otherwise it takes out the first record with this pid and
    keeps every other record, in order.  Nothing else in the world changes. *)
Theorem remove_job_removes_first_match (p : Z) (w : world) (r : __rsh) :
  rsh_initialized w = true ->
  rsh w = Some r ->
  exists jobs',
    __remove_job p w = Returned tt (set_rsh (Some (set_job_buffer jobs' r)) w)
    /\ (~ In p (job_pids (job_buffer r)) -> jobs' = job_buffer r)
    /\ (In p (job_pids (job_buffer r)) ->
        exists before j after,
          job_buffer r = (before ++ j :: after)%list
          /\ pid j = p
          /\ ~ In p (job_pids before)
          /\ jobs' = (before ++ after)%list).
Proof.
  intros Hi Hr. exists (unlink_job p (job_buffer r)).
  split; [apply remove_job_run; assumption|]. split.
  - apply unlink_job_absent.
  - intros Hin. destruct (first_record_split p _ Hin) as (before & j & after & E & Hj & Hb).
    exists before, j, after. repeat split; auto.
    rewrite E. apply unlink_job_first; assumption.
Qed.

Lemma remove_job_removes_first_match_witness :
  exists jobs',
    __remove_job 1234 (one_stopped_job []) =
    Returned tt
      (set_rsh
         (Some (set_job_buffer jobs'
                  (rsh_with 0 ["vim"]
                     [ {| pid := 1234; command := "vim"; status := 1 |} ])))
         (one_stopped_job []))
    /\ (~ In 1234 [1234] ->
        jobs' = [ {| pid := 1234; command := "vim"; status := 1 |} ])
    /\ (In 1234 [1234] ->
        exists before j after,
          [ {| pid := 1234; command := "vim"; status := 1 |} ]
          = (before ++ j :: after)%list
          /\ pid j = 1234
          /\ ~ In 1234 (job_pids before)
          /\ jobs' = (before ++ after)%list).
Proof.
  exact (remove_job_removes_first_match 1234 (one_stopped_job []) _ eq_refl eq_refl).
Defined.

(** ** The stop handler *)

(** The records of a pid after a record was put in front of the list. *)
Lemma records_of_cons (p : Z) (j : __job_node) (jobs : list __job_node) :
  pid j = p -> records_of p (j :: jobs) = j :: records_of p jobs.
Proof. intros Hj. unfold records_of. cbn [filter]. rewrite Hj, Z.eqb_refl. reflexivity. Qed.

Lemma records_of_nil_iff (p : Z) (jobs : list __job_node) :
  records_of p jobs = [] <-> ~ In p (job_pids jobs).
Proof.
  unfold records_of, job_pids. induction jobs as [|j jobs IH]; cbn [filter map In].
  - split; [intros _ [] | reflexivity].
  - destruct (Z.eqb_spec (pid j) p) as [E|E]; split.
    + discriminate.
    + intros H. exfalso. apply H. now left.
    + intros H [Hj|Hin]; [contradiction | apply IH in H; contradiction].
    + intros H. apply IH. intros Hin. apply H. now right.
Qed.

(** C7.  [__handle_ctrlz] with a foreground process [rp] that [waitpid]
    reports as stopped sets [running_process] to 0 and puts a record for
    [rp] with state Stopped (1) at the head of the job list, without looking
    for a record that [rp] already has: the records of [rp] are the new one
    followed by those the list had.  So the list has exactly one record for
    [rp] afterwards only when it had none before; a record that [fg] left
    for an earlier process with this pid makes it two. *)
Theorem handle_ctrlz_stopped_adds_a_record (sig : Z) (w : world) (r : __rsh)
    (rp st : Z) (ws : list (option Z)) :
  rsh_initialized w = true ->
  rsh w = Some r ->
  running_process r = rp ->
  rp <> 0 ->
  waits w = Some st :: ws ->
  WIFSTOPPED st = true ->
  exists w',
    __handle_ctrlz sig w = Returned tt w'
    /\ job_table w' =
       {| pid := rp; command := "command"; status := 1 |} :: job_buffer r
    /\ records_of rp (job_table w') =
       {| pid := rp; command := "command"; status := 1 |}
       :: records_of rp (job_buffer r)
    /\ (List.length (records_of rp (job_table w')) = 1%nat
        <-> ~ In rp (job_pids (job_buffer r)))
    /\ foreground_pid w' = Some 0
    /\ trace w' = (trace w ++ [Kill rp SIGTSTP; Waitpid rp WUNTRACED])%list.
Proof.
  intros Hi Hr Hrp Hnz Hw Hst. subst rp.
  unfold __handle_ctrlz, rsh_read. run.
  destruct (Z.eqb_spec (running_process r) 0) as [E|_]; [contradiction|].
  run. rewrite Hst. unfold __append_job, rsh_write. run.
  eexists. split; [reflexivity|]. unfold job_table, foreground_pid.
  cbn [rsh set_rsh set_trace set_waits job_buffer set_job_buffer running_process
       set_running_process trace option_map].
  rewrite records_of_cons by reflexivity.
  repeat split.
  - cbn [List.length]. intros Hlen. apply records_of_nil_iff.
    destruct (records_of (running_process r) (job_buffer r)); [reflexivity|].
    discriminate Hlen.
  - intros Hfresh. apply records_of_nil_iff in Hfresh. rewrite Hfresh. reflexivity.
  - rewrite <- app_assoc. reflexivity.
Qed.

(** The process 1234 is stopped in the foreground while the job list still
    has the record of the earlier process 1234 that [fg] resumed. *)
Lemma handle_ctrlz_stopped_adds_a_record_witness :
  exists w',
    __handle_ctrlz SIGTSTP stopped_vim_again = Returned tt w'
    /\ job_table w' =
       [ {| pid := 1234; command := "command"; status := 1 |};
         {| pid := 1234; command := "vim"; status := 1 |} ]
    /\ records_of 1234 (job_table w') =
       [ {| pid := 1234; command := "command"; status := 1 |};
         {| pid := 1234; command := "vim"; status := 1 |} ]
    /\ (List.length (records_of 1234 (job_table w')) = 1%nat
        <-> ~ In 1234 [1234])
    /\ foreground_pid w' = Some 0
    /\ trace w' = [Kill 1234 SIGTSTP; Waitpid 1234 WUNTRACED].
Proof.
  refine (handle_ctrlz_stopped_adds_a_record SIGTSTP stopped_vim_again _ 1234
            (W_STOPCODE SIGTSTP) [] eq_refl eq_refl eq_refl _ eq_refl eq_refl).
  discriminate.
Defined.

(** ** Rules for weakest preconditions *)

Section WpRules.
Context {A B : Type}.
Variables (Q : A -> world -> Prop) (E : halt -> world -> Prop) (w : world).

Lemma wp_ret (a : A) : Q a w -> wp (ret a) Q E w.
Proof. exact (fun H => H). Qed.

Lemma wp_bind (m : M B) (k : B -> M A) :
  wp m (fun b => wp (k b) Q E) E w -> wp (bind m k) Q E w.
Proof. unfold wp. cbn. destruct (m w); auto. Qed.

Lemma wp_gets (f : world -> A) : Q (f w) w -> wp (gets f) Q E w.
Proof. exact (fun H => H). Qed.

Lemma wp_stop (h : halt) : E h w -> wp (stop h) Q E w.
Proof. exact (fun H => H). Qed.

Lemma wp_conseq (m : M A) (Q' : A -> world -> Prop) (E' : halt -> world -> Prop) :
  wp m Q' E' w ->
  (forall a w', Q' a w' -> Q a w') ->
  (forall h w', E' h w' -> E h w') ->
  wp m Q E w.
Proof. unfold wp. destruct (m w); auto. Qed.

Lemma wp_returned (m : M A) :
  wp m Q returns w -> exists a w', m w = Returned a w' /\ Q a w'.
Proof. unfold wp, returns. destruct (m w); [eauto | contradiction]. Qed.
End WpRules.

Section WpUnit.
Variables (Q : unit -> world -> Prop) (E : halt -> world -> Prop) (w : world).

Lemma wp_modify (f : world -> world) : Q tt (f w) -> wp (modify f) Q E w.
Proof. exact (fun H => H). Qed.

Lemma wp_emit (e : event) :
  Q tt (set_trace (trace w ++ [e]) w) -> wp (emit e) Q E w.
Proof. exact (fun H => H). Qed.

Lemma wp_signal (sig : Z) (h : sighandler) :
  Q tt (set_sigdisp (fun s => if s =? sig then h else sigdisp w s) w) ->
  wp (signal sig h) Q E w.
Proof. exact (fun H => H). Qed.

Lemma wp_rsh_write (f : __rsh -> __rsh) (r : __rsh) :
  rsh w = Some r -> Q tt (set_rsh (Some (f r)) w) -> wp (rsh_write f) Q E w.
Proof. unfold wp, rsh_write. intros ->. auto. Qed.

Lemma wp_rsh_get_initialized :
  rsh_initialized w = true -> Q tt w -> wp __rsh_get Q E w.
Proof. intros Hi. unfold wp. rewrite rsh_get_initialized by assumption. auto. Qed.
End WpUnit.

Lemma wp_rsh_read {A} (Q : A -> world -> Prop) E (w : world) (f : __rsh -> A) (r : __rsh) :
  rsh w = Some r -> Q (f r) w -> wp (rsh_read f) Q E w.
Proof. unfold wp, rsh_read. intros ->. auto. Qed.

Lemma wp_unwritten_byte (Q : ascii -> world -> Prop) E (w : world) :
  match unwritten w with
  | b :: rest => Q b (set_unwritten rest w)
  | [] => E Undefined w
  end ->
  wp unwritten_byte Q E w.
Proof. unfold wp, unwritten_byte. destruct (unwritten w); auto. Qed.

Lemma wp_fork (Q : Z -> world -> Prop) E (w : world) :
  match forks w with
  | [] => Q (-1) (set_trace (trace w ++ [Fork (-1)]) w)
  | in_child me :: rest =>
      Q 0 (set_self_pid (Z.pos me)
             (set_forks rest (set_trace (trace w ++ [Fork 0]) w)))
  | in_parent child :: rest =>
      Q (Z.pos child)
        (set_forks rest (set_trace (trace w ++ [Fork (Z.pos child)]) w))
  | fork_failed :: rest =>
      Q (-1) (set_forks rest (set_trace (trace w ++ [Fork (-1)]) w))
  end ->
  wp fork Q E w.
Proof. unfold wp, fork. destruct (forks w) as [|[me|child|] rest]; auto. Qed.

Lemma wp_pipe (Q : option (Z * Z) -> world -> Prop) E (w : world) :
  match pipes w with
  | [] => Q None (set_trace (trace w ++ [Pipe None]) w)
  | r :: rest => Q r (set_pipes rest (set_trace (trace w ++ [Pipe r]) w))
  end ->
  wp pipe Q E w.
Proof. unfold wp, pipe. destruct (pipes w); auto. Qed.

Lemma wp_waitpid (Q : option Z -> world -> Prop) E (w : world) (p : Z)
    (status : option Z) (options : Z) :
  match waits w with
  | [] => E Blocked (set_trace (trace w ++ [Waitpid p options]) w)
  | Some s :: rest =>
      Q (Some s) (set_waits rest (set_trace (trace w ++ [Waitpid p options]) w))
  | None :: rest =>
      Q status (set_waits rest (set_trace (trace w ++ [Waitpid p options]) w))
  end ->
  wp (waitpid p status options) Q E w.
Proof.
  unfold wp, waitpid, emit, modify. cbn.
  destruct (waits w) as [|[s|] rest]; auto.
Qed.

Lemma wp_execvp (Q : unit -> world -> Prop) E (w : world) (file : option string)
    (argv : list string) :
  (let w' := set_trace (trace w ++ [Execvp file argv]) w in
   match file with
   | None => E Undefined w'
   | Some f => if exec_ok w f then E (Image_replaced f argv) w' else Q tt w'
   end) ->
  wp (execvp file argv) Q E w.
Proof.
  unfold wp, execvp, emit, modify, gets, stop. cbn.
  destruct file as [f|]; [|exact (fun H => H)].
  cbn [exec_ok set_trace]. destruct (exec_ok w f); exact (fun H => H).
Qed.

(** Projections of a world that went through setters. *)
Ltac wsimpl :=
  cbn [orig_termios rsh_initialized rsh tty tty_pgrp atexit_fns sigdisp
       self_pid env_PATH exec_ok stdin forks pipes waits unwritten trace
       set_orig_termios set_rsh_initialized set_rsh set_tty set_tty_pgrp
       set_atexit_fns set_sigdisp set_self_pid set_stdin set_forks set_pipes
       set_waits set_unwritten set_trace
       capacity running_process path hist_buffer job_buffer
       set_running_process set_hist_buffer set_job_buffer].

(** One step of symbolic execution. *)
Ltac wp_step :=
  lazymatch goal with
  | |- wp (bind _ _) _ _ _ => apply wp_bind
  | |- wp (ret _) _ _ _ => apply wp_ret
  | |- wp (gets _) _ _ _ => apply wp_gets
  | |- wp (modify _) _ _ _ => apply wp_modify
  | |- wp (stop _) _ _ _ => apply wp_stop
  | |- wp (emit _) _ _ _ => apply wp_emit
  | |- wp (printf _) _ _ _ => apply wp_emit
  | |- wp (fprintf_stderr _) _ _ _ => apply wp_emit
  | |- wp (perror _) _ _ _ => apply wp_emit
  | |- wp (kill _ _) _ _ _ => apply wp_emit
  | |- wp (setpgid _ _) _ _ _ => apply wp_emit
  | |- wp (dup2 _ _) _ _ _ => apply wp_emit
  | |- wp (close _) _ _ _ => apply wp_emit
  | |- wp getpid _ _ _ => apply wp_gets
  | |- wp getenv_PATH _ _ _ => apply wp_gets
  | |- wp tcgetattr _ _ _ => apply wp_gets
  | |- wp (signal _ _) _ _ _ => apply wp_signal
  | |- wp (tcsetpgrp _) _ _ _ => unfold tcsetpgrp
  | |- wp (tcsetattr _) _ _ _ => unfold tcsetattr
  | |- wp (atexit _) _ _ _ => apply wp_modify
  | |- wp (give_terminal _) _ _ _ => unfold give_terminal
  | |- wp (_exit _) _ _ _ => apply wp_stop
  | |- wp fork _ _ _ => apply wp_fork
  | |- wp unwritten_byte _ _ _ => apply wp_unwritten_byte
  | |- wp pipe _ _ _ => apply wp_pipe
  | |- wp (waitpid _ _ _) _ _ _ => apply wp_waitpid
  | |- wp (execvp _ _) _ _ _ => apply wp_execvp
  end; wsimpl.

Ltac wp_steps := repeat wp_step.

(** ** Pipelines *)

Lemma WEXITSTATUS_W_EXITCODE (code : Z) :
  0 <= code < 256 -> WEXITSTATUS (W_EXITCODE code 0) = code.
Proof.
  intros H. unfold WEXITSTATUS, W_EXITCODE.
  rewrite Z.lor_0_r.
  change 65280 with (Z.shiftl 255 8).
  rewrite <- Z.shiftl_land, Z.shiftr_shiftl_l by lia.
  rewrite Z.sub_diag, Z.shiftl_0_r.
  change 255 with (Z.ones 8). rewrite Z.land_ones by lia.
  apply Z.mod_small. lia.
Qed.

(** The first loop in the parent when every [pipe] and every [fork]
    succeeds: the pids of the children are collected in order, [waitpid] is
    not called and no answer of it is used. *)
Lemma pipeline_spawn_parent (commands : list (list string)) :
  forall (i num_commands : Z) (prev_pipe next_pipe : Z * Z) (pids : list Z)
         (w : world) (children : list positive) (fds : list (Z * Z))
         (fr : list fork_result) (pr : list (option (Z * Z))),
    i + Z.of_nat (List.length commands) = num_commands ->
    List.length children = List.length commands ->
    List.length fds = Nat.pred (List.length commands) ->
    forks w = (map in_parent children ++ fr)%list ->
    pipes w = (map Some fds ++ pr)%list ->
    wp (pipeline_spawn commands i num_commands prev_pipe next_pipe pids)
       (fun res w' =>
          res = inr (pids ++ map Z.pos children)%list
          /\ waits w' = waits w /\ forks w' = fr /\ pipes w' = pr
          /\ filter is_waitpid (trace w') = filter is_waitpid (trace w))
       returns w.
Proof.
  induction commands as [|command_i rest IH];
    intros i num prev next pids w children fds fr pr Hnum Hch Hfds Hf Hp.
  - destruct children; [|discriminate]. destruct fds; [|discriminate].
    cbn in Hf, Hp. cbn [pipeline_spawn map]. wp_step. rewrite app_nil_r. auto.
  - destruct children as [|child children]; [discriminate|].
    cbn [List.length] in Hnum, Hch, Hfds. cbn [map app] in Hf.
    assert (Hpos : (Z.pos child =? 0) = false) by (apply Z.eqb_neq; lia).
    assert (Hneg : (Z.pos child <? 0) = false) by (apply Z.ltb_ge; lia).
    cbn [pipeline_spawn]. wp_step.
    destruct (Z.ltb_spec i (num - 1)) as [Hlt|Hge].
    + destruct fds as [|fd fds]; [cbn in Hfds; lia|].
      cbn [map app] in Hp. wp_steps. rewrite Hp. wp_steps. rewrite Hf.
      rewrite Hpos, Hneg. wp_steps.
      assert (Hrec : forall w1, forks w1 = (map in_parent children ++ fr)%list ->
                pipes w1 = (map Some fds ++ pr)%list -> waits w1 = waits w ->
                filter is_waitpid (trace w1) = filter is_waitpid (trace w) ->
                wp (pipeline_spawn rest (i + 1) num fd fd (pids ++ [Z.pos child]))
                  (fun res w' => res = inr (pids ++ Z.pos child :: map Z.pos children)%list
                     /\ waits w' = waits w /\ forks w' = fr /\ pipes w' = pr
                     /\ filter is_waitpid (trace w') = filter is_waitpid (trace w))
                  returns w1).
      { intros w1 Hf1 Hp1 Hw1 Ht1.
        eapply wp_conseq; [eapply (IH (i + 1) num fd fd _ w1 children fds fr pr); auto; try lia | |].
        - cbn in Hfds. lia.
        - intros a w' (-> & ? & ? & ? & ?). rewrite <- app_assoc. cbn.
          repeat split; congruence.
        - auto. }
      destruct (0 <? i); wp_steps; apply Hrec; try reflexivity;
        wsimpl; rewrite !filter_app; cbn; rewrite ?app_nil_r; reflexivity.
    + assert (Hrest : rest = []) by (destruct rest; [reflexivity | cbn in Hnum; lia]).
      subst rest. destruct children; [|discriminate]. destruct fds; [|discriminate].
      cbn [map app] in Hp, Hf. wp_steps. rewrite Hf. rewrite Hpos, Hneg. wp_steps.
      destruct (0 <? i); wp_steps; cbn [pipeline_spawn]; wp_step;
        repeat split; auto;
        wsimpl; rewrite ?filter_app; cbn; rewrite ?app_nil_r; reflexivity.
Qed.

Lemma filter_waitpid_calls (pids : list Z) :
  filter is_waitpid (map (fun p => Waitpid p 0) pids)
  = map (fun p => Waitpid p 0) pids.
Proof. induction pids as [|p pids IH]; cbn; [reflexivity | now rewrite IH]. Qed.

(** The second loop when the last [waitpid] succeeds: [waitpid] is called
    once for every pid, in the order of the list, and whatever the earlier
    calls stored or failed to store, [status] ends as the answer to the last
    call. *)
Lemma pipeline_wait_last (pids : list Z) :
  forall (last_pid status st : Z) (w : world) (ws wr : list (option Z)),
    List.length ws = List.length pids ->
    waits w = (ws ++ Some st :: wr)%list ->
    wp (pipeline_wait (pids ++ [last_pid]) status)
       (fun res w' =>
          res = st /\ waits w' = wr /\ forks w' = forks w /\ pipes w' = pipes w
          /\ trace w' =
             (trace w ++ map (fun p => Waitpid p 0) (pids ++ [last_pid]))%list)
       returns w.
Proof.
  induction pids as [|p pids IH]; intros last_pid status st w ws wr Hlen Hw.
  - destruct ws; [|discriminate]. cbn [app] in Hw |- *. cbn [pipeline_wait].
    wp_steps. rewrite Hw. wp_steps. auto.
  - destruct ws as [|a ws]; [discriminate|]. cbn [app] in Hw |- *.
    cbn [pipeline_wait]. wp_steps. rewrite Hw.
    destruct a as [s|]; wp_steps;
      (eapply wp_conseq;
       [eapply (IH _ _ _ _ ws wr); [cbn in Hlen; lia | reflexivity]
       | cbn beta; wsimpl; intros ? ? (? & ? & ? & ? & ->);
         rewrite <- app_assoc; auto
       | auto]).
Qed.

(** C2.  In the parent, when the [pipe] and [fork] calls of all N >= 2
    stages succeed and every child is waited for, [__handle_pipeline]
    returns the exit status of the last stage's process, whatever the
    earlier [waitpid] calls reported.  [stages] pairs the process of every
    earlier stage with what [waitpid] answers for it ([None]: the call
    fails); [last_child] is the process of the last stage, which exits with
    [code].  [waitpid] is called once for every process, in the order of the
    stages, so that the last answer is the one for [last_child]. *)
Theorem handle_pipeline_status_of_last_stage
    (commands : list (list string)) (stages : list (positive * option Z))
    (last_child : positive) (fds : list (Z * Z)) (code : Z) (w : world)
    (fr : list fork_result) (pr : list (option (Z * Z))) (wr : list (option Z)) :
  (2 <= List.length commands)%nat ->
  S (List.length stages) = List.length commands ->
  List.length fds = Nat.pred (List.length commands) ->
  forks w = (map in_parent (map fst stages ++ [last_child]) ++ fr)%list ->
  pipes w = (map Some fds ++ pr)%list ->
  waits w = (map snd stages ++ Some (W_EXITCODE code 0) :: wr)%list ->
  0 <= code < 256 ->
  exists w',
    __handle_pipeline commands (Z.of_nat (List.length commands)) w
    = Returned code w'
    /\ forks w' = fr /\ pipes w' = pr /\ waits w' = wr
    /\ filter is_waitpid (trace w') =
       (filter is_waitpid (trace w)
        ++ map (fun child => Waitpid (Z.pos child) 0)
             (map fst stages ++ [last_child]))%list.
Proof.
  intros Hn Hst Hfds Hf Hp Hw Hcode.
  assert (Hlen : List.length (map snd stages)
                 = List.length (map Z.pos (map fst stages)))
    by (rewrite !length_map; reflexivity).
  cut (wp (__handle_pipeline commands (Z.of_nat (List.length commands)))
          (fun res w' =>
             res = code /\ forks w' = fr /\ pipes w' = pr /\ waits w' = wr
             /\ filter is_waitpid (trace w') =
                (filter is_waitpid (trace w)
                 ++ map (fun child => Waitpid (Z.pos child) 0)
                      (map fst stages ++ [last_child]))%list)
          returns w).
  { intros H. apply wp_returned in H. destruct H as (a & w' & Hrun & -> & H).
    exists w'. split; assumption. }
  unfold __handle_pipeline. wp_step.
  eapply wp_conseq;
    [eapply (pipeline_spawn_parent commands 0 _ (0, 0) (0, 0) [] w
               (map fst stages ++ [last_child]) fds fr pr);
     eauto; rewrite length_app, length_map; cbn [List.length]; lia | | auto].
  cbn beta. intros res w1 (-> & Hw1 & Hf1 & Hp1 & Ht1).
  wp_step. cbn [app]. rewrite map_app. cbn [map].
  eapply wp_conseq;
    [eapply (pipeline_wait_last _ _ 0 (W_EXITCODE code 0) w1 (map snd stages) wr Hlen);
     congruence | | auto].
  cbn beta. intros res w2 (-> & Hw2 & Hf2 & Hp2 & Ht2). wp_step.
  rewrite WEXITSTATUS_W_EXITCODE by assumption.
  repeat split; try congruence.
  rewrite Ht2, filter_app, Ht1, filter_waitpid_calls. f_equal.
  rewrite !map_app, map_map. reflexivity.
Qed.

Lemma handle_pipeline_status_of_last_stage_witness :
  exists w',
    __handle_pipeline [["ls"]; ["grep"; "foo"]; ["wc"; "-l"]] 3 three_stages
    = Returned 7 w'
    /\ forks w' = [] /\ pipes w' = [] /\ waits w' = []
    /\ filter is_waitpid (trace w') = [Waitpid 101 0; Waitpid 102 0; Waitpid 103 0].
Proof.
  apply (handle_pipeline_status_of_last_stage
           [["ls"]; ["grep"; "foo"]; ["wc"; "-l"]]
           [(101%positive, Some (W_EXITCODE 1 0)); (102%positive, None)]
           103%positive [(3, 4); (5, 6)] 7 three_stages [] [] []);
    cbn; try lia; reflexivity.
Defined.

(** ** The child of a stage whose program cannot be started *)

(** The single-command path: the child in which [execvp] fails ends with
    [_exit(127)]; nothing of the shell runs after the failed call. *)
Lemma single_command_child_exits_127 (w : world) (r : __rsh)
    (argv0 raw_input : string) (args : list string) (argc : Z)
    (commands : list (list string)) (me : positive) (fr : list fork_result) :
  rsh_initialized w = true ->
  rsh w = Some r ->
  Z.of_nat (String.length (path r)) < PATH_LENGTH ->
  argc <> 0 ->
  existsb (String.eqb argv0) ["exit"; "clear"; "jobs"; "fg"; "bg"; "history"; "History"]
  = false ->
  __parse_pipeline raw_input = Some commands ->
  (List.length commands <= 1)%nat ->
  forks w = in_child me :: fr ->
  exec_ok w argv0 = false ->
  exists w',
    __handle_input argc (argv0 :: args) raw_input w = Halted (Exit_now 127) w'
    /\ trace w' =
       (trace w ++ [Fork 0; Setpgid 0 0; Execvp (Some argv0) (argv0 :: args);
                    Perror "execvp failed"])%list.
Proof.
  intros Hi Hr Hpath Hargc Hbuiltin Hparse Hlen Hf Hexec.
  cbn [existsb] in Hbuiltin. repeat (apply orb_false_elim in Hbuiltin;
    destruct Hbuiltin as [? Hbuiltin]).
  cut (wp (__handle_input argc (argv0 :: args) raw_input)
          (fun _ _ => False)
          (fun h w' => h = Exit_now 127 /\ trace w' =
             (trace w ++ [Fork 0; Setpgid 0 0; Execvp (Some argv0) (argv0 :: args);
                          Perror "execvp failed"])%list) w).
  { unfold wp. destruct (__handle_input _ _ _ w) as [a w'|h w'];
      [contradiction | intros [-> H']; eauto]. }
  unfold __handle_input. wp_step. apply wp_rsh_get_initialized; [assumption|].
  destruct (Z.eqb_spec argc 0); [contradiction|].
  unfold launch.
  repeat match goal with H : String.eqb _ _ = false |- _ => rewrite H; clear H end.
  rewrite Hparse.
  assert (Hone : (1 <? Z.of_nat (List.length commands)) = false)
    by (apply Z.ltb_ge; lia).
  rewrite Hone. cbn [orb]. wp_step. eapply wp_rsh_read; [eassumption|].
  destruct (Z.leb_spec PATH_LENGTH (Z.of_nat (String.length (path r)))); [lia|].
  wp_steps. rewrite Hf. cbn [Z.eqb]. wp_steps. rewrite Hexec. wp_steps.
  split; [reflexivity|]. rewrite <- !app_assoc. reflexivity.
Qed.

(** Symbolic execution through every branch and every answer. *)
Ltac wp_cases :=
  repeat first
    [ wp_step
    | lazymatch goal with
      | |- wp (if ?b then _ else _) _ _ _ => destruct b
      | |- wp (match ?x with _ => _ end) _ _ _ => destruct x
      | |- match forks ?w with _ => _ end => destruct (forks w) as [|[?|?|] ?]
      | |- match pipes ?w with _ => _ end => destruct (pipes w) as [|[?|] ?]
      | |- match waits ?w with _ => _ end => destruct (waits w) as [|[?|] ?]
      | |- let _ := _ in _ => cbv zeta
      | |- match ?f with Some _ => _ | None => _ end => destruct f
      | |- if ?b then _ else _ => destruct b
      | |- not_an_exit _ _ => exact Logic.I
      | |- True => exact Logic.I
      end ].

(** No process leaves [__handle_pipeline] through [_exit] or [exit],
    whatever the system calls answer: the function has no such call. *)
Lemma pipeline_spawn_has_no_exit (commands : list (list string)) :
  forall i num prev next pids w,
    wp (pipeline_spawn commands i num prev next pids) (fun _ _ => True)
       not_an_exit w.
Proof.
  induction commands as [|c commands IH]; intros i num prev next pids w;
    cbn [pipeline_spawn]; wp_cases; apply IH.
Qed.

Lemma pipeline_wait_has_no_exit (pids : list Z) :
  forall status w,
    wp (pipeline_wait pids status) (fun _ _ => True) not_an_exit w.
Proof.
  induction pids as [|p pids IH]; intros status w; cbn [pipeline_wait];
    wp_cases; apply IH.
Qed.

Lemma handle_pipeline_has_no_exit (commands : list (list string)) (num : Z)
    (w : world) :
  wp (__handle_pipeline commands num) (fun _ _ => True) not_an_exit w.
Proof.
  unfold __handle_pipeline. wp_step.
  eapply wp_conseq; [apply pipeline_spawn_has_no_exit | | auto].
  cbn beta. intros [v|pids] w1 _; [wp_step; exact Logic.I|].
  wp_step. eapply wp_conseq; [apply pipeline_wait_has_no_exit | | auto].
  cbn beta. intros st w2 _. wp_step. exact Logic.I.
Qed.

(** C1.  On the pipeline path no process ends with [_exit]: whatever the
    system calls answer, [__handle_pipeline] returns, blocks or has its image
    replaced.  So the child in which [execvp] fails does not end with status
    127; in the first stage of [nosuch | cat] it goes on with the loop, forks
    the next stage itself, waits, and returns into the shell. *)
Theorem pipeline_stage_child_returns_to_shell :
  (forall commands num w code w',
      __handle_pipeline commands num w <> Halted (Exit_now code) w')
  /\ (exists w',
      __handle_input 3 ["nosuch"; "|"; "cat"] "nosuch | cat" in_stage_child
      = Returned 0 w'
      /\ trace w' =
         [Pipe (Some (3, 4)); Fork 0; Close 3; Dup2 4 STDOUT_FILENO; Close 4;
          Execvp (Some "nosuch") ["nosuch"];
          Fork 102; Close 3; Close 4; Waitpid 0 0; Waitpid 102 0]).
Proof.
  split.
  - intros commands num w code w' Hrun.
    pose proof (handle_pipeline_has_no_exit commands num w) as H.
    unfold wp in H. rewrite Hrun in H. exact H.
  - eexists. split; vm_compute; reflexivity.
Qed.

(** ** [fg] and [bg] *)

(** [fg] with an argument never touches the session record: the job list
    is after the command what it was before. *)
Lemma fg_leaves_job_table (w : world) (r : __rsh) (argv1 raw_input : string)
    (rest : list string) (argc : Z) (a : option Z) (ws : list (option Z)) :
  rsh_initialized w = true ->
  rsh w = Some r ->
  2 <= argc ->
  waits w = a :: ws ->
  exists w',
    __handle_input argc ("fg" :: argv1 :: rest) raw_input w = Returned 0 w'
    /\ rsh w' = Some r
    /\ tty_pgrp w' = self_pid w
    /\ trace w' =
       (trace w ++ [Tcsetpgrp (atoi argv1); Kill (- atoi argv1) SIGCONT;
                    Waitpid (atoi argv1) WUNTRACED; Tcsetpgrp (self_pid w)])%list.
Proof.
  intros Hi Hr Hargc Hw.
  cut (wp (__handle_input argc ("fg" :: argv1 :: rest) raw_input)
          (fun res w' => res = 0 /\ rsh w' = Some r /\ tty_pgrp w' = self_pid w
             /\ trace w' =
                (trace w ++ [Tcsetpgrp (atoi argv1); Kill (- atoi argv1) SIGCONT;
                   Waitpid (atoi argv1) WUNTRACED; Tcsetpgrp (self_pid w)])%list)
          returns w).
  { intros H. apply wp_returned in H. destruct H as (res & w' & Hrun & -> & H). eauto. }
  unfold __handle_input. wp_step. apply wp_rsh_get_initialized; [assumption|].
  destruct (Z.eqb_spec argc 0); [lia|].
  destruct (Z.ltb_spec argc 2); [lia|].
  cbn [String.eqb Ascii.eqb Bool.eqb nth_error]. wp_steps. rewrite Hw.
  destruct a; wp_steps; rewrite <- !app_assoc; auto.
Qed.

(** C8.  For a job with a Stopped record in the job list, [fg] with its
    pid hands the terminal to the job's group, continues it, waits for its
    next change of state and takes the terminal back; but it leaves the job
    list as it was: the record is still there afterwards. *)
Theorem fg_keeps_record_of_resumed_job (w : world) (r : __rsh)
    (argv1 raw_input cmd : string) (a : option Z) (ws : list (option Z)) :
  rsh_initialized w = true ->
  rsh w = Some r ->
  In {| pid := atoi argv1; command := cmd; status := 1 |} (job_buffer r) ->
  waits w = a :: ws ->
  exists w',
    __handle_input 2 ["fg"; argv1] raw_input w = Returned 0 w'
    /\ job_table w' = job_buffer r
    /\ In {| pid := atoi argv1; command := cmd; status := 1 |} (job_table w')
    /\ tty_pgrp w' = self_pid w
    /\ trace w' =
       (trace w ++ [Tcsetpgrp (atoi argv1); Kill (- atoi argv1) SIGCONT;
                    Waitpid (atoi argv1) WUNTRACED; Tcsetpgrp (self_pid w)])%list.
Proof.
  intros Hi Hr Hin Hw.
  destruct (fg_leaves_job_table w r argv1 raw_input [] 2 a ws Hi Hr) as
    (w' & Hrun & Hr' & Hpgrp & Htrace); [lia | assumption |].
  exists w'. unfold job_table. rewrite Hr'. auto.
Qed.

Lemma fg_keeps_record_of_resumed_job_witness :
  exists w',
    __handle_input 2 ["fg"; "1234"] "fg 1234" (one_stopped_job [Some (W_EXITCODE 0 0)])
    = Returned 0 w'
    /\ job_table w' = [ {| pid := 1234; command := "vim"; status := 1 |} ]
    /\ In {| pid := 1234; command := "vim"; status := 1 |} (job_table w')
    /\ tty_pgrp w' = 500
    /\ trace w' = [Tcsetpgrp 1234; Kill (-1234) SIGCONT; Waitpid 1234 WUNTRACED;
                   Tcsetpgrp 500].
Proof.
  exact (fg_keeps_record_of_resumed_job
           (one_stopped_job [Some (W_EXITCODE 0 0)]) _ "1234" "fg 1234" "vim"
           (Some (W_EXITCODE 0 0)) [] eq_refl eq_refl (or_introl eq_refl) eq_refl).
Defined.

(** C9, as the claim has it, fails for an argument that is not a number:
    [fg abc] and [bg abc] give no usage message, read the argument as
    pid 0 and send SIGCONT. *)
Lemma fg_bg_non_numeric_argument_sends_signal :
  (exists w',
     __handle_input 2 ["fg"; "abc"] "fg abc" (one_stopped_job [None]) = Returned 0 w'
     /\ filter is_kill (trace w') = [Kill 0 SIGCONT]
     /\ filter is_stderr (trace w') = []
     /\ trace w' <> trace (one_stopped_job [None]))
  /\ (exists w',
     __handle_input 2 ["bg"; "abc"] "bg abc" (one_stopped_job []) = Returned 0 w'
     /\ filter is_kill (trace w') = [Kill 0 SIGCONT]
     /\ filter is_stderr (trace w') = []
     /\ trace w' <> trace (one_stopped_job [])).
Proof.
  split; eexists; repeat split; try (vm_compute; reflexivity);
    vm_compute; discriminate.
Qed.

(** C9, amended.  [fg] or [bg] without an argument prints the usage line on
    the standard error stream and returns -1; the world is otherwise as it
    was: no signal is sent, the job list is unchanged, and the shell goes
    on. *)
Theorem fg_bg_missing_argument_is_usage_error (cmd raw_input : string)
    (w : world) (r : __rsh) :
  cmd = "fg" \/ cmd = "bg" ->
  rsh_initialized w = true ->
  rsh w = Some r ->
  __handle_input 1 [cmd] raw_input w =
  Returned (-1)
    (set_trace (trace w ++ [Stderr ("Usage: " ++ cmd ++ " <pid>" ++ String LF "")]) w).
Proof.
  intros Hcmd Hi Hr. unfold __handle_input.
  rewrite bind_unfold, rsh_get_initialized by assumption.
  destruct Hcmd as [-> | ->]; reflexivity.
Qed.

Lemma fg_bg_missing_argument_is_usage_error_witness :
  __handle_input 1 ["fg"] "fg" (one_stopped_job []) =
  Returned (-1)
    (set_trace [Stderr ("Usage: fg <pid>" ++ String LF "")] (one_stopped_job [])).
Proof.
  exact (fg_bg_missing_argument_is_usage_error "fg" "fg" (one_stopped_job []) _
           (or_introl eq_refl) eq_refl eq_refl).
Defined.

(** ** Tokenisation *)

Lemma strtok_loop_unfold (delim s : string) :
  strtok_loop delim s =
  match strtok_r s delim with
  | None => []
  | Some (token, save) => token :: strtok_loop delim save
  end.
Proof.
  funelim (strtok_loop delim s).
  - rewrite Heq. reflexivity.
  - match goal with H : strtok_r _ _ = None |- _ => rewrite H end. reflexivity.
Qed.

Lemma fields_not_nil (sep : ascii -> bool) (s : string) : fields sep s <> [].
Proof.
  destruct s as [|c s]; cbn; [discriminate|].
  destruct (sep c); [discriminate|]. destruct (fields sep s); discriminate.
Qed.

Lemma fields_ext (sep sep' : ascii -> bool) (s : string) :
  (forall c, sep c = sep' c) -> fields sep s = fields sep' s.
Proof.
  intros H. induction s as [|c s IH]; cbn; [reflexivity|].
  rewrite H, IH. reflexivity.
Qed.

(** The token [strcspn_cut] returns is the first field; the save pointer
    holds the other fields, or is empty when there is no other field. *)
Lemma fields_cut (delim s : string) :
  let (token, save) := strcspn_cut delim s in
  fields (strchr delim) s = token :: fields (strchr delim) save
  \/ (fields (strchr delim) s = [token] /\ save = "").
Proof.
  induction s as [|c s IH]; cbn [fields strcspn_cut]; [right; auto|].
  destruct (strchr delim c); [left; reflexivity|].
  destruct (strcspn_cut delim s) as [token save].
  destruct IH as [-> | [-> ->]]; [left | right]; auto.
Qed.

Lemma nonempty_fields_cut (delim s : string) :
  nonempty (fields (strchr delim) s) =
  nonempty (fst (strcspn_cut delim s)
            :: fields (strchr delim) (snd (strcspn_cut delim s))).
Proof.
  pose proof (fields_cut delim s) as H.
  destruct (strcspn_cut delim s) as [token save]. cbn [fst snd].
  destruct H as [-> | [-> ->]]; [reflexivity|].
  cbn. destruct (negb (token =? "")%string); reflexivity.
Qed.

Lemma nonempty_fields_drop (delim s : string) :
  nonempty (fields (strchr delim) (strspn_drop delim s)) =
  nonempty (fields (strchr delim) s).
Proof.
  induction s as [|c s IH]; [reflexivity|].
  cbn [strspn_drop fields]. destruct (strchr delim c) eqn:Hc; [exact IH|].
  cbn [fields]. rewrite Hc. reflexivity.
Qed.

(** The [strtok] loop yields the non-empty fields between delimiters. *)
Lemma strtok_loop_fields (delim : string) :
  forall (n : nat) (s : string),
    (String.length s <= n)%nat ->
    strtok_loop delim s = nonempty (fields (strchr delim) s).
Proof.
  induction n as [|n IH]; intros s Hlen.
  - destruct s; [|cbn in Hlen; lia]. rewrite strtok_loop_unfold. reflexivity.
  - rewrite strtok_loop_unfold, <- nonempty_fields_drop.
    destruct (strtok_r s delim) as [[token save]|] eqn:Htok.
    + pose proof (strtok_r_save_shorter _ _ _ _ Htok) as Hshort.
      unfold strtok_r in Htok.
      destruct (strspn_drop delim s) as [|c s'] eqn:Hdrop; [discriminate|].
      injection Htok as Htok. rewrite nonempty_fields_cut.
      change (strcspn_cut delim (String c s') = (token, save)) in Htok.
      rewrite Htok. cbn [fst snd].
      rewrite (IH save) by lia.
      assert (Hne : token <> "").
      { intros ->. cbn in Htok.
        assert (Hc : strchr delim c = false).
        { clear -Hdrop. induction s as [|d s IHs]; cbn in Hdrop; [discriminate|].
          destruct (strchr delim d) eqn:Hd; [auto | congruence]. }
        rewrite Hc in Htok. destruct (strcspn_cut delim s'); discriminate. }
      cbn. destruct token; [contradiction | reflexivity].
    + unfold strtok_r in Htok.
      destruct (strspn_drop delim s); [reflexivity | discriminate].
Qed.

Lemma strchr_pipe (c : ascii) : strchr "|" c = is_pipe c.
Proof. cbn [strchr]. rewrite orb_false_r. apply Ascii.eqb_sym. Qed.

Lemma strchr_blanks (c : ascii) : strchr BLANKS c = is_blank c.
Proof.
  unfold BLANKS. cbn [strchr]. rewrite orb_false_r. unfold is_blank.
  rewrite (Ascii.eqb_sym " " c), (Ascii.eqb_sym TAB c), (Ascii.eqb_sym LF c).
  rewrite orb_assoc. reflexivity.
Qed.

Lemma strtok_loop_pipe (s : string) :
  strtok_loop "|" s = nonempty (fields is_pipe s).
Proof.
  rewrite (strtok_loop_fields "|" (String.length s)) by lia.
  f_equal. apply fields_ext, strchr_pipe.
Qed.

Lemma strtok_loop_blanks (s : string) : strtok_loop BLANKS s = split_blank s.
Proof.
  rewrite (strtok_loop_fields BLANKS (String.length s)) by lia.
  unfold split_blank. f_equal. apply fields_ext, strchr_blanks.
Qed.

(** Trimming a stage does not change its arguments. *)
Lemma split_blank_ltrim (s : string) : split_blank (ltrim s) = split_blank s.
Proof.
  unfold split_blank. induction s as [|c s IH]; [reflexivity|].
  cbn [ltrim fields]. destruct (is_blank c) eqn:Hc; [exact IH|].
  cbn [fields]. rewrite Hc. reflexivity.
Qed.

Lemma fields_cons (sep : ascii -> bool) (c : ascii) (s : string) :
  fields sep (String c s) =
  if sep c then "" :: fields sep s
  else match fields sep s with
       | f :: fs => String c f :: fs
       | [] => [String c ""]
       end.
Proof. reflexivity. Qed.

Lemma fields_rtrim (s : string) :
  exists k, fields is_blank s = (fields is_blank (rtrim s) ++ repeat "" k)%list.
Proof.
  induction s as [|c s [k IH]]; [exists 0%nat; reflexivity|].
  cbn [rtrim]. rewrite fields_cons, IH. destruct (rtrim s) as [|c' r] eqn:Hr.
  - destruct (is_blank c) eqn:Hc.
    + exists (S k). reflexivity.
    + exists k. rewrite fields_cons, Hc. reflexivity.
  - rewrite (fields_cons _ c). destruct (is_blank c) eqn:Hc.
    + exists k. reflexivity.
    + exists k. destruct (fields is_blank (String c' r)) as [|f fs] eqn:Hf;
        [exfalso; eapply fields_not_nil; eassumption|].
      reflexivity.
Qed.

Lemma nonempty_app_empties (l : list string) (k : nat) :
  nonempty (l ++ repeat "" k) = nonempty l.
Proof.
  unfold nonempty. rewrite filter_app.
  replace (filter _ (repeat "" k)) with (@nil string); [apply app_nil_r|].
  induction k; cbn; auto.
Qed.

Lemma split_blank_rtrim (s : string) : split_blank (rtrim s) = split_blank s.
Proof.
  unfold split_blank. destruct (fields_rtrim s) as [k ->].
  symmetry. apply nonempty_app_empties.
Qed.

Lemma split_blank_trim (s : string) : split_blank (trim s) = split_blank s.
Proof. unfold trim. rewrite split_blank_rtrim. apply split_blank_ltrim. Qed.

Lemma stages_args_map (tokens : list string) :
  stages_args tokens =
  if forallb (fun args => (List.length args <? 16)%nat)
       (map (strtok_loop BLANKS) tokens)
  then Some (map (strtok_loop BLANKS) tokens)
  else None.
Proof.
  induction tokens as [|token tokens IH]; [reflexivity|].
  cbn [stages_args map forallb]. unfold stage_args. rewrite IH.
  destruct (List.length (strtok_loop BLANKS token) <? 16)%nat; [|reflexivity].
  cbn [andb]. destruct (forallb _ _); reflexivity.
Qed.

Lemma tokenize_strtok (line : string) :
  tokenize line = map (strtok_loop BLANKS) (strtok_loop "|" line).
Proof.
  unfold tokenize. rewrite strtok_loop_pipe. apply map_ext.
  intros stage. rewrite split_blank_trim. symmetry. apply strtok_loop_blanks.
Qed.

(** [__parse_pipeline] computes the tokenisation of the specification
    whenever the result fits its arrays, and overruns them otherwise. *)
Lemma parse_pipeline_refines (line : string) :
  __parse_pipeline line =
  if within_capacity line then Some (tokenize line) else None.
Proof.
  unfold __parse_pipeline, within_capacity.
  rewrite stages_args_map, tokenize_strtok, length_map.
  destruct (List.length (strtok_loop "|" line) <=? 16)%nat; reflexivity.
Qed.

(** *** Blanks around a pipe character *)

Lemma stages_of_app (l1 l2 : list string) :
  stages_of (l1 ++ l2) = (stages_of l1 ++ stages_of l2)%list.
Proof. unfold stages_of, nonempty. rewrite filter_app, map_app. reflexivity. Qed.

Lemma is_blank_not_pipe (c : ascii) : is_blank c = true -> is_pipe c = false.
Proof.
  unfold is_blank, is_pipe. intros H.
  destruct (Ascii.eqb_spec c "|") as [->|]; [discriminate H | reflexivity].
Qed.

(** A separator splits the fields of the two sides. *)
Lemma fields_app_sep (sep : ascii -> bool) (c : ascii) (x y : string) :
  sep c = true ->
  fields sep (x ++ String c y) = (fields sep x ++ fields sep y)%list.
Proof.
  intros Hc. induction x as [|d x IH].
  - cbn [append]. rewrite fields_cons, Hc. reflexivity.
  - cbn [append]. rewrite !fields_cons, IH. destruct (sep d); [reflexivity|].
    destruct (fields sep x) as [|f fs] eqn:Hf;
      [exfalso; eapply fields_not_nil; eassumption | reflexivity].
Qed.

Lemma fields_no_sep (sep : ascii -> bool) (w : string) :
  (forall c, sep c = true -> is_blank c = false) ->
  all_blank w = true -> fields sep w = [w].
Proof.
  intros Hsep. induction w as [|c w IH]; [reflexivity|].
  cbn [all_blank]. intros [Hc Hw]%andb_prop. rewrite fields_cons.
  destruct (sep c) eqn:Hs; [apply Hsep in Hs; congruence|].
  rewrite (IH Hw). reflexivity.
Qed.

(** Appending a string without separator extends the last field. *)
Lemma fields_app_no_sep (sep : ascii -> bool) (x w : string) :
  fields sep w = [w] ->
  exists init f,
    fields sep x = (init ++ [f])%list
    /\ fields sep (x ++ w) = (init ++ [(f ++ w)%string])%list.
Proof.
  intros Hw. induction x as [|d x (init & f & Hx & Hxw)].
  - exists [], "". split; [reflexivity | exact Hw].
  - cbn [append]. rewrite !fields_cons, Hx, Hxw. destruct (sep d).
    + exists ("" :: init), f. split; reflexivity.
    + destruct init as [|i init]; cbn [app].
      * exists [], (String d f). split; reflexivity.
      * exists (String d i :: init), f. split; reflexivity.
Qed.

(** Prepending a string without separator extends the first field. *)
Lemma fields_no_sep_app (sep : ascii -> bool) (w y : string) :
  (forall c, sep c = true -> is_blank c = false) ->
  all_blank w = true ->
  exists f fs, fields sep y = f :: fs /\ fields sep (w ++ y) = (w ++ f) :: fs.
Proof.
  intros Hsep. induction w as [|c w IH]; cbn [all_blank append].
  - intros _. destruct (fields sep y) as [|f fs] eqn:Hf;
      [exfalso; eapply fields_not_nil; eassumption | eauto].
  - intros [Hc Hw]%andb_prop. destruct (IH Hw) as (f & fs & Hy & Hwy).
    exists f, fs. split; [assumption|]. rewrite fields_cons, Hwy.
    destruct (sep c) eqn:Hs; [apply Hsep in Hs; congruence | reflexivity].
Qed.

Lemma split_blank_all_blank (w : string) : all_blank w = true -> split_blank w = [].
Proof.
  unfold split_blank. induction w as [|c w IH]; [reflexivity|].
  cbn [all_blank]. intros [Hc Hw]%andb_prop. rewrite fields_cons, Hc.
  exact (IH Hw).
Qed.

Lemma split_blank_app_blank (x w : string) :
  all_blank w = true -> split_blank (x ++ w) = split_blank x.
Proof.
  destruct w as [|c w]; [intros _; now rewrite append_empty_r|].
  cbn [all_blank]. intros [Hc Hw]%andb_prop. unfold split_blank.
  rewrite fields_app_sep by assumption. unfold nonempty. rewrite filter_app.
  fold (nonempty (fields is_blank w)). fold (split_blank w).
  rewrite split_blank_all_blank by assumption. apply app_nil_r.
Qed.

Lemma split_blank_blank_app (w y : string) :
  all_blank w = true -> split_blank (w ++ y) = split_blank y.
Proof.
  unfold split_blank. induction w as [|c w IH]; [reflexivity|].
  cbn [all_blank append]. intros [Hc Hw]%andb_prop. rewrite fields_cons, Hc.
  exact (IH Hw).
Qed.

Lemma tokenize_stages_of (line : string) :
  tokenize line = stages_of (fields is_pipe line).
Proof. reflexivity. Qed.

(** Blanks on either side of a pipe character that stands between two
    stage strings do not change the tokenisation. *)
Lemma tokenize_blanks_around_pipe (a b w1 w2 : string) (ca cb : ascii) :
  is_pipe ca = false ->
  is_pipe cb = false ->
  all_blank w1 = true ->
  all_blank w2 = true ->
  tokenize (a ++ String ca (w1 ++ String "|" (w2 ++ String cb b))) =
  tokenize (a ++ String ca (String "|" (String cb b))).
Proof.
  intros Hca Hcb Hw1 Hw2.
  assert (Hsep : forall c, is_pipe c = true -> is_blank c = false).
  { intros c Hc. destruct (is_blank c) eqn:Hb; [|reflexivity].
    apply is_blank_not_pipe in Hb. congruence. }
  replace (a ++ String ca (w1 ++ String "|" (w2 ++ String cb b)))
    with ((a ++ String ca w1) ++ String "|" (w2 ++ String cb b))
    by (rewrite append_assoc; reflexivity).
  replace (a ++ String ca (String "|" (String cb b)))
    with ((a ++ String ca "") ++ String "|" (String cb b))
    by (rewrite append_assoc; reflexivity).
  rewrite !tokenize_stages_of.
  rewrite (fields_app_sep is_pipe "|" (a ++ String ca w1)) by reflexivity.
  rewrite (fields_app_sep is_pipe "|" (a ++ String ca "")) by reflexivity.
  rewrite !stages_of_app. f_equal.
  - (* the stage before the pipe *)
    assert (Hone : forall w, all_blank w = true ->
              fields is_pipe (String ca w) = [String ca w]).
    { intros w Hw. rewrite fields_cons, Hca, (fields_no_sep is_pipe w Hsep Hw).
      reflexivity. }
    destruct (fields_app_no_sep is_pipe a (String ca w1) (Hone w1 Hw1))
      as (init & f & Ha & ->).
    destruct (fields_app_no_sep is_pipe a (String ca "") (Hone "" eq_refl))
      as (init' & f' & Ha' & ->).
    rewrite Ha in Ha'. apply app_inj_tail in Ha' as [<- <-].
    rewrite !stages_of_app. f_equal. unfold stages_of, nonempty.
    cbn [filter].
    assert (Hne : forall w, ((f ++ String ca w) =? "")%string = false)
      by (intros w; destruct f; reflexivity).
    rewrite !Hne. cbn [negb map]. f_equal. rewrite !split_blank_trim.
    replace (f ++ String ca w1) with ((f ++ String ca "") ++ w1)
      by (rewrite append_assoc; reflexivity).
    apply split_blank_app_blank. assumption.
  - (* the stage after the pipe *)
    destruct (fields_no_sep_app is_pipe w2 (String cb b) Hsep Hw2)
      as (f & fs & Hy & ->).
    rewrite Hy. rewrite fields_cons, Hcb in Hy.
    assert (Hf : exists f0, f = String cb f0).
    { destruct (fields is_pipe b) as [|f0 fs0]; injection Hy as <- _; eauto. }
    destruct Hf as [f0 ->]. unfold stages_of, nonempty. cbn [filter].
    assert (Hne : ((w2 ++ String cb f0) =? "")%string = false)
      by (destruct w2; reflexivity).
    rewrite Hne. cbn [String.eqb negb map]. f_equal.
    rewrite !split_blank_trim. apply split_blank_blank_app. assumption.
Qed.

(** C5, as the claim has it, fails where a pipe character does not stand
    between two stage strings: blanks between two pipe characters, or
    after the last one, make a stage of their own, with no argument. *)
Lemma blanks_beside_pipe_make_a_stage :
  __parse_pipeline "a||b" = Some [["a"]; ["b"]]
  /\ __parse_pipeline "a| |b" = Some [["a"]; []; ["b"]]
  /\ __parse_pipeline "ls |" = Some [["ls"]]
  /\ __parse_pipeline "ls | " = Some [["ls"]; []]
  /\ __parse_pipeline "a||b" <> __parse_pipeline "a| |b".
Proof. repeat split; try (vm_compute; reflexivity). vm_compute. discriminate. Qed.

(** C5, amended.  [__parse_pipeline] splits the line at the pipe characters
    into the stage strings, in order, and every stage string, trimmed, at
    its runs of blanks (space, tab, newline) into its arguments, with no
    quoting.  [ls | grep foo | wc -l] gives the three stages of the
    specification, and blanks around a pipe character that stands between
    two stage strings do not change the result; [echo hi  |  cat] parses as
    [echo hi|cat] does. *)
Theorem parse_pipeline_tokenizes :
  (forall line,
      within_capacity line = true ->
      __parse_pipeline line = Some (tokenize line))
  /\ __parse_pipeline "ls | grep foo | wc -l"
     = Some [["ls"]; ["grep"; "foo"]; ["wc"; "-l"]]
  /\ (forall (a b w1 w2 : string) (ca cb : ascii),
         is_pipe ca = false -> is_pipe cb = false ->
         all_blank w1 = true -> all_blank w2 = true ->
         __parse_pipeline (a ++ String ca (w1 ++ String "|" (w2 ++ String cb b)))
         = __parse_pipeline (a ++ String ca (String "|" (String cb b))))
  /\ __parse_pipeline "echo hi  |  cat" = __parse_pipeline "echo hi|cat"
  /\ __parse_pipeline "echo hi|cat" = Some [["echo"; "hi"]; ["cat"]].
Proof.
  split; [|split; [|split; [|split]]].
  - intros line H. rewrite parse_pipeline_refines, H. reflexivity.
  - vm_compute. reflexivity.
  - intros a b w1 w2 ca cb Hca Hcb Hw1 Hw2.
    rewrite !parse_pipeline_refines. unfold within_capacity.
    rewrite (tokenize_blanks_around_pipe a b w1 w2 ca cb) by assumption.
    reflexivity.
  - vm_compute. reflexivity.
  - vm_compute. reflexivity.
Qed.

Lemma parse_pipeline_tokenizes_witness :
  __parse_pipeline "ls -l | sort" = Some (tokenize "ls -l | sort")
  /\ __parse_pipeline ("echo h" ++ String "i" ("  " ++ String "|" ("  " ++ String "c" "at")))
     = __parse_pipeline ("echo h" ++ String "i" (String "|" (String "c" "at"))).
Proof.
  split.
  - exact (proj1 parse_pipeline_tokenizes "ls -l | sort" eq_refl).
  - exact (proj1 (proj2 (proj2 parse_pipeline_tokenizes))
             "echo h" "at" "  " "  " "i"%char "c"%char eq_refl eq_refl eq_refl eq_refl).
Defined.

(** ** Invariants of the shell

    The section proves [inv I E m] for the functions of the shell, from what
    [I] and [E] are assumed to tolerate. *)

Section Invariant.

Variable I : world -> Prop.
Variable E : halt -> world -> Prop.

(** [E] accepts every halt other than [exit]. *)
Hypothesis E_halt :
  forall h w, match h with Exit _ => False | _ => True end -> E h w.

(** [I] does not look at what the system calls change... *)
Hypothesis I_trace : forall x w, I w -> I (set_trace x w).
Hypothesis I_sigdisp : forall x w, I w -> I (set_sigdisp x w).
Hypothesis I_tty_pgrp : forall x w, I w -> I (set_tty_pgrp x w).
Hypothesis I_self_pid : forall x w, I w -> I (set_self_pid x w).
Hypothesis I_forks : forall x w, I w -> I (set_forks x w).
Hypothesis I_pipes : forall x w, I w -> I (set_pipes x w).
Hypothesis I_waits : forall x w, I w -> I (set_waits x w).

(** ... nor at the foreground process and the job list. *)
Hypothesis I_running_process :
  forall x r w, rsh w = Some r -> I w ->
                I (set_rsh (Some (set_running_process x r)) w).
Hypothesis I_job_buffer :
  forall x r w, rsh w = Some r -> I w ->
                I (set_rsh (Some (set_job_buffer x r)) w).

Hypothesis inv_rsh_get : inv I E __rsh_get.
Hypothesis inv_handle_ctrlc : forall sig, inv I E (__handle_ctrlc sig).

Lemma inv_ret {A} (a : A) : inv I E (ret a).
Proof. intros w H. exact H. Qed.

Lemma inv_bind {A B} (m : M A) (k : A -> M B) :
  inv I E m -> (forall a, inv I E (k a)) -> inv I E (bind m k).
Proof.
  intros Hm Hk w H. apply wp_bind.
  eapply wp_conseq; [apply Hm, H | | auto].
  intros a w' H'. apply Hk, H'.
Qed.

Lemma inv_gets {A} (f : world -> A) : inv I E (gets f).
Proof. intros w H. exact H. Qed.

Lemma inv_stop {A} (h : halt) :
  match h with Exit _ => False | _ => True end -> inv I E (@stop A h).
Proof. intros Hh w H. apply wp_stop, E_halt, Hh. Qed.

Lemma inv_emit (e : event) : inv I E (emit e).
Proof. intros w H. apply wp_emit, I_trace, H. Qed.

Lemma inv_signal (sig : Z) (h : sighandler) : inv I E (signal sig h).
Proof. intros w H. apply wp_signal, I_sigdisp, H. Qed.

Lemma inv_tcsetpgrp (pgrp : Z) : inv I E (tcsetpgrp pgrp).
Proof.
  intros w H. unfold tcsetpgrp. apply wp_bind, wp_emit, wp_modify.
  apply I_tty_pgrp, I_trace, H.
Qed.

Lemma inv_fork : inv I E fork.
Proof.
  intros w H. apply wp_fork. destruct (forks w) as [|[me|child|] rest];
    auto using I_trace, I_forks, I_self_pid.
Qed.

Lemma inv_pipe : inv I E pipe.
Proof.
  intros w H. apply wp_pipe. destruct (pipes w); auto using I_trace, I_pipes.
Qed.

Lemma inv_waitpid (p : Z) (status : option Z) (options : Z) :
  inv I E (waitpid p status options).
Proof.
  intros w H. apply wp_waitpid. destruct (waits w) as [|[s|] rest];
    [apply E_halt; exact Logic.I | |]; auto using I_trace, I_waits.
Qed.

Lemma inv_execvp (file : option string) (argv : list string) :
  inv I E (execvp file argv).
Proof.
  intros w H. apply wp_execvp. cbv zeta. destruct file as [f|];
    [destruct (exec_ok w f)|]; try (apply E_halt; exact Logic.I).
  apply I_trace, H.
Qed.

Lemma inv_rsh_read {A} (f : __rsh -> A) : inv I E (rsh_read f).
Proof.
  intros w H. unfold wp, rsh_read. destruct (rsh w);
    [exact H | apply E_halt; exact Logic.I].
Qed.

Lemma inv_set_running_process (x : Z) : inv I E (rsh_write (set_running_process x)).
Proof.
  intros w H. unfold wp, rsh_write. destruct (rsh w) eqn:Hr;
    [apply I_running_process; assumption | apply E_halt; exact Logic.I].
Qed.

Lemma inv_set_job_buffer (f : list __job_node -> list __job_node) :
  inv I E (rsh_write (fun r => set_job_buffer (f (job_buffer r)) r)).
Proof.
  intros w H. unfold wp, rsh_write. destruct (rsh w) eqn:Hr;
    [apply I_job_buffer; assumption | apply E_halt; exact Logic.I].
Qed.

(** The proof of [inv] follows the code. *)
Ltac inv_step :=
  lazymatch goal with
  | |- inv I E (bind _ _) => apply inv_bind; [|intros ?]
  | |- inv I E (ret _) => apply inv_ret
  | |- inv I E (gets _) => apply inv_gets
  | |- inv I E getpid => apply inv_gets
  | |- inv I E (stop _) => apply inv_stop; exact Logic.I
  | |- inv I E (_exit _) => apply inv_stop; exact Logic.I
  | |- inv I E (emit _) => apply inv_emit
  | |- inv I E (printf _) => apply inv_emit
  | |- inv I E (fprintf_stderr _) => apply inv_emit
  | |- inv I E (perror _) => apply inv_emit
  | |- inv I E (kill _ _) => apply inv_emit
  | |- inv I E (setpgid _ _) => apply inv_emit
  | |- inv I E (dup2 _ _) => apply inv_emit
  | |- inv I E (close _) => apply inv_emit
  | |- inv I E (signal _ _) => apply inv_signal
  | |- inv I E (tcsetpgrp _) => apply inv_tcsetpgrp
  | |- inv I E fork => apply inv_fork
  | |- inv I E pipe => apply inv_pipe
  | |- inv I E (waitpid _ _ _) => apply inv_waitpid
  | |- inv I E (execvp _ _) => apply inv_execvp
  | |- inv I E (rsh_read _) => apply inv_rsh_read
  | |- inv I E (rsh_write (set_running_process _)) => apply inv_set_running_process
  | |- inv I E __rsh_get => apply inv_rsh_get
  | |- inv I E (__handle_ctrlc _) => apply inv_handle_ctrlc
  | |- inv I E (if ?b then _ else _) => destruct b
  | |- inv I E (match ?x with _ => _ end) => destruct x
  | |- inv I E (let (_, _) := ?x in _) => destruct x
  end.

Lemma inv_give_terminal (pgrp : Z) : inv I E (give_terminal pgrp).
Proof. unfold give_terminal. repeat inv_step. Qed.

Lemma inv_append_job (p : Z) (cmd : string) (st : Z) : inv I E (__append_job p cmd st).
Proof.
  unfold __append_job. repeat inv_step.
  apply (inv_set_job_buffer (fun jobs => _ :: jobs)).
Qed.

Lemma inv_remove_job (p : Z) : inv I E (__remove_job p).
Proof.
  unfold __remove_job. repeat inv_step. apply (inv_set_job_buffer (unlink_job p)).
Qed.

Lemma inv_print_history (l : list __hist_node) : inv I E (print_history l).
Proof. induction l as [|n l IH]; cbn [print_history]; repeat inv_step. exact IH. Qed.

Lemma inv_display_history : inv I E __display_history.
Proof. unfold __display_history. repeat inv_step. apply inv_print_history. Qed.

Lemma inv_print_jobs (l : list __job_node) : inv I E (print_jobs l).
Proof. induction l as [|n l IH]; cbn [print_jobs]; repeat inv_step. exact IH. Qed.

Lemma inv_print_lines (n : nat) : inv I E (print_lines n).
Proof. induction n as [|n IH]; cbn [print_lines]; repeat inv_step. exact IH. Qed.

Lemma inv_wait_foreground (id : Z) (ws : list (option Z)) :
  forall status, inv I E (wait_foreground id ws status).
Proof.
  induction ws as [|a ws IH]; intros status; cbn [wait_foreground];
    repeat inv_step. apply IH.
Qed.

Lemma inv_pipeline_spawn (commands : list (list string)) :
  forall i num prev next pids, inv I E (pipeline_spawn commands i num prev next pids).
Proof.
  induction commands as [|c commands IH]; intros i num prev next pids;
    cbn [pipeline_spawn]; repeat inv_step; apply IH.
Qed.

Lemma inv_pipeline_wait (pids : list Z) :
  forall status, inv I E (pipeline_wait pids status).
Proof.
  induction pids as [|p pids IH]; intros status; cbn [pipeline_wait];
    repeat inv_step. apply IH.
Qed.

Lemma inv_handle_pipeline (commands : list (list string)) (num : Z) :
  inv I E (__handle_pipeline commands num).
Proof.
  unfold __handle_pipeline. repeat inv_step;
    auto using inv_pipeline_spawn, inv_pipeline_wait.
Qed.

Lemma inv_launch (argv : list string) (raw_input : string) :
  inv I E (launch argv raw_input).
Proof.
  unfold launch. repeat inv_step;
    auto using inv_handle_pipeline, inv_display_history, inv_give_terminal,
      inv_wait_foreground, inv_append_job, inv_remove_job.
Qed.

Lemma inv_handle_input (argc : Z) (argv : list string) (raw_input : string) :
  inv I E (__handle_input argc argv raw_input).
Proof.
  unfold __handle_input. repeat inv_step;
    auto using inv_launch, inv_print_lines, inv_print_jobs, inv_give_terminal,
      inv_remove_job.
Qed.

Lemma inv_handle_ctrlz (sig : Z) : inv I E (__handle_ctrlz sig).
Proof. unfold __handle_ctrlz. repeat inv_step; auto using inv_append_job. Qed.

Lemma inv_deliver (sig : Z) : inv I E (deliver sig).
Proof. unfold deliver. repeat inv_step; auto using inv_handle_ctrlz. Qed.

(** For the reader and the main loop, [I] must also not look at the
    input that is left, at the memory that was never written and at the
    history. *)
Hypothesis I_stdin : forall x w, I w -> I (set_stdin x w).
Hypothesis I_unwritten : forall x w, I w -> I (set_unwritten x w).
Hypothesis I_hist_buffer :
  forall x r w, rsh w = Some r -> I w ->
                I (set_rsh (Some (set_hist_buffer x r)) w).

Lemma inv_set_hist_buffer (f : __rsh -> list __hist_node) :
  inv I E (rsh_write (fun r => set_hist_buffer (f r) r)).
Proof.
  intros w H. unfold wp, rsh_write. destruct (rsh w) eqn:Hr;
    [apply I_hist_buffer; assumption | apply E_halt; exact Logic.I].
Qed.

Lemma inv_append_history (str : string) : inv I E (__append_history str).
Proof.
  unfold __append_history. apply inv_bind; [apply inv_rsh_get | intros _].
  apply inv_bind; [|intros _].
  - intros w H. unfold wp, rsh_write. destruct (rsh w) as [r|] eqn:Hr;
      [|apply E_halt; exact Logic.I].
    destruct (hist_buffer r) eqn:Hh.
    + apply I_hist_buffer; assumption.
    + replace (set_rsh (Some r) w) with w; [exact H|].
      clear H. destruct w; cbn in Hr |- *. rewrite Hr. reflexivity.
  - repeat inv_step. apply (inv_set_hist_buffer (fun _ => _)).
Qed.

Lemma inv_unwritten_byte : inv I E unwritten_byte.
Proof.
  intros w H. apply wp_unwritten_byte. destruct (unwritten w);
    [apply E_halt; exact Logic.I | apply I_unwritten, H].
Qed.

Lemma inv_read_loop (keys : list read_result) :
  forall c buf, inv I E (read_loop keys c buf).
Proof.
  induction keys as [|k keys IH]; intros c buf; cbn [read_loop];
    [inv_step|].
  apply inv_bind; [intros w H; apply wp_modify, I_stdin, H | intros _].
  destruct k as [b| |sig|]; repeat inv_step;
    auto using inv_deliver, inv_unwritten_byte.
Qed.

Lemma inv_parse_input : inv I E __parse_input.
Proof.
  unfold __parse_input. repeat inv_step;
    auto using inv_read_loop, inv_append_history.
Qed.

Lemma inv_main_loop (n : nat) : inv I E (main_loop n).
Proof.
  induction n as [|n IH]; cbn [main_loop]; repeat inv_step;
    auto using inv_parse_input, inv_handle_input.
Qed.

Lemma inv_rsh_run (n : nat) : inv I E (rsh_run n).
Proof. unfold rsh_run. repeat inv_step. apply inv_main_loop. Qed.

End Invariant.

(** ** The terminal discipline is restored on exit *)



Section Restore.

Variable t : termios.





End Restore.



(** ** The history *)

Lemma link_last_app (current to_add : __hist_node) (next : list __hist_node) :
  link_last current next to_add = (current :: next ++ [to_add])%list.
Proof.
  revert current. induction next as [|n next IH]; intros current; cbn;
    [reflexivity | now rewrite IH].
Qed.

Lemma typed_cons (c : ascii) (line : string) :
  typed (String c line) = read_byte c :: typed line.
Proof. reflexivity. Qed.

(** Typing a line and Enter makes the read loop return that line. *)
Lemma read_loop_typed (line : string) :
  forall (buf : string) (c : option ascii) (rest : list read_result) (w : world),
    printable line = true ->
    (String.length buf + String.length line <= 1023)%nat ->
    wp (read_loop (typed line ++ rest) c buf)
       (fun res w' =>
          res = Some (buf ++ line)
          /\ stdin w' = rest
          /\ rsh w' = rsh w
          /\ rsh_initialized w' = rsh_initialized w)
       returns w.
Proof.
  induction line as [|ch line IH]; intros buf c rest w Hp Hlen.
  - cbn [typed list_ascii_of_string map app read_loop]. wp_steps.
    change (iscntrl CR) with true. change ((CR =? LF)%char || (CR =? CR)%char) with true.
    cbv iota. wp_steps. rewrite append_empty_r. auto.
  - rewrite typed_cons. cbn [app read_loop]. cbn [printable] in Hp.
    apply andb_prop in Hp as [Hch Hp]. apply negb_true_iff in Hch.
    wp_steps. rewrite Hch.
    assert (Hroom : (Z.of_nat (String.length buf) <? PATH_LENGTH - 1) = true).
    { apply Z.ltb_lt. unfold PATH_LENGTH. cbn [String.length] in Hlen. lia. }
    rewrite Hroom. wp_steps.
    eapply wp_conseq; [apply IH; [assumption|] | | auto].
    + assert (String.length (buf ++ String ch "") = S (String.length buf)) as ->.
      { clear. induction buf as [|b buf IHb]; cbn; [reflexivity | now rewrite IHb]. }
      cbn [String.length] in Hlen. lia.
    + cbn beta. wsimpl. intros res w' (-> & Hs & Hr & Hi).
      rewrite append_assoc. auto.
Qed.

(** [__append_history] links the line after the lines already there. *)
Lemma append_history_run (done : list string) (line : string) (w : world) :
  history_is done w ->
  wp (__append_history line)
     (fun _ w' =>
        rsh_initialized w' = true
        /\ history_is (done ++ [line]) w'
        /\ stdin w' = stdin w)
     returns w.
Proof.
  unfold history_is. intros H. unfold __append_history.
  destruct (rsh_initialized w) eqn:Hi.
  - destruct H as (r & head & Hr & Hh).
    wp_step. apply wp_rsh_get_initialized; [assumption|].
    wp_step. eapply wp_rsh_write; [eassumption|]. rewrite Hh.
    wp_step. eapply wp_rsh_read; [reflexivity|]. rewrite Hh.
    eapply wp_rsh_write; [reflexivity|]. wsimpl. rewrite Hi.
    repeat split; auto. do 2 eexists. split; [reflexivity|]. wsimpl.
    rewrite link_last_app, map_app. reflexivity.
  - subst done. unfold __rsh_get, __enable_raw_mode. wp_steps. rewrite Hi.
    cbn [negb]. wp_steps. eapply wp_rsh_write; [reflexivity|]. wsimpl.
    wp_step. eapply wp_rsh_read; [reflexivity|]. wsimpl.
    eapply wp_rsh_write; [reflexivity|]. wsimpl.
    repeat split; auto. do 2 eexists. split; reflexivity.
Qed.

Lemma exit_halts {A} (code : Z) (w : world) :
  exists w', @exit A code w = Halted (Exit code) w'.
Proof.
  unfold exit. rewrite bind_unfold. cbn [gets].
  generalize (atexit_fns w) at 1. intros fns. revert w.
  induction fns as [|fn fns IH]; intros w.
  - eexists. reflexivity.
  - destruct fn. cbn [run_atexit_fns run_atexit_fn]. rewrite !bind_unfold.
    change (__disable_raw_mode w) with
      (Returned tt (set_tty (orig_termios w)
                      (set_trace (trace w ++ [Tcsetattr (orig_termios w)]) w))).
    cbv iota beta.
    destruct (IH (set_tty (orig_termios w)
                    (set_trace (trace w ++ [Tcsetattr (orig_termios w)]) w)))
      as [w' Hw'].
    rewrite !bind_unfold in Hw'. exists w'. exact Hw'.
Qed.

Lemma history_kept_handle_input (done : list string) (keys : list read_result)
    (argc : Z) (argv : list string) (raw_input : string) :
  inv (history_kept done keys) (fun _ _ => True)
      (__handle_input argc argv raw_input).
Proof.
  apply inv_handle_input; try (intros; assumption); try exact (fun _ _ _ => Logic.I).
  - intros x r w Hr (Hi & H & Hs). unfold history_kept, history_is in *.
    wsimpl. rewrite Hi in *. repeat split; auto.
    destruct H as (r' & head & Hr' & Hh). rewrite Hr in Hr'. injection Hr' as <-.
    do 2 eexists. split; [reflexivity | exact Hh].
  - intros x r w Hr (Hi & H & Hs). unfold history_kept, history_is in *.
    wsimpl. rewrite Hi in *. repeat split; auto.
    destruct H as (r' & head & Hr' & Hh). rewrite Hr in Hr'. injection Hr' as <-.
    do 2 eexists. split; [reflexivity | exact Hh].
  - intros w H. apply wp_rsh_get_initialized; [apply H | exact H].
  - intros sig w (Hi & H & Hs). unfold __handle_ctrlc. wp_step.
    apply wp_rsh_get_initialized; [assumption|]. wp_step.
    unfold wp at 1, rsh_read. destruct (rsh w) as [r|] eqn:Hr; [|exact Logic.I].
    destruct (negb (running_process r =? 0)).
    + wp_step. repeat split; assumption.
    + wp_steps. unfold __rsh_destroy. wp_steps. unfold wp.
      match goal with |- context [exit 0 ?w1] =>
        destruct (exit_halts (A := unit) 0 w1) as [w' ->] end.
      exact Logic.I.
Qed.

(** The main loop over typed lines: every line is in the history, in order,
    when the loop comes back to the prompt. *)
Lemma main_loop_history (lines : list string) :
  forall (done : list string) (rest : list read_result) (w : world),
    Forall typeable lines ->
    history_is done w ->
    stdin w = (flat_map typed lines ++ rest)%list ->
    wp (main_loop (List.length lines))
       (fun _ w' => history_is (done ++ lines) w' /\ stdin w' = rest)
       (fun _ _ => True) w.
Proof.
  induction lines as [|line lines IH]; intros done rest w Hty Hh Hs.
  - cbn [List.length main_loop]. wp_step. rewrite app_nil_r. auto.
  - inversion Hty as [|? ? [Hp Hlen] Hty']; subst.
    cbn [List.length main_loop flat_map] in *. rewrite <- app_assoc in Hs.
    wp_step. unfold __parse_input. wp_steps. rewrite Hs.
    eapply wp_conseq;
      [apply (read_loop_typed line "" None); [assumption | cbn; lia]
      | | contradiction].
    cbn beta. wsimpl. intros res w1 (-> & Hs1 & Hr1 & Hi1). cbn [append].
    wp_step.
    eapply wp_conseq;
      [apply (append_history_run done line w1) | | contradiction].
    { unfold history_is in *. rewrite Hi1, Hr1. exact Hh. }
    cbn beta. intros _ w2 (Hi2 & Hh2 & Hs2).
    destruct (List.length (strtok_loop BLANKS line) <? _)%nat;
      [|wp_step; exact Logic.I].
    wp_steps.
    eapply wp_conseq;
      [apply (history_kept_handle_input (done ++ [line])
                (flat_map typed lines ++ rest)%list)
      | | auto].
    { repeat split; auto. congruence. }
    cbn beta. intros _ w3 (Hi3 & Hh3 & Hs3).
    eapply wp_conseq; [apply (IH (done ++ [line])%list rest w3); assumption | | auto].
    cbn beta. intros _ w4 [Hh4 Hs4]. rewrite <- app_assoc in Hh4. auto.
Qed.

Lemma history_is_displayed (done : list string) (w : world) :
  history_is done w -> rsh w = None \/ rsh_initialized w = true ->
  displayed w = map Some done.
Proof.
  unfold history_is, displayed. intros H Hr.
  destruct (rsh_initialized w).
  - destruct H as (r & head & -> & ->). cbn [tl]. rewrite map_map. reflexivity.
  - subst done. destruct Hr as [-> | ?]; [reflexivity | discriminate].
Qed.

(** [__display_history] prints the recorded lines, one per line, in order,
    and leaves the history as it is. *)
Lemma display_history_prints (done : list string) (w : world) :
  rsh_initialized w = true ->
  history_is done w ->
  wp __display_history
     (fun _ w' =>
        trace w' = (trace w ++ map (fun s => Stdout (s ++ CRLF)) done)%list
        /\ rsh w' = rsh w)
     returns w.
Proof.
  unfold history_is. intros Hi H. rewrite Hi in H.
  destruct H as (r & head & Hr & Hh). unfold __display_history.
  wp_step. apply wp_rsh_get_initialized; [assumption|].
  wp_step. eapply wp_rsh_read; [eassumption|]. rewrite Hh.
  clear Hh Hi. revert w Hr. induction done as [|line done IH]; intros w Hr.
  - cbn [map print_history]. wp_step. rewrite app_nil_r. auto.
  - cbn [map print_history node_of hist_command]. wp_steps.
    eapply wp_conseq; [apply IH; exact Hr | | auto].
    cbn beta. wsimpl. intros _ w' [Ht Hr']. rewrite Ht, <- app_assoc. auto.
Qed.

(** C4, as the claim has it, fails: an empty line is recorded like any
    other.  After Enter on an empty prompt and then [jobs], the history has
    two entries, the first of them empty. *)
Lemma history_records_empty_lines :
  exists w',
    main_loop 2 (boot cooked 500 None (fun _ => true)
                   (typed "" ++ typed "jobs") [] [] [])
    = Returned tt w'
    /\ displayed w' = [Some ""; Some "jobs"]
    /\ displayed w' <>
       map Some (filter (fun line => negb (line =? "")%string) [""; "jobs"]).
Proof.
  eexists. split; [vm_compute; reflexivity|]. split; [reflexivity | discriminate].
Qed.

(** C4, amended.  When the lines [lines] are typed one after the other,
    each followed by Enter, and the shell is back at its prompt, the history
    holds exactly these lines, empty ones included, in the order in which
    they were submitted, whatever the commands did; and [__display_history]
    prints them in that order. *)
Theorem history_records_every_line (lines : list string) (t : termios)
    (shell_pid : Z) (p : option string) (resolves : string -> bool)
    (rest : list read_result) (fs : list fork_result)
    (ps : list (option (Z * Z))) (ws : list (option Z)) (w' : world) :
  Forall typeable lines ->
  main_loop (List.length lines)
    (boot t shell_pid p resolves (flat_map typed lines ++ rest) fs ps ws)
  = Returned tt w' ->
  displayed w' = map Some lines
  /\ stdin w' = rest
  /\ (lines <> [] ->
      exists w'',
        __display_history w' = Returned tt w''
        /\ trace w'' = (trace w' ++ map (fun s => Stdout (s ++ CRLF)) lines)%list
        /\ displayed w'' = map Some lines).
Proof.
  intros Hty Hrun.
  pose proof (main_loop_history lines [] rest
                (boot t shell_pid p resolves (flat_map typed lines ++ rest) fs ps ws)
                Hty eq_refl eq_refl) as H.
  unfold wp in H. rewrite Hrun in H. cbn [app] in H. destruct H as [Hh Hs].
  assert (Hinit : lines <> [] -> rsh_initialized w' = true).
  { unfold history_is in Hh. destruct (rsh_initialized w'); auto. }
  assert (Hnone : lines = [] -> rsh w' = None).
  { intros ->. cbn in Hrun. injection Hrun as <-. reflexivity. }
  split; [|split; [exact Hs|]].
  - apply history_is_displayed; [exact Hh|].
    destruct lines; [left; auto | right; apply Hinit; discriminate].
  - intros Hne. pose proof (display_history_prints lines w' (Hinit Hne) Hh) as Hd.
    apply wp_returned in Hd. destruct Hd as ([] & w'' & Hrun' & Ht & Hr).
    exists w''. repeat split; auto.
    unfold displayed. rewrite Hr. fold (displayed w').
    apply history_is_displayed; [exact Hh | right; auto].
Qed.

Lemma typeable_intro (line : string) :
  printable line = true -> (String.length line <=? 1023)%nat = true ->
  typeable line.
Proof. intros Hp Hl. split; [exact Hp | apply Nat.leb_le, Hl]. Qed.

Lemma history_records_every_line_witness :
  exists w',
    main_loop 3 (boot cooked 500 None (fun _ => true)
                   (flat_map typed three_lines ++ []) [] [] [])
    = Returned tt w'
    /\ displayed w' = map Some three_lines.
Proof.
  eexists. split; [vm_compute; reflexivity|].
  refine (proj1 (history_records_every_line three_lines cooked 500 None
                   (fun _ => true) [] [] [] [] _ _ _)).
  - repeat first [apply Forall_nil
                 | apply Forall_cons; [apply typeable_intro; reflexivity|]].
  - vm_compute. reflexivity.
Defined.

(** ** Process ids as text *)

Lemma atoi_digits_digit (c : ascii) (v : Z) (s : string) (acc : Z) :
  isdigit c = true -> Z.of_N (N_of_ascii c) - 48 = v ->
  atoi_digits (String c s) acc = atoi_digits s (10 * acc + v).
Proof. intros Hc Hv. cbn [atoi_digits]. rewrite Hc, Hv. reflexivity. Qed.

Lemma atoi_digits_pos (d : Decimal.uint) :
  forall p, atoi_digits (NilEmpty.string_of_uint d) (Z.pos p)
            = Z.pos (Pos.of_uint_acc d p).
Proof.
  induction d; intros p; cbn [NilEmpty.string_of_uint Pos.of_uint_acc];
    try reflexivity;
    (erewrite atoi_digits_digit; [|reflexivity|reflexivity]);
    rewrite <- IHd; f_equal;
    match goal with
    | |- context [Z.of_N (N_of_ascii ?c) - 48] =>
        let v := eval vm_compute in (Z.of_N (N_of_ascii c) - 48) in
        change (Z.of_N (N_of_ascii c) - 48) with v
    end; lia.
Qed.

Lemma atoi_digits_uint (d : Decimal.uint) :
  atoi_digits (NilEmpty.string_of_uint d) 0 = Z.of_N (Pos.of_uint d).
Proof.
  induction d; cbn [NilEmpty.string_of_uint Pos.of_uint]; try reflexivity;
    try exact IHd; exact (atoi_digits_pos d _).
Qed.

Lemma atoi_digits_nilzero (d : Decimal.uint) :
  atoi_digits (NilZero.string_of_uint d) 0 = Z.of_uint d.
Proof.
  unfold Z.of_uint. destruct d; try exact (atoi_digits_uint _). reflexivity.
Qed.

Lemma strtol_unsigned (d : Decimal.uint) :
  strtol (NilZero.string_of_uint d)
  = Z.max LONG_MIN (Z.min LONG_MAX (atoi_digits (NilZero.string_of_uint d) 0)).
Proof. destruct d; reflexivity. Qed.

(** [strtol] reads back what [printf("%d")] writes, up to the range of a
    [long]. *)
Lemma strtol_decimal (n : Z) :
  strtol (decimal n) = Z.max LONG_MIN (Z.min LONG_MAX n).
Proof.
  unfold decimal. rewrite <- (DecimalZ.of_to n) at 2.
  destruct (Z.to_int n) as [d|d]; cbn [NilZero.string_of_int Z.of_int].
  - rewrite strtol_unsigned. f_equal. f_equal. apply atoi_digits_nilzero.
  - unfold strtol. cbn [skip_space].
    change (isspace "-") with false. cbv iota.
    rewrite atoi_digits_nilzero. reflexivity.
Qed.

Lemma to_int_int (n : Z) : - 2 ^ 31 <= n < 2 ^ 31 -> to_int n = n.
Proof.
  unfold to_int. change (2 ^ 31) with 2147483648.
  change (2 ^ 32) with 4294967296. intros Hn.
  rewrite Z.mod_small; lia.
Qed.

(** Within the range of an [int], [atoi] reads back what [printf("%d")]
    writes. *)
Lemma atoi_decimal (n : Z) : - 2 ^ 31 <= n < 2 ^ 31 -> atoi (decimal n) = n.
Proof.
  intros Hn. unfold atoi. rewrite strtol_decimal.
  assert (Hclamp : Z.max LONG_MIN (Z.min LONG_MAX n) = n).
  { unfold LONG_MIN, LONG_MAX. change (2 ^ 63) with 9223372036854775808.
    change (2 ^ 31) with 2147483648 in Hn. lia. }
  rewrite Hclamp. apply to_int_int, Hn.
Qed.

(** ** The parent of a single command *)

(** The parent side of the single-command path, when [fork] succeeds and
    the first status [waitpid] stores ends the wait. *)
Lemma launch_single_parent (w : world) (r : __rsh) (argv0 raw_input : string)
    (args : list string) (commands : list (list string)) (child : positive)
    (fr : list fork_result) (st : Z) (ws : list (option Z)) :
  rsh_initialized w = true ->
  rsh w = Some r ->
  Z.of_nat (String.length (path r)) < PATH_LENGTH ->
  String.eqb argv0 "history" = false ->
  String.eqb argv0 "History" = false ->
  __parse_pipeline raw_input = Some commands ->
  (List.length commands <= 1)%nat ->
  forks w = in_parent child :: fr ->
  waits w = Some st :: ws ->
  WIFEXITED st || WIFSIGNALED st || WIFSTOPPED st = true ->
  wp (launch (argv0 :: args) raw_input)
     (fun res w' =>
        res = 0
        /\ rsh w' =
           Some (set_running_process 0
                   (set_job_buffer
                      (if WIFSTOPPED st
                       then {| pid := Z.pos child; command := argv0; status := 1 |}
                            :: job_buffer r
                       else unlink_job (Z.pos child) (job_buffer r)) r))
        /\ tty_pgrp w' = self_pid w
        /\ sigdisp w' SIGINT = handler_ctrlc
        /\ sigdisp w' SIGTSTP = handler_ctrlz
        /\ sigdisp w' SIGTTOU = SIG_DFL
        /\ forks w' = fr
        /\ waits w' = ws
        /\ trace w' =
           (trace w ++ [Fork (Z.pos child); Setpgid (Z.pos child) (Z.pos child);
                        Tcsetpgrp (Z.pos child);
                        Waitpid (Z.pos child) WUNTRACED;
                        Tcsetpgrp (self_pid w)])%list)
     returns w.
Proof.
  intros Hi Hr Hpath Hh1 Hh2 Hparse Hlen Hf Hw Hst.
  unfold launch. rewrite Hparse.
  assert (Hone : (1 <? Z.of_nat (List.length commands)) = false)
    by (apply Z.ltb_ge; lia).
  rewrite Hone, Hh1, Hh2. cbn [orb]. wp_step. eapply wp_rsh_read; [eassumption|].
  destruct (Z.leb_spec PATH_LENGTH (Z.of_nat (String.length (path r)))); [lia|].
  wp_steps. rewrite Hf.
  assert (Hpos : (Z.pos child =? 0) = false) by (apply Z.eqb_neq; lia).
  assert (Hgt : (0 <? Z.pos child) = true) by (apply Z.ltb_lt; lia).
  rewrite Hpos, Hgt. wp_steps. eapply wp_rsh_write; [eassumption|]. wp_steps.
  rewrite Hw. cbn [wait_foreground]. wp_steps. rewrite Hw.
  assert (Hgo : negb (WIFEXITED st) && negb (WIFSIGNALED st) && negb (WIFSTOPPED st)
                = false).
  { destruct (WIFEXITED st), (WIFSIGNALED st), (WIFSTOPPED st);
      (reflexivity || discriminate). }
  rewrite Hgo. wp_steps.
  destruct (WIFSTOPPED st).
  - unfold __append_job. wp_step. apply wp_rsh_get_initialized; [assumption|].
    eapply wp_rsh_write; [reflexivity|]. wp_step.
    eapply wp_rsh_write; [reflexivity|]. wp_step. wsimpl.
    rewrite <- !app_assoc. repeat split.
  - unfold __remove_job. wp_step. apply wp_rsh_get_initialized; [assumption|].
    eapply wp_rsh_write; [reflexivity|]. wp_step.
    eapply wp_rsh_write; [reflexivity|]. wp_step. wsimpl.
    rewrite <- !app_assoc. repeat split.
Qed.

(** [__handle_input] reaches [launch] for a command that is no built-in. *)
Lemma handle_input_launch (argc : Z) (argv0 raw_input : string)
    (args : list string) (w : world) :
  rsh_initialized w = true ->
  argc <> 0 ->
  existsb (String.eqb argv0) ["exit"; "jobs"; "fg"; "bg"] = false ->
  __handle_input argc (argv0 :: args) raw_input w =
  (if String.eqb argv0 "clear"
   then print_lines 255 ;; launch (argv0 :: args) raw_input
   else launch (argv0 :: args) raw_input) w.
Proof.
  intros Hi Hargc Hb. cbn [existsb] in Hb.
  repeat (apply orb_false_elim in Hb; destruct Hb as [? Hb]).
  unfold __handle_input. rewrite bind_unfold, rsh_get_initialized by assumption.
  destruct (Z.eqb_spec argc 0); [contradiction|].
  repeat match goal with H : String.eqb _ _ = false |- _ => rewrite H; clear H end.
  destruct (String.eqb argv0 "clear"); reflexivity.
Qed.

Lemma handle_input_external (argc : Z) (argv0 raw_input : string)
    (args : list string) (w : world) :
  rsh_initialized w = true ->
  argc <> 0 ->
  builtin argv0 = false ->
  __handle_input argc (argv0 :: args) raw_input w = launch (argv0 :: args) raw_input w
  /\ String.eqb argv0 "history" = false
  /\ String.eqb argv0 "History" = false.
Proof.
  intros Hi Hargc Hb. unfold builtin in Hb. cbn [existsb] in Hb.
  repeat (apply orb_false_elim in Hb; destruct Hb as [? Hb]).
  repeat split; try assumption.
  rewrite handle_input_launch; try assumption.
  - match goal with H : String.eqb argv0 "clear" = false |- _ => rewrite H end.
    reflexivity.
  - cbn [existsb].
    repeat match goal with H : String.eqb _ _ = false |- _ => rewrite H; clear H end.
    reflexivity.
Qed.

(** A stopped process is neither exited nor killed. *)
Lemma WIFSTOPPED_exclusive (st : Z) :
  WIFSTOPPED st = true -> WIFEXITED st = false /\ WIFSIGNALED st = false.
Proof.
  unfold WIFSTOPPED, WIFEXITED, WIFSIGNALED, WTERMSIG. intros H.
  apply Z.eqb_eq in H.
  assert (H127 : Z.land st 127 = 127).
  { replace (Z.land st 127) with (Z.land (Z.land st 255) 127)
      by (rewrite <- Z.land_assoc; reflexivity).
    rewrite H. reflexivity. }
  rewrite H127. split; reflexivity.
Qed.

(** ** One record per pid *)

Lemma unlink_job_pids_incl (p q : Z) (jobs : list __job_node) :
  In q (job_pids (unlink_job p jobs)) -> In q (job_pids jobs).
Proof.
  induction jobs as [|j jobs IH]; cbn; [auto|].
  destruct (pid j =? p); cbn; [auto|]. intros [H|H]; auto.
Qed.

(** Removal keeps the pids of the list distinct. *)
Lemma unlink_job_NoDup (p : Z) (jobs : list __job_node) :
  NoDup (job_pids jobs) -> NoDup (job_pids (unlink_job p jobs)).
Proof.
  induction jobs as [|j jobs IH]; cbn; [auto|].
  intros H. inversion H as [|? ? Hnotin Hrest]; subst.
  destruct (pid j =? p); [assumption|]. cbn. constructor; [|auto].
  intros Hin. apply Hnotin. eapply unlink_job_pids_incl, Hin.
Qed.

(** Insertion keeps them distinct only for a pid that has no record. *)
Lemma append_job_NoDup (p : Z) (cmd : string) (st : Z) (jobs : list __job_node) :
  NoDup (job_pids jobs) -> ~ In p (job_pids jobs) ->
  NoDup (job_pids ({| pid := p; command := cmd; status := st |} :: jobs)).
Proof. intros H Hn. cbn. constructor; assumption. Qed.

(** From a job list with at most one record per pid, [__remove_job]
    (removal on exit), [bg] and [fg] lead to a job list with at most one
    record per pid; so do [__append_job] and the stop handler (insertion on
    stop) when the pid of the stopped process has no record in the list. *)
Lemma job_table_operations_keep_pids_distinct (w : world) (r : __rsh) :
  rsh_initialized w = true ->
  rsh w = Some r ->
  NoDup (job_pids (job_buffer r)) ->
  (forall p,
      exists w', __remove_job p w = Returned tt w'
                 /\ NoDup (job_pids (job_table w')))
  /\ (forall p cmd st,
         ~ In p (job_pids (job_buffer r)) ->
         exists w', __append_job p cmd st w = Returned tt w'
                    /\ NoDup (job_pids (job_table w')))
  /\ (forall argv1 raw_input,
         exists w', __handle_input 2 ["bg"; argv1] raw_input w = Returned 0 w'
                    /\ NoDup (job_pids (job_table w')))
  /\ (forall argv1 raw_input a ws,
         waits w = a :: ws ->
         exists w', __handle_input 2 ["fg"; argv1] raw_input w = Returned 0 w'
                    /\ NoDup (job_pids (job_table w')))
  /\ (forall sig st ws,
         running_process r <> 0 ->
         waits w = Some st :: ws ->
         ~ In (running_process r) (job_pids (job_buffer r)) ->
         exists w', __handle_ctrlz sig w = Returned tt w'
                    /\ NoDup (job_pids (job_table w'))).
Proof.
  intros Hi Hr Hnd. repeat split.
  - intros p. eexists. split; [apply remove_job_run; eassumption|].
    unfold job_table. cbn. apply unlink_job_NoDup, Hnd.
  - intros p cmd st Hfresh. eexists. split; [apply append_job_run; eassumption|].
    unfold job_table. cbn [rsh set_rsh job_buffer set_job_buffer].
    apply append_job_NoDup; assumption.
  - intros argv1 raw_input.
    cut (wp (__handle_input 2 ["bg"; argv1] raw_input)
            (fun res w' => res = 0 /\ NoDup (job_pids (job_table w'))) returns w).
    { intros H. apply wp_returned in H. destruct H as (res & w' & Hrun & -> & H).
      eauto. }
    unfold __handle_input. wp_step. apply wp_rsh_get_initialized; [assumption|].
    cbn [Z.eqb Z.ltb Z.compare Pos.compare Pos.compare_cont String.eqb Ascii.eqb
         Bool.eqb nth_error].
    wp_steps. unfold __remove_job. wp_step.
    apply wp_rsh_get_initialized; [assumption|].
    eapply wp_rsh_write; [eassumption|]. wp_steps. split; [reflexivity|].
    unfold job_table. cbn. apply unlink_job_NoDup, Hnd.
  - intros argv1 raw_input a ws Hw.
    destruct (fg_leaves_job_table w r argv1 raw_input [] 2 a ws Hi Hr) as
      (w' & Hrun & Hr' & _); [lia | assumption |].
    exists w'. split; [assumption|]. unfold job_table. rewrite Hr'. exact Hnd.
  - intros sig st ws Hrp Hw Hfresh.
    cut (wp (__handle_ctrlz sig)
            (fun _ w' => NoDup (job_pids (job_table w'))) returns w).
    { intros H. apply wp_returned in H. destruct H as ([] & w' & Hrun & H). eauto. }
    unfold __handle_ctrlz. wp_step. apply wp_rsh_get_initialized; [assumption|].
    wp_step. eapply wp_rsh_read; [eassumption|].
    destruct (Z.eqb_spec (running_process r) 0); [contradiction|]. cbn [negb].
    wp_steps. rewrite Hw. wp_step.
    destruct (WIFSTOPPED st).
    + unfold __append_job.
      wp_step. apply wp_rsh_get_initialized; [assumption|].
      eapply wp_rsh_write; [eassumption|].
      eapply wp_rsh_write; [reflexivity|].
      unfold job_table. cbn. constructor; assumption.
    + wp_step. eapply wp_rsh_write; [eassumption|].
      unfold job_table. cbn. exact Hnd.
Qed.

(** C6.  The job list does not keep at most one record per pid.  In a
    session whose job list has one record per pid, among them the Stopped
    record of the process [child]: [fg] with this pid resumes the process and
    waits for it, and when the process has ended its record is still in the
    list (removal on resume is missing, where [bg] has it).  When the next
    command is given the pid of the ended process and is stopped, insertion
    on stop puts a second record for this pid in front of the list. *)
Theorem job_table_gets_two_records_for_one_pid (w : world) (r : __rsh)
    (child : positive) (cmd raw_fg argv0 raw_input : string)
    (args : list string) (commands : list (list string)) (ended st : Z)
    (fr : list fork_result) (ws : list (option Z)) :
  rsh_initialized w = true ->
  rsh w = Some r ->
  NoDup (job_pids (job_buffer r)) ->
  In {| pid := Z.pos child; command := cmd; status := 1 |} (job_buffer r) ->
  Z.pos child < 2 ^ 31 ->
  Z.of_nat (String.length (path r)) < PATH_LENGTH ->
  builtin argv0 = false ->
  __parse_pipeline raw_input = Some commands ->
  (List.length commands <= 1)%nat ->
  forks w = in_parent child :: fr ->
  waits w = Some ended :: Some st :: ws ->
  WIFEXITED ended || WIFSIGNALED ended = true ->
  WIFSTOPPED st = true ->
  exists w1 w2,
    __handle_input 2 ["fg"; decimal (Z.pos child)] raw_fg w = Returned 0 w1
    /\ trace w1 =
       (trace w ++ [Tcsetpgrp (Z.pos child); Kill (- Z.pos child) SIGCONT;
                    Waitpid (Z.pos child) WUNTRACED; Tcsetpgrp (self_pid w)])%list
    /\ job_table w1 = job_buffer r
    /\ __handle_input (Z.of_nat (S (List.length args))) (argv0 :: args) raw_input w1
       = Returned 0 w2
    /\ job_table w2 =
       {| pid := Z.pos child; command := argv0; status := 1 |} :: job_buffer r
    /\ (2 <= List.length (records_of (Z.pos child) (job_table w2)))%nat
    /\ ~ NoDup (job_pids (job_table w2)).
Proof.
  intros Hi Hr Hnd Hin Hrange Hpath Hb Hparse Hlen Hf Hw Hended Hst.
  assert (Hatoi : atoi (decimal (Z.pos child)) = Z.pos child)
    by (apply atoi_decimal; lia).
  destruct (fg_leaves_job_table w r (decimal (Z.pos child)) raw_fg [] 2
              (Some ended) (Some st :: ws) Hi Hr) as
    (w1 & Hrun1 & Hr1 & _ & Ht1); [lia | assumption |].
  rewrite Hatoi in Ht1.
  assert (Hi1 : rsh_initialized w1 = true /\ forks w1 = forks w
                /\ waits w1 = Some st :: ws).
  { revert Hrun1. unfold __handle_input. rewrite bind_unfold.
    rewrite rsh_get_initialized by assumption.
    cbn [Z.eqb Z.ltb Z.compare Pos.compare Pos.compare_cont String.eqb Ascii.eqb
         Bool.eqb nth_error].
    unfold give_terminal, tcsetpgrp, kill, waitpid, getpid, emit, modify, gets.
    cbn. rewrite Hw. cbn. intros [= <-]. cbn. auto. }
  destruct Hi1 as (Hi1 & Hf1 & Hw1). rewrite Hf in Hf1.
  assert (Hargc : Z.of_nat (S (List.length args)) <> 0) by lia.
  destruct (handle_input_external (Z.of_nat (S (List.length args))) argv0
              raw_input args w1 Hi1 Hargc Hb) as (Hlaunch & Hh1 & Hh2).
  pose proof (launch_single_parent w1 r argv0 raw_input args commands child fr st ws
                Hi1 Hr1 Hpath Hh1 Hh2 Hparse Hlen Hf1 Hw1) as H.
  rewrite Hst, orb_true_r in H. specialize (H eq_refl).
  apply wp_returned in H.
  destruct H as (res & w2 & Hrun2 & -> & Hr2 & _).
  exists w1, w2. rewrite Hlaunch.
  assert (Hrec : In (Z.pos child) (job_pids (job_buffer r))).
  { unfold job_pids. change (Z.pos child)
      with (pid {| pid := Z.pos child; command := cmd; status := 1 |}).
    apply in_map, Hin. }
  unfold job_table. rewrite Hr1, Hr2.
  cbn [option_map job_buffer set_job_buffer set_running_process].
  repeat split; try assumption.
  - rewrite records_of_cons by reflexivity. cbn [List.length].
    destruct (records_of (Z.pos child) (job_buffer r)) eqn:Hnone; [|cbn; lia].
    apply records_of_nil_iff in Hnone. contradiction.
  - cbn [job_pids map pid]. intros Hdup.
    inversion Hdup as [|? ? Hnotin _]. apply Hnotin, Hrec.
Qed.

(** The job [vim], process 1234, is resumed with [fg 1234] and exits; the
    next [vim] is process 1234 again and is stopped.  The same happens when
    the two lines are typed at the prompt. *)
Lemma job_table_gets_two_records_for_one_pid_witness :
  (exists w1 w2,
      __handle_input 2 ["fg"; decimal 1234] "fg 1234" (pid_reused [])
      = Returned 0 w1
      /\ trace w1 =
         (trace (pid_reused []) ++
          [Tcsetpgrp 1234; Kill (- 1234) SIGCONT; Waitpid 1234 WUNTRACED;
           Tcsetpgrp (self_pid (pid_reused []))])%list
      /\ job_table w1 = [ {| pid := 1234; command := "vim"; status := 1 |} ]
      /\ __handle_input (Z.of_nat (S (List.length (@nil string)))) ["vim"] "vim" w1
         = Returned 0 w2
      /\ job_table w2 =
         [ {| pid := 1234; command := "vim"; status := 1 |};
           {| pid := 1234; command := "vim"; status := 1 |} ]
      /\ (2 <= List.length (records_of 1234 (job_table w2)))%nat
      /\ ~ NoDup (job_pids (job_table w2)))
  /\ (exists w',
         main_loop 2 (pid_reused (typed "fg 1234" ++ typed "vim")) = Returned tt w'
         /\ job_table w' =
            [ {| pid := 1234; command := "vim"; status := 1 |};
              {| pid := 1234; command := "vim"; status := 1 |} ]).
Proof.
  split.
  - refine (job_table_gets_two_records_for_one_pid (pid_reused []) _ 1234 "vim"
              "fg 1234" "vim" "vim" [] [["vim"]] (W_EXITCODE 0 0)
              (W_STOPCODE SIGTSTP) [] []
              eq_refl eq_refl _ (or_introl eq_refl) _ _ eq_refl _ _
              eq_refl eq_refl eq_refl eq_refl).
    + repeat constructor. intros [].
    + reflexivity.
    + reflexivity.
    + vm_compute. reflexivity.
    + simpl. lia.
  - eexists. split; [vm_compute; reflexivity | reflexivity].
Defined.

(** * Further properties of the code *)

(** ** Worlds *)

Lemma set_rsh_same (w : world) : set_rsh (rsh w) w = w.
Proof. destruct w; reflexivity. Qed.

Lemma set_trace_same (w : world) : set_trace (trace w) w = w.
Proof. destruct w; reflexivity. Qed.

(** ** The session *)

(** X1.  [__rsh_get] always returns and is idempotent: the first call creates
    the session, later calls change nothing.  The first call saves the
    discipline of the terminal, puts the terminal in raw mode, registers
    [__disable_raw_mode] with [atexit], installs the handlers of SIGINT and
    SIGTSTP and leaves every other disposition alone; the new session has
    capacity 16, no foreground process, the search path of the environment
    or ["/bin:/usr/bin"] when PATH is not set, and a history that holds only
    its head node. *)
Theorem rsh_get_creates_session_once (w : world) :
  exists w',
    __rsh_get w = Returned tt w'
    /\ rsh_initialized w' = true
    /\ __rsh_get w' = Returned tt w'
    /\ (rsh_initialized w = true -> w' = w)
    /\ (rsh_initialized w = false ->
        (exists r,
            rsh w' = Some r
            /\ capacity r = 16
            /\ running_process r = 0
            /\ path r = match env_PATH w with
                        | Some s => s
                        | None => "/bin:/usr/bin"
                        end
            /\ hist_buffer r = [ {| hist_command := None |} ])
        /\ orig_termios w' = tty w
        /\ tty w' = raw_of (tty w)
        /\ atexit_fns w' = fn_disable_raw_mode :: atexit_fns w
        /\ sigdisp w' SIGINT = handler_ctrlc
        /\ sigdisp w' SIGTSTP = handler_ctrlz
        /\ (forall s, s <> SIGINT -> s <> SIGTSTP -> sigdisp w' s = sigdisp w s)
        /\ trace w' = (trace w ++ [Tcsetattr (raw_of (tty w))])%list).
Proof.
  destruct (rsh_initialized w) eqn:Hi.
  - exists w. rewrite rsh_get_initialized by assumption.
    repeat split; auto; discriminate.
  - eexists. split.
    + unfold __rsh_get, gets. cbn. rewrite Hi. cbn. reflexivity.
    + cbn. repeat split; try discriminate.
      * eexists. repeat split.
      * intros s Hs1 Hs2.
        destruct (Z.eqb_spec s SIGTSTP); [contradiction|].
        destruct (Z.eqb_spec s SIGINT); [contradiction|]. reflexivity.
Qed.

(** ** Raw mode *)

Lemma testbit_pow2 (k n : Z) : 0 <= k -> Z.testbit (2 ^ k) n = (k =? n).
Proof. intros Hk. apply Z.pow2_bits_eqb. assumption. Qed.

Lemma land_lnot_idem (a m : Z) :
  Z.land (Z.land a (Z.lnot m)) (Z.lnot m) = Z.land a (Z.lnot m).
Proof. rewrite <- Z.land_assoc, Z.land_diag. reflexivity. Qed.

Lemma lor_idem (a m : Z) : Z.lor (Z.lor a m) m = Z.lor a m.
Proof. rewrite <- Z.lor_assoc, Z.lor_diag. reflexivity. Qed.

Lemma raw_of_idempotent (t : termios) : raw_of (raw_of t) = raw_of t.
Proof.
  unfold raw_of. cbn [c_iflag c_oflag c_cflag c_lflag c_line c_cc c_ispeed c_ospeed].
  rewrite !land_lnot_idem, lor_idem. reflexivity.
Qed.

(** X2.  [__enable_raw_mode] saves the discipline of the terminal and installs
    one that differs from it in exactly these bits: BRKINT, ICRNL, INPCK,
    ISTRIP and IXON (bits 1, 8, 4, 5, 10 of the input flags), OPOST (bit 0
    of the output flags) and ECHO, ICANON and IEXTEN (bits 3, 1, 15 of the
    local flags) are off, and CS8 (bits 4 and 5 of the control flags) is on.
    Every other bit, ISIG among them, the control characters and the speeds
    are as they were; and the raw discipline of a raw discipline is the
    same discipline. *)
Theorem enable_raw_mode_flags (w : world) :
  exists w',
    __enable_raw_mode w = Returned tt w'
    /\ orig_termios w' = tty w
    /\ (forall n, 0 <= n ->
          Z.testbit (c_iflag (tty w')) n =
          Z.testbit (c_iflag (tty w)) n && negb (existsb (Z.eqb n) [1; 4; 5; 8; 10]))
    /\ (forall n, 0 <= n ->
          Z.testbit (c_oflag (tty w')) n =
          Z.testbit (c_oflag (tty w)) n && negb (n =? 0))
    /\ (forall n, 0 <= n ->
          Z.testbit (c_cflag (tty w')) n =
          Z.testbit (c_cflag (tty w)) n || existsb (Z.eqb n) [4; 5])
    /\ (forall n, 0 <= n ->
          Z.testbit (c_lflag (tty w')) n =
          Z.testbit (c_lflag (tty w)) n && negb (existsb (Z.eqb n) [1; 3; 15]))
    /\ c_line (tty w') = c_line (tty w)
    /\ c_cc (tty w') = c_cc (tty w)
    /\ c_ispeed (tty w') = c_ispeed (tty w)
    /\ c_ospeed (tty w') = c_ospeed (tty w)
    /\ raw_of (tty w') = tty w'.
Proof.
  eexists. split; [reflexivity|]. cbn [tty set_tty set_trace set_atexit_fns
    set_orig_termios orig_termios]. unfold raw_of at 1 2 3 4 5 6 7 8.
  cbn [c_iflag c_oflag c_cflag c_lflag c_line c_cc c_ispeed c_ospeed].
  repeat split.
  - intros n Hn. rewrite Z.land_spec, Z.lnot_spec, !Z.lor_spec by assumption.
    f_equal. f_equal. cbn [existsb].
    change BRKINT with (2 ^ 1). change ICRNL with (2 ^ 8). change INPCK with (2 ^ 4).
    change ISTRIP with (2 ^ 5). change IXON with (2 ^ 10).
    rewrite !testbit_pow2 by lia.
    rewrite (Z.eqb_sym n 1), (Z.eqb_sym n 4), (Z.eqb_sym n 5), (Z.eqb_sym n 8),
      (Z.eqb_sym n 10).
    destruct (1 =? n), (4 =? n), (5 =? n), (8 =? n), (10 =? n); reflexivity.
  - intros n Hn. rewrite Z.land_spec, Z.lnot_spec by assumption.
    change OPOST with (2 ^ 0). rewrite testbit_pow2 by lia.
    rewrite (Z.eqb_sym n 0). reflexivity.
  - intros n Hn. rewrite Z.lor_spec. f_equal. cbn [existsb].
    change CS8 with (Z.lor (2 ^ 4) (2 ^ 5)). rewrite Z.lor_spec.
    rewrite !testbit_pow2 by lia.
    rewrite (Z.eqb_sym n 4), (Z.eqb_sym n 5), orb_false_r. reflexivity.
  - intros n Hn. rewrite Z.land_spec, Z.lnot_spec, !Z.lor_spec by assumption.
    f_equal. f_equal. cbn [existsb].
    change ECHO with (2 ^ 3). change ICANON with (2 ^ 1). change IEXTEN with (2 ^ 15).
    rewrite !testbit_pow2 by lia.
    rewrite (Z.eqb_sym n 1), (Z.eqb_sym n 3), (Z.eqb_sym n 15).
    destruct (1 =? n), (3 =? n), (15 =? n); reflexivity.
  - apply raw_of_idempotent.
Qed.

(** ** The interrupt and stop handlers *)

(** X3.  [__handle_ctrlc], in a session: with a foreground process it sends
    SIGINT to that process and returns, and nothing else changes (the shell
    does not exit and still tracks the process); with none it prints a line
    break, destroys the session, runs the [atexit] function, which writes the
    saved discipline back, and exits with status 0. *)
Theorem handle_ctrlc_interrupts_or_exits (sig : Z) (w : world) (r : __rsh) :
  rsh_initialized w = true ->
  rsh w = Some r ->
  (running_process r <> 0 ->
   __handle_ctrlc sig w =
   Returned tt (set_trace (trace w ++ [Kill (running_process r) SIGINT]) w))
  /\ (running_process r = 0 ->
      atexit_fns w = [fn_disable_raw_mode] ->
      exists w',
        __handle_ctrlc sig w = Halted (Exit 0) w'
        /\ rsh w' = None
        /\ tty w' = orig_termios w
        /\ trace w' = (trace w ++ [Stdout CRLF; Tcsetattr (orig_termios w)])%list).
Proof.
  intros Hi Hr. split.
  - intros Hrp. unfold __handle_ctrlc, rsh_read. run.
    destruct (Z.eqb_spec (running_process r) 0); [contradiction|]. reflexivity.
  - intros Hrp Hfns. unfold __handle_ctrlc, rsh_read. run. rewrite Hrp. cbn.
    rewrite Hfns. cbn. eexists. split; [reflexivity|]. cbn.
    rewrite <- app_assoc. auto.
Qed.

Lemma handle_ctrlc_interrupts_or_exits_witness :
  __handle_ctrlc SIGINT stopped_vim =
  Returned tt (set_trace [Kill 1234 SIGINT] stopped_vim)
  /\ (exists w',
        __handle_ctrlc SIGINT (one_stopped_job []) = Halted (Exit 0) w'
        /\ rsh w' = None
        /\ tty w' = cooked
        /\ trace w' = [Stdout CRLF; Tcsetattr cooked]).
Proof.
  split.
  - refine (proj1 (handle_ctrlc_interrupts_or_exits SIGINT stopped_vim _ eq_refl eq_refl) _).
    discriminate.
  - exact (proj2 (handle_ctrlc_interrupts_or_exits SIGINT (one_stopped_job []) _
                    eq_refl eq_refl) eq_refl eq_refl).
Defined.

(** X4.  [__handle_ctrlz], in a session: with no foreground process it does
    nothing at all; with a foreground process that [waitpid] does not report
    as stopped (it ended), it sends SIGTSTP and waits, adds no record to the
    job list, and clears [running_process]. *)
Theorem handle_ctrlz_without_stopped_process (sig : Z) (w : world) (r : __rsh) :
  rsh_initialized w = true ->
  rsh w = Some r ->
  (running_process r = 0 -> __handle_ctrlz sig w = Returned tt w)
  /\ (forall st ws,
         running_process r <> 0 ->
         waits w = Some st :: ws ->
         WIFSTOPPED st = false ->
         exists w',
           __handle_ctrlz sig w = Returned tt w'
           /\ job_table w' = job_buffer r
           /\ foreground_pid w' = Some 0
           /\ trace w' =
              (trace w ++ [Kill (running_process r) SIGTSTP;
                           Waitpid (running_process r) WUNTRACED])%list).
Proof.
  intros Hi Hr. split.
  - intros Hrp. unfold __handle_ctrlz, rsh_read. run. rewrite Hrp. reflexivity.
  - intros st ws Hrp Hw Hst. unfold __handle_ctrlz, rsh_read. run.
    destruct (Z.eqb_spec (running_process r) 0); [contradiction|].
    run. rewrite Hst. unfold rsh_write. run.
    eexists. split; [reflexivity|]. unfold job_table, foreground_pid. cbn.
    rewrite <- app_assoc. auto.
Qed.

Lemma handle_ctrlz_without_stopped_process_witness :
  __handle_ctrlz SIGTSTP (one_stopped_job []) = Returned tt (one_stopped_job [])
  /\ (exists w',
        __handle_ctrlz SIGTSTP exited_vim = Returned tt w'
        /\ job_table w' = []
        /\ foreground_pid w' = Some 0
        /\ trace w' = [Kill 1234 SIGTSTP; Waitpid 1234 WUNTRACED]).
Proof.
  split.
  - exact (proj1 (handle_ctrlz_without_stopped_process SIGTSTP (one_stopped_job []) _
                    eq_refl eq_refl) eq_refl).
  - refine (proj2 (handle_ctrlz_without_stopped_process SIGTSTP exited_vim _
                     eq_refl eq_refl) (W_EXITCODE 0 0) [] _ eq_refl eq_refl).
    discriminate.
Defined.

(** ** The job list and its listing *)

Lemma print_jobs_run (jobs : list __job_node) :
  forall w,
    print_jobs jobs w =
    Returned tt
      (set_trace
         (trace w ++
          map (fun j =>
                 Stdout ("[" ++ decimal (pid j) ++ "] "
                         ++ (if status j =? 1 then "Stopped" else "Running")
                         ++ String TAB (command j) ++ String LF "")) jobs) w).
Proof.
  induction jobs as [|j jobs IH]; intros w.
  - cbn [print_jobs map]. rewrite app_nil_r, set_trace_same. reflexivity.
  - cbn [print_jobs map]. rewrite bind_unfold. unfold printf at 1, emit, modify.
    rewrite IH. wsimpl. rewrite <- app_assoc. reflexivity.
Qed.

(** X5.  The built-in [jobs] prints one line per record of the job list, from
    the head of the list (the record added last) on, in the form
    "[pid] Stopped<TAB>command" (or Running for a state other than 1),
    returns 0 and changes nothing else; its other arguments and the raw line
    are not looked at, so [jobs | wc] is the built-in and no pipeline. *)
Theorem jobs_lists_the_table (argc : Z) (args : list string) (raw_input : string)
    (w : world) (r : __rsh) :
  rsh_initialized w = true ->
  rsh w = Some r ->
  argc <> 0 ->
  __handle_input argc ("jobs" :: args) raw_input w =
  Returned 0
    (set_trace
       (trace w ++
        map (fun j =>
               Stdout ("[" ++ decimal (pid j) ++ "] "
                       ++ (if status j =? 1 then "Stopped" else "Running")
                       ++ String TAB (command j) ++ String LF "")) (job_buffer r)) w).
Proof.
  intros Hi Hr Hargc. unfold __handle_input.
  rewrite bind_unfold, rsh_get_initialized by assumption.
  destruct (Z.eqb_spec argc 0); [contradiction|].
  cbn [String.eqb Ascii.eqb Bool.eqb]. rewrite bind_unfold.
  unfold rsh_read. rewrite Hr. rewrite bind_unfold, print_jobs_run. reflexivity.
Qed.

Lemma jobs_lists_the_table_witness :
  __handle_input 3 ["jobs"; "|"; "wc"] "jobs | wc" (one_stopped_job []) =
  Returned 0
    (set_trace [Stdout ("[1234] Stopped" ++ String TAB "vim" ++ String LF "")]
       (one_stopped_job [])).
Proof.
  refine (jobs_lists_the_table 3 ["|"; "wc"] "jobs | wc" (one_stopped_job []) _
            eq_refl eq_refl _).
  discriminate.
Defined.

(** X6.  [__append_job] followed by [__remove_job] for the same pid leaves the
    world as it was: the record put at the head is the first one with that
    pid, and it is the one taken out. *)
Theorem append_then_remove_job (p : Z) (cmd : string) (st : Z) (w : world)
    (r : __rsh) :
  rsh_initialized w = true ->
  rsh w = Some r ->
  (__append_job p cmd st ;; __remove_job p) w = Returned tt w.
Proof.
  intros Hi Hr. rewrite bind_unfold, (append_job_run p cmd st w r Hi Hr).
  erewrite remove_job_run; [|exact Hi|reflexivity].
  cbn [job_buffer set_job_buffer unlink_job pid]. rewrite Z.eqb_refl.
  f_equal. destruct w, r; cbn in *. rewrite Hr. reflexivity.
Qed.

Lemma append_then_remove_job_witness :
  (__append_job 1234 "top" 1 ;; __remove_job 1234) (one_stopped_job [])
  = Returned tt (one_stopped_job []).
Proof.
  exact (append_then_remove_job 1234 "top" 1 (one_stopped_job []) _ eq_refl eq_refl).
Defined.

(** ** [bg] with the pid as listed *)

(** X7.  For a pid in the range of [pid_t], [atoi] reads back the pid that
    [jobs] prints with "%d"; so [bg] with the pid as listed sends SIGCONT to
    exactly that process (not to its group), takes the first record with
    that pid out of the job list and returns 0.  Outside that range [atoi]
    wraps, and [bg] would signal another process. *)
Theorem bg_with_listed_pid_removes_record (p : Z) (raw_input : string)
    (w : world) (r : __rsh) :
  - 2 ^ 31 <= p < 2 ^ 31 ->
  rsh_initialized w = true ->
  rsh w = Some r ->
  atoi (decimal p) = p
  /\ atoi (decimal (p + 2 ^ 32)) = p
  /\ __handle_input 2 ["bg"; decimal p] raw_input w =
     Returned 0
       (set_rsh (Some (set_job_buffer (unlink_job p (job_buffer r)) r))
          (set_trace (trace w ++ [Kill p SIGCONT]) w)).
Proof.
  intros Hp Hi Hr. split; [apply atoi_decimal, Hp|]. split.
  { unfold atoi. rewrite strtol_decimal.
    assert (Hclamp : Z.max LONG_MIN (Z.min LONG_MAX (p + 2 ^ 32)) = p + 2 ^ 32).
    { unfold LONG_MIN, LONG_MAX. change (2 ^ 63) with 9223372036854775808.
      change (2 ^ 32) with 4294967296.
      change (2 ^ 31) with 2147483648 in Hp. lia. }
    rewrite Hclamp. unfold to_int.
    change (2 ^ 32) with 4294967296. change (2 ^ 31) with 2147483648 in *.
    replace (p + 4294967296 + 2147483648)
      with (p + 2147483648 + 1 * 4294967296) by lia.
    rewrite Z.mod_add by lia. rewrite Z.mod_small; lia. }
  unfold __handle_input. rewrite bind_unfold, rsh_get_initialized by assumption.
  cbn [Z.eqb Z.ltb Z.compare Pos.compare Pos.compare_cont String.eqb Ascii.eqb
       Bool.eqb nth_error].
  rewrite (atoi_decimal p Hp). rewrite bind_unfold.
  unfold kill at 1, emit, modify.
  rewrite bind_unfold.
  erewrite remove_job_run; [reflexivity | exact Hi | exact Hr].
Qed.

Lemma bg_with_listed_pid_removes_record_witness :
  - 2 ^ 31 <= 1234 < 2 ^ 31
  /\ atoi (decimal 1234) = 1234
  /\ atoi (decimal (1234 + 2 ^ 32)) = 1234
  /\ __handle_input 2 ["bg"; decimal 1234] "bg 1234" (one_stopped_job []) =
     Returned 0
       (set_rsh (Some (rsh_with 0 ["vim"] []))
          (set_trace [Kill 1234 SIGCONT] (one_stopped_job []))).
Proof.
  assert (Hp : - 2 ^ 31 <= 1234 < 2 ^ 31) by (cbn; lia).
  split; [exact Hp|].
  exact (bg_with_listed_pid_removes_record 1234 "bg 1234" (one_stopped_job []) _
           Hp eq_refl eq_refl).
Defined.

(** ** A single command *)

(** X8.  A single command that is no built-in, on the parent side: when the
    child ends (it exits with any status, or a signal kills it),
    [__handle_input] returns 0 whatever the status was.  The child was put in
    a group of its own and given the terminal; afterwards the terminal is
    back with the shell, the handlers of SIGINT and SIGTSTP are installed
    again, no foreground process is tracked, and the first record with the
    pid of the child, if there is one, is taken out of the job list. *)
Theorem foreground_command_status_is_dropped (w : world) (r : __rsh)
    (argc : Z) (argv0 raw_input : string) (args : list string)
    (commands : list (list string)) (child : positive)
    (fr : list fork_result) (st : Z) (ws : list (option Z)) :
  rsh_initialized w = true ->
  rsh w = Some r ->
  Z.of_nat (String.length (path r)) < PATH_LENGTH ->
  argc <> 0 ->
  builtin argv0 = false ->
  __parse_pipeline raw_input = Some commands ->
  (List.length commands <= 1)%nat ->
  forks w = in_parent child :: fr ->
  waits w = Some st :: ws ->
  WIFEXITED st || WIFSIGNALED st = true ->
  exists w',
    __handle_input argc (argv0 :: args) raw_input w = Returned 0 w'
    /\ job_table w' = unlink_job (Z.pos child) (job_buffer r)
    /\ foreground_pid w' = Some 0
    /\ tty_pgrp w' = self_pid w
    /\ sigdisp w' SIGINT = handler_ctrlc
    /\ sigdisp w' SIGTSTP = handler_ctrlz
    /\ trace w' =
       (trace w ++ [Fork (Z.pos child); Setpgid (Z.pos child) (Z.pos child);
                    Tcsetpgrp (Z.pos child); Waitpid (Z.pos child) WUNTRACED;
                    Tcsetpgrp (self_pid w)])%list.
Proof.
  intros Hi Hr Hpath Hargc Hb Hparse Hlen Hf Hw Hst.
  destruct (handle_input_external argc argv0 raw_input args w Hi Hargc Hb)
    as (-> & Hh1 & Hh2).
  assert (Hns : WIFSTOPPED st = false).
  { destruct (WIFSTOPPED st) eqn:Hs; [|reflexivity].
    destruct (WIFSTOPPED_exclusive st Hs) as [He Hk]. rewrite He, Hk in Hst.
    discriminate. }
  pose proof (launch_single_parent w r argv0 raw_input args commands child fr st ws
                Hi Hr Hpath Hh1 Hh2 Hparse Hlen Hf Hw) as H.
  rewrite Hns, orb_false_r in H. specialize (H Hst).
  apply wp_returned in H.
  destruct H as (res & w' & Hrun & -> & Hr' & Hpg & Hs1 & Hs2 & _ & _ & _ & Ht).
  exists w'. unfold job_table, foreground_pid. rewrite Hr'. cbn. auto 10.
Qed.

Lemma foreground_command_status_is_dropped_witness :
  exists w',
    __handle_input 2 ["ls"; "/nowhere"] "ls /nowhere"
      (at_prompt [in_parent 101] [Some (W_EXITCODE 2 0)])
    = Returned 0 w'
    /\ job_table w' = []
    /\ foreground_pid w' = Some 0
    /\ tty_pgrp w' = 500
    /\ sigdisp w' SIGINT = handler_ctrlc
    /\ sigdisp w' SIGTSTP = handler_ctrlz
    /\ trace w' = [Fork 101; Setpgid 101 101; Tcsetpgrp 101; Waitpid 101 WUNTRACED;
                   Tcsetpgrp 500].
Proof.
  refine (foreground_command_status_is_dropped
            (at_prompt [in_parent 101] [Some (W_EXITCODE 2 0)]) _ 2 "ls" "ls /nowhere"
            ["/nowhere"] [["ls"; "/nowhere"]] 101 [] (W_EXITCODE 2 0) []
            eq_refl eq_refl eq_refl _ eq_refl _ _ eq_refl eq_refl eq_refl).
  - discriminate.
  - vm_compute. reflexivity.
  - simpl. lia.
Defined.

(** X9.  A single command that is no built-in, on the parent side: when
    [waitpid] reports the child as stopped, a record with the pid of the
    child, the name [argv[0]] (not the whole line) and the state Stopped is
    put at the head of the job list; [__handle_input] returns 0, the terminal
    is back with the shell and no foreground process is tracked. *)
Theorem stopped_foreground_command_becomes_job (w : world) (r : __rsh)
    (argc : Z) (argv0 raw_input : string) (args : list string)
    (commands : list (list string)) (child : positive)
    (fr : list fork_result) (st : Z) (ws : list (option Z)) :
  rsh_initialized w = true ->
  rsh w = Some r ->
  Z.of_nat (String.length (path r)) < PATH_LENGTH ->
  argc <> 0 ->
  builtin argv0 = false ->
  __parse_pipeline raw_input = Some commands ->
  (List.length commands <= 1)%nat ->
  forks w = in_parent child :: fr ->
  waits w = Some st :: ws ->
  WIFSTOPPED st = true ->
  exists w',
    __handle_input argc (argv0 :: args) raw_input w = Returned 0 w'
    /\ job_table w' =
       {| pid := Z.pos child; command := argv0; status := 1 |} :: job_buffer r
    /\ foreground_pid w' = Some 0
    /\ tty_pgrp w' = self_pid w
    /\ sigdisp w' SIGINT = handler_ctrlc
    /\ sigdisp w' SIGTSTP = handler_ctrlz.
Proof.
  intros Hi Hr Hpath Hargc Hb Hparse Hlen Hf Hw Hst.
  destruct (handle_input_external argc argv0 raw_input args w Hi Hargc Hb)
    as (-> & Hh1 & Hh2).
  pose proof (launch_single_parent w r argv0 raw_input args commands child fr st ws
                Hi Hr Hpath Hh1 Hh2 Hparse Hlen Hf Hw) as H.
  rewrite Hst, orb_true_r in H. specialize (H eq_refl).
  apply wp_returned in H.
  destruct H as (res & w' & Hrun & -> & Hr' & Hpg & Hs1 & Hs2 & _).
  exists w'. unfold job_table, foreground_pid. rewrite Hr'. cbn. auto 10.
Qed.

Lemma stopped_foreground_command_becomes_job_witness :
  exists w',
    __handle_input 2 ["ls"; "-R"] "ls -R"
      (at_prompt [in_parent 101] [Some (W_STOPCODE SIGTSTP)])
    = Returned 0 w'
    /\ job_table w' = [ {| pid := 101; command := "ls"; status := 1 |} ]
    /\ foreground_pid w' = Some 0
    /\ tty_pgrp w' = 500
    /\ sigdisp w' SIGINT = handler_ctrlc
    /\ sigdisp w' SIGTSTP = handler_ctrlz.
Proof.
  refine (stopped_foreground_command_becomes_job
            (at_prompt [in_parent 101] [Some (W_STOPCODE SIGTSTP)]) _ 2 "ls" "ls -R"
            ["-R"] [["ls"; "-R"]] 101 [] (W_STOPCODE SIGTSTP) []
            eq_refl eq_refl eq_refl _ eq_refl _ _ eq_refl eq_refl eq_refl).
  - discriminate.
  - vm_compute. reflexivity.
  - simpl. lia.
Defined.

(** X10.  When [fork] fails for a single command, [__handle_input] prints
    "Error: Fork failed" on the standard error stream and returns -1; the
    session is as it was and nothing else is done. *)
Theorem fork_failure_is_reported (w : world) (r : __rsh)
    (argc : Z) (argv0 raw_input : string) (args : list string)
    (commands : list (list string)) (fr : list fork_result) :
  rsh_initialized w = true ->
  rsh w = Some r ->
  Z.of_nat (String.length (path r)) < PATH_LENGTH ->
  argc <> 0 ->
  builtin argv0 = false ->
  __parse_pipeline raw_input = Some commands ->
  (List.length commands <= 1)%nat ->
  forks w = fork_failed :: fr ->
  __handle_input argc (argv0 :: args) raw_input w =
  Returned (-1)
    (set_forks fr
       (set_trace (trace w ++ [Fork (-1); Stderr ("Error: Fork failed" ++ CRLF)]) w)).
Proof.
  intros Hi Hr Hpath Hargc Hb Hparse Hlen Hf.
  destruct (handle_input_external argc argv0 raw_input args w Hi Hargc Hb)
    as (-> & Hh1 & Hh2).
  unfold launch. rewrite Hparse.
  assert (Hone : (1 <? Z.of_nat (List.length commands)) = false)
    by (apply Z.ltb_ge; lia).
  rewrite Hone, Hh1, Hh2. cbn [orb]. rewrite bind_unfold. unfold rsh_read.
  rewrite Hr.
  destruct (Z.leb_spec PATH_LENGTH (Z.of_nat (String.length (path r)))); [lia|].
  rewrite bind_unfold. unfold fork. rewrite Hf. cbn [Z.eqb Z.ltb Z.compare].
  cbn. rewrite <- app_assoc. destruct w; reflexivity.
Qed.

Lemma fork_failure_is_reported_witness :
  __handle_input 1 ["ls"] "ls" (at_prompt [fork_failed] []) =
  Returned (-1)
    (set_forks []
       (set_trace [Fork (-1); Stderr ("Error: Fork failed" ++ CRLF)]
          (at_prompt [fork_failed] []))).
Proof.
  refine (fork_failure_is_reported (at_prompt [fork_failed] []) _ 1 "ls" "ls" []
            [["ls"]] [] eq_refl eq_refl eq_refl _ eq_refl _ _ eq_refl).
  - discriminate.
  - vm_compute. reflexivity.
  - simpl. lia.
Defined.

(** X11.  The child that [fork] creates for a single command never comes back
    into the shell: it puts itself in a new process group and calls
    [execvp]; either the program replaces the process image, or the child
    reports "execvp failed" and ends with [_exit(127)].  The session is not
    touched. *)
Theorem single_command_child_never_returns (w : world) (r : __rsh)
    (argc : Z) (argv0 raw_input : string) (args : list string)
    (commands : list (list string)) (me : positive) (fr : list fork_result) :
  rsh_initialized w = true ->
  rsh w = Some r ->
  Z.of_nat (String.length (path r)) < PATH_LENGTH ->
  argc <> 0 ->
  builtin argv0 = false ->
  __parse_pipeline raw_input = Some commands ->
  (List.length commands <= 1)%nat ->
  forks w = in_child me :: fr ->
  exists w',
    __handle_input argc (argv0 :: args) raw_input w =
    Halted (if exec_ok w argv0
            then Image_replaced argv0 (argv0 :: args)
            else Exit_now 127) w'
    /\ rsh w' = rsh w
    /\ trace w' =
       (trace w ++ [Fork 0; Setpgid 0 0; Execvp (Some argv0) (argv0 :: args)]
        ++ (if exec_ok w argv0 then [] else [Perror "execvp failed"]))%list.
Proof.
  intros Hi Hr Hpath Hargc Hb Hparse Hlen Hf.
  destruct (handle_input_external argc argv0 raw_input args w Hi Hargc Hb)
    as (-> & Hh1 & Hh2).
  cut (wp (launch (argv0 :: args) raw_input)
          (fun _ _ => False)
          (fun h w' =>
             h = (if exec_ok w argv0
                  then Image_replaced argv0 (argv0 :: args)
                  else Exit_now 127)
             /\ rsh w' = rsh w
             /\ trace w' =
                (trace w ++ [Fork 0; Setpgid 0 0; Execvp (Some argv0) (argv0 :: args)]
                 ++ (if exec_ok w argv0 then [] else [Perror "execvp failed"]))%list)
          w).
  { unfold wp. destruct (launch _ _ w) as [a w'|h w'];
      [contradiction | intros (-> & H1 & H2); eauto]. }
  unfold launch. rewrite Hparse.
  assert (Hone : (1 <? Z.of_nat (List.length commands)) = false)
    by (apply Z.ltb_ge; lia).
  rewrite Hone, Hh1, Hh2. cbn [orb]. wp_step. eapply wp_rsh_read; [eassumption|].
  destruct (Z.leb_spec PATH_LENGTH (Z.of_nat (String.length (path r)))); [lia|].
  wp_steps. rewrite Hf. cbn [Z.eqb]. wp_steps.
  destruct (exec_ok w argv0); wp_steps; rewrite <- !app_assoc; auto.
Qed.

Lemma single_command_child_never_returns_witness :
  (exists w',
      __handle_input 1 ["ls"] "ls" (at_prompt [in_child 101] []) =
      Halted (Image_replaced "ls" ["ls"]) w'
      /\ rsh w' = rsh (at_prompt [in_child 101] [])
      /\ trace w' = [Fork 0; Setpgid 0 0; Execvp (Some "ls") ["ls"]])
  /\ (exists w',
      __handle_input 1 ["sl"] "sl" (at_prompt [in_child 101] []) =
      Halted (Exit_now 127) w'
      /\ rsh w' = rsh (at_prompt [in_child 101] [])
      /\ trace w' = [Fork 0; Setpgid 0 0; Execvp (Some "sl") ["sl"];
                     Perror "execvp failed"]).
Proof.
  split.
  - refine (single_command_child_never_returns (at_prompt [in_child 101] []) _ 1
              "ls" "ls" [] [["ls"]] 101 [] eq_refl eq_refl eq_refl _ eq_refl _ _ eq_refl).
    + discriminate.
    + vm_compute. reflexivity.
    + simpl. lia.
  - refine (single_command_child_never_returns (at_prompt [in_child 101] []) _ 1
              "sl" "sl" [] [["sl"]] 101 [] eq_refl eq_refl eq_refl _ eq_refl _ _ eq_refl).
    + discriminate.
    + vm_compute. reflexivity.
    + simpl. lia.
Defined.

Lemma print_lines_run (n : nat) :
  forall w,
    print_lines n w =
    Returned tt (set_trace (trace w ++ repeat (Stdout CRLF) n) w).
Proof.
  induction n as [|n IH]; intros w.
  - cbn [print_lines repeat]. rewrite app_nil_r, set_trace_same. reflexivity.
  - cbn [print_lines repeat]. rewrite bind_unfold. unfold printf at 1, emit, modify.
    rewrite IH. wsimpl. rewrite <- app_assoc. reflexivity.
Qed.

(** X12.  The built-in [clear] has no [return]: after its 255 line breaks it
    goes on as for any other command, forks, and the child runs the program
    [clear] with the arguments of the line. *)
Theorem clear_also_runs_the_program (w : world) (r : __rsh)
    (argc : Z) (raw_input : string) (args : list string)
    (commands : list (list string)) (me : positive) (fr : list fork_result) :
  rsh_initialized w = true ->
  rsh w = Some r ->
  Z.of_nat (String.length (path r)) < PATH_LENGTH ->
  argc <> 0 ->
  __parse_pipeline raw_input = Some commands ->
  (List.length commands <= 1)%nat ->
  forks w = in_child me :: fr ->
  exec_ok w "clear" = true ->
  exists w',
    __handle_input argc ("clear" :: args) raw_input w =
    Halted (Image_replaced "clear" ("clear" :: args)) w'
    /\ trace w' =
       (trace w ++ repeat (Stdout CRLF) 255
        ++ [Fork 0; Setpgid 0 0; Execvp (Some "clear") ("clear" :: args)])%list.
Proof.
  intros Hi Hr Hpath Hargc Hparse Hlen Hf Hexec.
  rewrite handle_input_launch by (assumption || reflexivity).
  cbn [String.eqb Ascii.eqb Bool.eqb]. rewrite bind_unfold, print_lines_run.
  cut (wp (launch ("clear" :: args) raw_input)
          (fun _ _ => False)
          (fun h w' =>
             h = Image_replaced "clear" ("clear" :: args)
             /\ trace w' =
                (trace w ++ repeat (Stdout CRLF) 255
                 ++ [Fork 0; Setpgid 0 0; Execvp (Some "clear") ("clear" :: args)])%list)
          (set_trace (trace w ++ repeat (Stdout CRLF) 255) w)).
  { unfold wp.
    destruct (launch _ _ (set_trace (trace w ++ repeat (Stdout CRLF) 255) w))
      as [a w'|h w']; [contradiction | intros (-> & H1); eauto]. }
  unfold launch. rewrite Hparse.
  assert (Hone : (1 <? Z.of_nat (List.length commands)) = false)
    by (apply Z.ltb_ge; lia).
  rewrite Hone. cbn [String.eqb Ascii.eqb Bool.eqb orb]. wp_step.
  eapply wp_rsh_read; [exact Hr|].
  destruct (Z.leb_spec PATH_LENGTH (Z.of_nat (String.length (path r)))); [lia|].
  wp_steps. rewrite Hf. cbn [Z.eqb]. wp_steps. rewrite Hexec. wp_steps.
  rewrite <- !app_assoc. auto.
Qed.

Lemma clear_also_runs_the_program_witness :
  exists w',
    __handle_input 1 ["clear"] "clear" clear_child =
    Halted (Image_replaced "clear" ["clear"]) w'
    /\ trace w' =
       (repeat (Stdout CRLF) 255
        ++ [Fork 0; Setpgid 0 0; Execvp (Some "clear") ["clear"]])%list.
Proof.
  refine (clear_also_runs_the_program clear_child _ 1 "clear" [] [["clear"]] 101 []
            eq_refl eq_refl eq_refl _ _ _ eq_refl eq_refl).
  - discriminate.
  - vm_compute. reflexivity.
  - simpl. lia.
Defined.

(** ** The shape of the parsed arguments *)

Lemma has_char_cons (p : ascii -> bool) (c : ascii) (s : string) :
  has_char p (String c s) = p c || has_char p s.
Proof. reflexivity. Qed.

(** No field contains a separator, and a field has only bytes of the
    string it was cut from. *)
Lemma fields_no_sep_inside (sep : ascii -> bool) (s : string) :
  Forall (fun f => has_char sep f = false) (fields sep s).
Proof.
  induction s as [|c s IH]; [repeat constructor|].
  rewrite fields_cons. destruct (sep c) eqn:Hc.
  - constructor; [reflexivity | exact IH].
  - destruct (fields sep s) as [|f fs].
    + constructor; [|constructor]. rewrite has_char_cons, Hc. reflexivity.
    + inversion IH; subst. constructor; [|assumption].
      rewrite has_char_cons, Hc. assumption.
Qed.

Lemma fields_bytes (p sep : ascii -> bool) (s : string) :
  has_char p s = false -> Forall (fun f => has_char p f = false) (fields sep s).
Proof.
  induction s as [|c s IH]; [repeat constructor|].
  rewrite has_char_cons. intros [Hc Hs]%orb_false_elim. specialize (IH Hs).
  rewrite fields_cons. destruct (sep c).
  - constructor; [reflexivity | exact IH].
  - destruct (fields sep s) as [|f fs].
    + constructor; [|constructor]. rewrite has_char_cons, Hc. reflexivity.
    + inversion IH; subst. constructor; [|assumption].
      rewrite has_char_cons, Hc. assumption.
Qed.

Lemma nonempty_Forall (P : string -> Prop) (l : list string) :
  Forall P l -> Forall (fun f => f <> "" /\ P f) (nonempty l).
Proof.
  unfold nonempty. induction 1 as [|f l Hf Hl IH]; cbn [filter]; [constructor|].
  destruct (String.eqb_spec f ""); cbn [negb]; [exact IH|].
  constructor; auto.
Qed.

Lemma has_char_ext (p q : ascii -> bool) (s : string) :
  (forall c, p c = q c) -> has_char p s = has_char q s.
Proof.
  intros H. induction s as [|c s IH]; [reflexivity|].
  rewrite !has_char_cons, H, IH. reflexivity.
Qed.

(** The tokens of a [strtok] loop: none is empty, none contains a
    delimiter, and each has only bytes of the string. *)
Lemma strtok_loop_tokens (p : ascii -> bool) (delim s : string) :
  has_char p s = false ->
  Forall (fun t => t <> "" /\ has_char (strchr delim) t = false
                   /\ has_char p t = false)
    (strtok_loop delim s).
Proof.
  intros Hp. rewrite (strtok_loop_fields delim (String.length s)) by lia.
  assert (H : Forall (fun f => has_char (strchr delim) f = false
                               /\ has_char p f = false)
                (fields (strchr delim) s)).
  { apply Forall_and; [apply fields_no_sep_inside | apply fields_bytes, Hp]. }
  apply nonempty_Forall in H. exact H.
Qed.

(** X13.  Whenever [__parse_pipeline] stays within its arrays, it gives at most
    16 stages of at most 15 arguments each, and no argument is empty or
    contains a pipe character, a space, a tab or a newline. *)
Theorem parse_pipeline_arguments (line : string) (commands : list (list string)) :
  __parse_pipeline line = Some commands ->
  (List.length commands <= 16)%nat
  /\ Forall (fun args =>
               (List.length args <= 15)%nat
               /\ Forall (fun arg =>
                            arg <> ""
                            /\ has_char (fun c => is_pipe c || is_blank c) arg = false)
                    args)
       commands.
Proof.
  unfold __parse_pipeline. rewrite stages_args_map.
  destruct (Nat.leb_spec (List.length (strtok_loop "|" line)) 16) as [Hlen|];
    [|discriminate].
  destruct (forallb _ _) eqn:Hall; [|discriminate]. intros [= <-].
  rewrite length_map. split; [exact Hlen|].
  rewrite forallb_forall in Hall. apply Forall_forall. intros args Hin.
  split; [specialize (Hall args Hin); apply Nat.ltb_lt in Hall; lia|].
  apply in_map_iff in Hin as (stage & <- & Hstage).
  pose proof (strtok_loop_tokens (fun _ => false) "|" line) as Hst.
  assert (Hno : has_char (fun _ : ascii => false) line = false).
  { clear. induction line as [|c s IH]; [reflexivity | exact IH]. }
  specialize (Hst Hno). rewrite Forall_forall in Hst.
  destruct (Hst stage Hstage) as (_ & Hpipe & _).
  pose proof (strtok_loop_tokens (strchr "|") BLANKS stage Hpipe) as Hargs.
  eapply Forall_impl; [|exact Hargs].
  cbn beta. intros arg (Hne & Hb & Hp). split; [exact Hne|].
  rewrite (has_char_ext _ (fun c => strchr "|" c || strchr BLANKS c)).
  - clear -Hb Hp. induction arg as [|c s IH]; [reflexivity|].
    rewrite has_char_cons in *.
    apply orb_false_elim in Hb as [Hb1 Hb2]. apply orb_false_elim in Hp as [Hp1 Hp2].
    rewrite Hb1, Hp1, (IH Hb2 Hp2). reflexivity.
  - intros c. rewrite strchr_pipe, strchr_blanks. reflexivity.
Qed.

Lemma parse_pipeline_arguments_witness :
  (List.length [["ls"; "-l"]; ["wc"]] <= 16)%nat
  /\ Forall (fun args =>
               (List.length args <= 15)%nat
               /\ Forall (fun arg =>
                            arg <> ""
                            /\ has_char (fun c => is_pipe c || is_blank c) arg = false)
                    args)
       [["ls"; "-l"]; ["wc"]].
Proof.
  apply (parse_pipeline_arguments " ls  -l ||  wc " [["ls"; "-l"]; ["wc"]]).
  vm_compute. reflexivity.
Defined.

(** ** The line editor *)

Lemma wp_always {A} (m : M A) (Q : A -> world -> Prop) (E : halt -> world -> Prop)
    (w : world) :
  (forall a w', Q a w') -> (forall h w', E h w') -> wp m Q E w.
Proof. unfold wp. intros HQ HE. destruct (m w); auto. Qed.

Lemma string_length_app (x y : string) :
  String.length (x ++ y) = (String.length x + String.length y)%nat.
Proof. induction x as [|c x IH]; cbn; [reflexivity | now rewrite IH]. Qed.

Lemma printable_app (x y : string) :
  printable (x ++ y) = printable x && printable y.
Proof.
  induction x as [|c x IH]; cbn [append printable]; [reflexivity|].
  rewrite IH, andb_assoc. reflexivity.
Qed.

Lemma drop_last_app (buf : string) (c : ascii) : drop_last (buf ++ String c "") = buf.
Proof.
  induction buf as [|b buf IH]; [reflexivity|].
  cbn [append drop_last]. rewrite IH.
  destruct (buf ++ String c "") eqn:E; [|reflexivity].
  destruct buf; discriminate.
Qed.

Lemma drop_last_printable (buf : string) :
  printable buf = true -> printable (drop_last buf) = true.
Proof.
  induction buf as [|b buf IH]; [reflexivity|].
  cbn [printable]. intros [Hb Hbuf]%andb_prop.
  destruct buf as [|b' buf]; [reflexivity|].
  change (drop_last (String b (String b' buf)))
    with (String b (drop_last (String b' buf))).
  cbn [printable]. rewrite Hb. exact (IH Hbuf).
Qed.

Lemma drop_last_length (buf : string) :
  (String.length (drop_last buf) <= String.length buf)%nat.
Proof.
  induction buf as [|b buf IH]; [cbn; lia|].
  destruct buf as [|b' buf]; [cbn; lia|].
  change (drop_last (String b (String b' buf)))
    with (String b (drop_last (String b' buf))).
  cbn [String.length] in *. lia.
Qed.

(** Whatever [read] returns and whatever the handlers do, a line that the
    read loop hands back has no control character and at most 1023 bytes. *)
Lemma read_loop_line (keys : list read_result) :
  forall (c : option ascii) (buf : string) (w : world),
    printable buf = true ->
    (String.length buf <= 1023)%nat ->
    wp (read_loop keys c buf)
       (fun res _ =>
          forall line, res = Some line ->
                       printable line = true /\ (String.length line <= 1023)%nat)
       (fun _ _ => True) w.
Proof.
  induction keys as [|k keys IH]; intros c buf w Hp Hlen; cbn [read_loop];
    [wp_step; exact Logic.I|].
  wp_step. wp_step.
  assert (Hproc : forall ch w1,
    wp (if iscntrl ch then
          if Ascii.eqb ch LF || Ascii.eqb ch CR then
            printf CRLF ;; ret (Some buf)
          else if Ascii.eqb ch BS || Ascii.eqb ch DEL then
            if (0 <? String.length buf)%nat then
              printf (String BS (String " " (String BS ""))) ;;
              read_loop keys (Some ch) (drop_last buf)
            else read_loop keys (Some ch) buf
          else if Ascii.eqb ch TAB then
            printf (String TAB "") ;; read_loop keys (Some ch) buf
          else if Ascii.eqb ch ETX then
            __handle_ctrlc 0 ;; read_loop keys (Some ch) buf
          else read_loop keys (Some ch) buf
        else
          if Z.of_nat (String.length buf) <? PATH_LENGTH - 1 then
            printf (String ch "") ;;
            read_loop keys (Some ch) (buf ++ String ch "")
          else
            printf (CRLF ++ "Input too long! Maximum length is 1023" ++ CRLF) ;;
            after <- unwritten_byte ;;
            if Ascii.eqb after NUL then ret (Some buf) else stop Undefined)
      (fun res _ =>
         forall line, res = Some line ->
                      printable line = true /\ (String.length line <= 1023)%nat)
      (fun _ _ => True) w1).
  { intros ch w1.
    destruct (iscntrl ch) eqn:Hch.
    - destruct (Ascii.eqb ch LF || Ascii.eqb ch CR).
      + wp_steps. intros line [= <-]. auto.
      + destruct (Ascii.eqb ch BS || Ascii.eqb ch DEL).
        * destruct (0 <? String.length buf)%nat.
          -- wp_steps. apply IH; [apply drop_last_printable, Hp|].
             pose proof (drop_last_length buf). lia.
          -- apply IH; assumption.
        * destruct (Ascii.eqb ch TAB); [wp_steps; apply IH; assumption|].
          destruct (Ascii.eqb ch ETX); [|apply IH; assumption].
          wp_step. apply wp_always; [|auto]. intros _ w2. apply IH; assumption.
    - destruct (Z.ltb_spec (Z.of_nat (String.length buf)) (PATH_LENGTH - 1)) as [Hroom|].
      + wp_steps. apply IH.
        * rewrite printable_app, Hp. cbn [printable]. rewrite Hch. reflexivity.
        * rewrite string_length_app. cbn [String.length]. unfold PATH_LENGTH in Hroom.
          lia.
      + wp_step. wp_step. wp_step. wp_step.
        destruct (unwritten _) as [|after us]; [exact Logic.I|].
        destruct (Ascii.eqb after NUL); wp_step; [|exact Logic.I].
        intros line [= <-]. auto. }
  destruct k as [b| |sig|].
  - exact (Hproc b _).
  - destruct c as [ch|]; [exact (Hproc ch _)|].
    wp_step. wp_step. destruct (unwritten _) as [|ch us]; [exact Logic.I|].
    exact (Hproc ch _).
  - wp_step. apply wp_always; [|auto]. intros _ w2. apply IH; assumption.
  - wp_steps. intros line [=].
Qed.

Lemma printable_has_char (s : string) :
  printable s = negb (has_char iscntrl s).
Proof.
  induction s as [|c s IH]; [reflexivity|].
  cbn [printable]. rewrite has_char_cons, IH, negb_orb. reflexivity.
Qed.

(** X14.  Whatever is read from the terminal and whatever the handlers do: when
    [__parse_input] returns an argument vector, the line it leaves in the
    input buffer has no control character and at most 1023 bytes, [argv]
    holds the tokens of that line between blanks, [argc] is their number,
    the terminating NULL has room in the array, and no argument is empty or
    contains a blank or a control character. *)
Theorem parse_input_result (w w' : world) (argc : Z) (argv : list string)
    (input : string) :
  __parse_input w = Returned (Some (argc, argv), input) w' ->
  printable input = true
  /\ (String.length input <= 1023)%nat
  /\ argv = strtok_loop BLANKS input
  /\ argc = Z.of_nat (List.length argv)
  /\ (List.length argv < argv_capacity argv 0 16)%nat
  /\ Forall (fun arg => arg <> "" /\ has_char is_blank arg = false
                        /\ printable arg = true) argv.
Proof.
  intros Hrun.
  cut (wp __parse_input
          (fun res _ =>
             forall argc argv input, res = (Some (argc, argv), input) ->
               printable input = true
               /\ (String.length input <= 1023)%nat
               /\ argv = strtok_loop BLANKS input
               /\ argc = Z.of_nat (List.length argv)
               /\ (List.length argv < argv_capacity argv 0 16)%nat)
          (fun _ _ => True) w).
  { unfold wp. rewrite Hrun. intros H.
    destruct (H argc argv input eq_refl) as (Hp & Hl & Hv & Hc & Hcap).
    repeat split; try assumption. subst argv.
    assert (Hno : has_char iscntrl input = false).
    { rewrite printable_has_char in Hp. apply negb_true_iff in Hp. exact Hp. }
    pose proof (strtok_loop_tokens iscntrl BLANKS input Hno) as Ht.
    eapply Forall_impl; [|exact Ht]. cbn beta. intros arg (Hne & Hb & Hctl).
    repeat split; [exact Hne | | rewrite printable_has_char, Hctl; reflexivity].
    rewrite <- Hb. apply has_char_ext. intros c. symmetry. apply strchr_blanks. }
  unfold __parse_input. wp_steps.
  eapply wp_conseq; [apply (read_loop_line _ None ""); [reflexivity | cbn; lia] | | auto].
  cbn beta. intros [line|] w1 Hline.
  - destruct (Hline line eq_refl) as [Hp Hl].
    wp_step. apply wp_always; [|auto]. intros _ w2.
    destruct (Nat.ltb_spec (List.length (strtok_loop BLANKS line))
                (argv_capacity (strtok_loop BLANKS line) 0 16)).
    + wp_step. intros argc' argv' input' [= <- <- <-]. auto.
    + wp_step. exact Logic.I.
  - wp_step. intros ? ? ? [=].
Qed.

Lemma parse_input_result_witness :
  printable "ls  -l" = true
  /\ (String.length "ls  -l" <= 1023)%nat
  /\ ["ls"; "-l"] = strtok_loop BLANKS "ls  -l"
  /\ 2 = Z.of_nat (List.length ["ls"; "-l"])
  /\ (List.length ["ls"; "-l"] < argv_capacity ["ls"; "-l"] 0 16)%nat
  /\ Forall (fun arg => arg <> "" /\ has_char is_blank arg = false
                        /\ printable arg = true) ["ls"; "-l"].
Proof.
  refine (parse_input_result
            (boot cooked 500 None (fun _ => true)
               (map read_byte (list_ascii_of_string "lx")
                ++ [read_byte BS; read_byte TAB]
                ++ typed "s  -l") [] [] [])
            _ 2 ["ls"; "-l"] "ls  -l" _).
  vm_compute. reflexivity.
Defined.

(** X15.  A byte that is no control character, followed by a backspace, leaves
    the input buffer as it was (the byte is echoed, then "\b \b" is
    printed); a backspace on an empty buffer changes nothing and prints
    nothing. *)
Theorem backspace_takes_back_a_byte :
  (forall (ch : ascii) (buf : string) (keys : list read_result)
          (c : option ascii) (w : world),
      iscntrl ch = false ->
      (String.length buf < 1023)%nat ->
      read_loop (read_byte ch :: read_byte BS :: keys) c buf w =
      read_loop keys (Some BS) buf
        (set_stdin keys
           (set_trace
              (trace w ++ [Stdout (String ch "");
                           Stdout (String BS (String " " (String BS "")))]) w)))
  /\ (forall (keys : list read_result) (c : option ascii) (w : world),
         read_loop (read_byte BS :: keys) c "" w =
         read_loop keys (Some BS) "" (set_stdin keys w)).
Proof.
  split.
  - intros ch buf keys c w Hch Hlen.
    cbn [read_loop]. rewrite bind_unfold. unfold modify at 1. rewrite Hch.
    assert (Hroom : (Z.of_nat (String.length buf) <? PATH_LENGTH - 1) = true)
      by (apply Z.ltb_lt; unfold PATH_LENGTH; lia).
    rewrite Hroom. rewrite bind_unfold. unfold printf at 1, emit, modify.
    rewrite bind_unfold.
    change (iscntrl BS) with true. cbv iota.
    change (Ascii.eqb BS LF || Ascii.eqb BS CR) with false.
    change (Ascii.eqb BS BS || Ascii.eqb BS DEL) with true. cbv iota.
    assert (Hpos : (0 <? String.length (buf ++ String ch ""))%nat = true).
    { apply Nat.ltb_lt. rewrite string_length_app. cbn. lia. }
    rewrite Hpos, drop_last_app. rewrite bind_unfold.
    unfold printf at 1, emit, modify. wsimpl. rewrite <- app_assoc.
    f_equal.
  - intros keys c w. cbn [read_loop]. rewrite bind_unfold. unfold modify at 1.
    change (iscntrl BS) with true. cbv iota.
    change (Ascii.eqb BS LF || Ascii.eqb BS CR) with false.
    change (Ascii.eqb BS BS || Ascii.eqb BS DEL) with true. cbv iota.
    reflexivity.
Qed.

Lemma backspace_takes_back_a_byte_witness :
  read_loop (read_byte "x" :: read_byte BS :: typed "ls") None "" (at_prompt [] []) =
  read_loop (typed "ls") (Some BS) ""
    (set_stdin (typed "ls")
       (set_trace [Stdout "x"; Stdout (String BS (String " " (String BS "")))]
          (at_prompt [] []))).
Proof.
  refine (proj1 backspace_takes_back_a_byte "x"%char "" (typed "ls") None
            (at_prompt [] []) eq_refl _).
  simpl. lia.
Defined.

(** ** The capacity of [argv] *)

(** The doubling loop of [__parse_input]: the capacity is 16 times a power
    of two, it is at least the number of stored tokens, and it was doubled
    only when the smaller capacity was full. *)
Lemma argv_capacity_doubles (tokens : list string) :
  forall (ind j : nat),
    (ind <= 16 * 2 ^ j)%nat ->
    (0 < j -> 16 * 2 ^ j < 2 * ind)%nat ->
    exists j',
      argv_capacity tokens ind (16 * 2 ^ j) = (16 * 2 ^ j')%nat
      /\ (ind + List.length tokens <= 16 * 2 ^ j')%nat
      /\ (0 < j' -> 16 * 2 ^ j' < 2 * (ind + List.length tokens))%nat.
Proof.
  induction tokens as [|t tokens IH]; intros ind j Hle Hhalf.
  - exists j. cbn [argv_capacity List.length]. rewrite Nat.add_0_r. auto.
  - cbn [argv_capacity List.length].
    destruct (Nat.leb_spec (16 * 2 ^ j) ind) as [Hfull|Hroom].
    + replace (2 * (16 * 2 ^ j))%nat with (16 * 2 ^ (S j))%nat
        by (rewrite Nat.pow_succ_r'; lia).
      assert (Hpow : (0 < 2 ^ j)%nat) by (apply Nat.neq_0_lt_0, Nat.pow_nonzero; lia).
      destruct (IH (S ind) (S j)) as (j' & Hc & Hl & Hh).
      * rewrite Nat.pow_succ_r'. lia.
      * intros _. rewrite Nat.pow_succ_r'. lia.
      * exists j'. rewrite Hc. repeat split; [lia | intros H; specialize (Hh H); lia].
    + destruct (IH (S ind) j) as (j' & Hc & Hl & Hh).
      * lia.
      * intros H. specialize (Hhalf H). lia.
      * exists j'. rewrite Hc. repeat split; [lia | intros H; specialize (Hh H); lia].
Qed.

(** The terminating NULL has its place in [argv] unless the number of tokens
    is 16, 32, 64, ...: then it is written one past the end. *)
Lemma argv_capacity_room (tokens : list string) :
  (List.length tokens < argv_capacity tokens 0 16)%nat
  <-> forall k, List.length tokens <> (16 * 2 ^ k)%nat.
Proof.
  destruct (argv_capacity_doubles tokens 0 0) as (j & Hc & Hl & Hh);
    [cbn; lia | lia |].
  change (16 * 2 ^ 0)%nat with 16%nat in Hc. rewrite Hc. cbn [Nat.add] in Hl, Hh.
  split.
  - intros Hlt k Hk. rewrite Hk in Hlt, Hh.
    assert (Hkj : (k < j)%nat).
    { destruct (Nat.lt_ge_cases k j) as [|Hge]; [assumption|].
      apply (Nat.pow_le_mono_r 2) in Hge; lia. }
    assert (Hj : (0 < j)%nat) by lia. specialize (Hh Hj).
    assert (Hsk : (2 ^ (S k) <= 2 ^ j)%nat) by (apply Nat.pow_le_mono_r; lia).
    rewrite Nat.pow_succ_r' in Hsk. lia.
  - intros Hne. specialize (Hne j). lia.
Qed.

Lemma append_history_returns (line : string) (w : world) :
  (rsh_initialized w = true -> rsh w <> None) ->
  wp (__append_history line) (fun _ w' => stdin w' = stdin w) returns w.
Proof.
  intros Hr. unfold __append_history. destruct (rsh_initialized w) eqn:Hi.
  - destruct (rsh w) as [r|] eqn:Hrsh; [|exfalso; apply Hr; reflexivity].
    wp_step. apply wp_rsh_get_initialized; [assumption|].
    wp_step. eapply wp_rsh_write; [eassumption|].
    wp_step. eapply wp_rsh_read; [reflexivity|].
    destruct (hist_buffer r) as [|current next] eqn:Hh; wsimpl; [|rewrite Hh];
      (eapply wp_rsh_write; [reflexivity|]); reflexivity.
  - unfold __rsh_get, __enable_raw_mode. wp_steps. rewrite Hi. cbn [negb].
    wp_steps. eapply wp_rsh_write; [reflexivity|]. wsimpl.
    wp_step. eapply wp_rsh_read; [reflexivity|]. wsimpl.
    eapply wp_rsh_write; [reflexivity|]. reflexivity.
Qed.

(** X16.  When a line of at most 1023 bytes without control characters is typed
    and Enter pressed, [__parse_input] returns its tokens, unless their
    number is 16, 32, 64, ...: the array of [argv] is then full when the loop
    ends, and the terminating NULL is written one past its end. *)
Theorem parse_input_typed_line (line : string) (rest : list read_result)
    (w : world) :
  typeable line ->
  stdin w = (typed line ++ rest)%list ->
  (rsh_initialized w = true -> rsh w <> None) ->
  ((forall k, List.length (strtok_loop BLANKS line) <> (16 * 2 ^ k)%nat) ->
   exists w',
     __parse_input w =
     Returned (Some (Z.of_nat (List.length (strtok_loop BLANKS line)),
                     strtok_loop BLANKS line), line) w'
     /\ stdin w' = rest)
  /\ ((exists k, List.length (strtok_loop BLANKS line) = (16 * 2 ^ k)%nat) ->
      exists w', __parse_input w = Halted Undefined w').
Proof.
  intros [Hp Hlen] Hs Hr.
  cut (wp __parse_input
          (fun res w' =>
             (List.length (strtok_loop BLANKS line)
              < argv_capacity (strtok_loop BLANKS line) 0 16)%nat
             /\ res = (Some (Z.of_nat (List.length (strtok_loop BLANKS line)),
                             strtok_loop BLANKS line), line)
             /\ stdin w' = rest)
          (fun h _ =>
             ~ (List.length (strtok_loop BLANKS line)
                < argv_capacity (strtok_loop BLANKS line) 0 16)%nat
             /\ h = Undefined) w).
  { unfold wp. destruct (__parse_input w) as [res w'|h w'].
    - intros (Hroom & -> & Hs'). split; [eauto|].
      intros [k Hk]. destruct (proj1 (argv_capacity_room _) Hroom k Hk).
    - intros (Hfull & ->). split; [|eauto].
      intros Hne. destruct (Hfull (proj2 (argv_capacity_room _) Hne)). }
  unfold __parse_input. wp_steps. rewrite Hs.
  eapply wp_conseq;
    [apply (read_loop_typed line "" None); [assumption | cbn; lia]
    | | contradiction].
  cbn beta. wsimpl. intros res w1 (-> & Hs1 & Hr1 & Hi1). cbn [append].
  wp_step.
  eapply wp_conseq; [apply (append_history_returns line w1) | | contradiction].
  { rewrite Hi1, Hr1. exact Hr. }
  cbn beta. intros _ w2 Hs2.
  destruct (Nat.ltb_spec (List.length (strtok_loop BLANKS line))
              (argv_capacity (strtok_loop BLANKS line) 0 16)).
  - wp_step. repeat split; [assumption | congruence].
  - wp_step. split; [lia | reflexivity].
Qed.

Lemma parse_input_typed_line_witness :
  (exists w',
      __parse_input (boot cooked 500 None (fun _ => true) (typed "ls -l" ++ []) [] [] [])
      = Returned (Some (2, ["ls"; "-l"]), "ls -l") w'
      /\ stdin w' = [])
  /\ (exists w',
      __parse_input
        (boot cooked 500 None (fun _ => true) (typed sixteen_words ++ []) [] [] [])
      = Halted Undefined w').
Proof.
  split.
  - refine (proj1 (parse_input_typed_line "ls -l" []
                     (boot cooked 500 None (fun _ => true) (typed "ls -l" ++ []) [] [] [])
                     _ eq_refl _) _).
    + apply typeable_intro; reflexivity.
    + discriminate.
    + apply (proj1 (argv_capacity_room _)). vm_compute. lia.
  - refine (proj2 (parse_input_typed_line sixteen_words []
                     (boot cooked 500 None (fun _ => true) (typed sixteen_words ++ [])
                        [] [] [])
                     _ eq_refl _) _).
    + apply typeable_intro; reflexivity.
    + discriminate.
    + exists 0%nat. vm_compute. reflexivity.
Defined.

(** ** The exit status of the shell *)

Lemma rsh_get_returns (w : world) :
  exists w', __rsh_get w = Returned tt w' /\ rsh_initialized w' = true
             /\ (rsh_initialized w = true -> w' = w)
             /\ (rsh_initialized w = false ->
                 exists r, rsh w' = Some r /\ running_process r = 0
                           /\ job_buffer r = []).
Proof.
  destruct (rsh_initialized w) eqn:Hi.
  - exists w. rewrite rsh_get_initialized by assumption.
    repeat split; auto. discriminate.
  - eexists. split; [unfold __rsh_get, gets; cbn; rewrite Hi; cbn; reflexivity|].
    cbn. repeat split; [discriminate|]. eexists. repeat split.
Qed.

Lemma run_atexit_fns_rsh (fns : list atexit_fn) :
  forall w, exists w', run_atexit_fns fns w = Returned tt w' /\ rsh w' = rsh w.
Proof.
  induction fns as [|fn fns IH]; intros w; [eexists; split; reflexivity|].
  destruct fn. cbn [run_atexit_fns run_atexit_fn]. rewrite bind_unfold.
  change (__disable_raw_mode w) with
    (Returned tt (set_tty (orig_termios w)
                    (set_trace (trace w ++ [Tcsetattr (orig_termios w)]) w))).
  cbv iota beta.
  destruct (IH (set_tty (orig_termios w)
                  (set_trace (trace w ++ [Tcsetattr (orig_termios w)]) w)))
    as (w' & -> & Hr).
  exists w'. split; [reflexivity | exact Hr].
Qed.

Lemma exit_halts_rsh {A} (code : Z) (w : world) :
  exists w', @exit A code w = Halted (Exit code) w' /\ rsh w' = rsh w.
Proof.
  unfold exit. rewrite bind_unfold. cbn [gets]. rewrite bind_unfold.
  destruct (run_atexit_fns_rsh (atexit_fns w) w) as (w' & -> & Hr).
  exists w'. split; [reflexivity | exact Hr].
Qed.

Lemma exits_with_zero_handle_ctrlc (I : world -> Prop) (sig : Z) :
  (forall x w, I w -> I (set_trace x w)) ->
  inv I exits_with_zero __rsh_get ->
  inv I exits_with_zero (__handle_ctrlc sig).
Proof.
  intros I_trace Hget w H. unfold __handle_ctrlc. wp_step.
  eapply wp_conseq; [apply Hget, H | | auto]. cbn beta. intros _ w1 H1.
  wp_step. unfold wp at 1, rsh_read. destruct (rsh w1) as [r|]; [|exact Logic.I].
  destruct (negb (running_process r =? 0)).
  - wp_step. apply I_trace, H1.
  - wp_steps. unfold __rsh_destroy. wp_steps. unfold wp.
    match goal with |- context [exit 0 ?w2] =>
      destruct (exit_halts_rsh (A := unit) 0 w2) as (w' & -> & Hr) end.
    split; [reflexivity | exact Hr].
Qed.

(** X17.  Whatever is typed and whatever the system calls answer, the shell
    exits only with status 0 and only after it has destroyed its session; an
    argument of [exit] is ignored. *)
Theorem shell_exits_with_status_zero (n : nat) (w w' : world) (code : Z) :
  rsh_run n w = Halted (Exit code) w' -> code = 0 /\ rsh w' = None.
Proof.
  intros Hrun.
  assert (Hget : inv (fun _ => True) exits_with_zero __rsh_get).
  { intros w0 _. unfold wp. destruct (rsh_get_returns w0) as (w1 & -> & _).
    exact Logic.I. }
  assert (H : inv (fun _ => True) exits_with_zero (rsh_run n)).
  { apply inv_rsh_run; try (intros; exact Logic.I).
    - intros [] w0 Hh; (exact Logic.I || contradiction).
    - exact Hget.
    - intros sig. apply exits_with_zero_handle_ctrlc; [auto | exact Hget]. }
  specialize (H w Logic.I). unfold wp in H. rewrite Hrun in H. exact H.
Qed.

Lemma shell_exits_with_status_zero_witness :
  exists w',
    rsh_run 2 (boot cooked 500 None (fun _ => true) (typed "jobs" ++ typed "exit 3")
                 [] [] [])
    = Halted (Exit 0) w'
    /\ 0 = 0 /\ rsh w' = None.
Proof.
  eexists. split; [vm_compute; reflexivity|].
  refine (shell_exits_with_status_zero 2
            (boot cooked 500 None (fun _ => true) (typed "jobs" ++ typed "exit 3")
               [] [] []) _ 0 _).
  vm_compute. reflexivity.
Defined.

(** ** Pipelines and job control *)

Lemma no_job_control_refl (w : world) : no_job_control w w.
Proof.
  repeat split. exists []. rewrite app_nil_r. split; reflexivity.
Qed.

Ltac no_job_control_tac :=
  lazymatch goal with
  | H : no_job_control ?w0 ?w |- no_job_control ?w0 _ =>
      let Hr := fresh in let Hp := fresh in let Hs := fresh in
      let evs := fresh "evs" in let Ht := fresh in let He := fresh in
      destruct H as (Hr & Hp & Hs & evs & Ht & He);
      unfold no_job_control; wsimpl; rewrite ?Ht, <- ?app_assoc;
      repeat split; try assumption;
      eexists; split; [reflexivity | rewrite forallb_app, He; reflexivity]
  end.

Lemma pipeline_spawn_no_job_control (w0 : world) (commands : list (list string)) :
  forall i num prev next pids w,
    no_job_control w0 w ->
    wp (pipeline_spawn commands i num prev next pids)
       (fun _ w' => no_job_control w0 w') (fun _ w' => no_job_control w0 w') w.
Proof.
  induction commands as [|c commands IH]; intros i num prev next pids w H;
    cbn [pipeline_spawn]; wp_cases; try apply IH; try assumption;
    no_job_control_tac.
Qed.

Lemma pipeline_wait_no_job_control (w0 : world) (pids : list Z) :
  forall status w,
    no_job_control w0 w ->
    wp (pipeline_wait pids status)
       (fun _ w' => no_job_control w0 w') (fun _ w' => no_job_control w0 w') w.
Proof.
  induction pids as [|p pids IH]; intros status w H; cbn [pipeline_wait];
    wp_cases; try apply IH; try assumption; no_job_control_tac.
Qed.

(** X18.  [__handle_pipeline], however it ends (it returns, waits for ever, or
    the image of a child is replaced), leaves the session, the foreground
    group of the terminal and the signal dispositions as they were, and
    performs no [setpgid], [tcsetpgrp] or [kill]: the stages stay in the
    process group of the shell and are not tracked as foreground process. *)
Theorem pipeline_runs_without_job_control (commands : list (list string))
    (num : Z) (w : world) :
  wp (__handle_pipeline commands num)
     (fun _ w' => no_job_control w w') (fun _ w' => no_job_control w w') w.
Proof.
  unfold __handle_pipeline. wp_step.
  eapply wp_conseq;
    [apply (pipeline_spawn_no_job_control w), no_job_control_refl | | auto].
  cbn beta. intros [v|pids] w1 H1; [wp_step; exact H1|].
  wp_step.
  eapply wp_conseq; [apply (pipeline_wait_no_job_control w), H1 | | auto].
  cbn beta. intros st w2 H2. wp_step. exact H2.
Qed.

(** The first loop in the parent when, after [children] were forked, the
    next [pipe] fails. *)
Lemma pipeline_spawn_pipe_fails (commands : list (list string)) :
  forall (i num_commands : Z) (prev_pipe next_pipe : Z * Z) (pids : list Z)
         (w : world) (children : list positive) (fds : list (Z * Z))
         (fr : list fork_result) (pr : list (option (Z * Z))),
    i + Z.of_nat (List.length commands) = num_commands ->
    List.length fds = List.length children ->
    (List.length children + 1 < List.length commands)%nat ->
    forks w = (map in_parent children ++ fr)%list ->
    pipes w = (map Some fds ++ None :: pr)%list ->
    wp (pipeline_spawn commands i num_commands prev_pipe next_pipe pids)
       (fun res w' =>
          res = inl (-1)
          /\ waits w' = waits w
          /\ forks w' = fr
          /\ pipes w' = pr
          /\ filter is_waitpid (trace w') = filter is_waitpid (trace w)
          /\ last (trace w') (Pipe None)
             = Stdout "Error (FATAL): Could not open pipe")
       returns w.
Proof.
  induction commands as [|command_i rest IH];
    intros i num prev next pids w children fds fr pr Hnum Hfds Hlen Hf Hp.
  - cbn in Hlen. lia.
  - cbn [List.length] in Hnum, Hlen. cbn [pipeline_spawn]. wp_step.
    destruct (Z.ltb_spec i (num - 1)) as [_|Hge]; [|lia].
    wp_steps. rewrite Hp.
    destruct children as [|child children].
    + destruct fds; [|discriminate]. cbn [map app] in Hp, Hf |- *.
      wp_steps. repeat split; auto.
      * rewrite !filter_app. cbn. rewrite !app_nil_r. reflexivity.
      * rewrite last_last. reflexivity.
    + destruct fds as [|fd fds]; [discriminate|]. cbn [map app] in Hp, Hf |- *.
      wp_steps. rewrite Hf.
      assert (Hpos : (Z.pos child =? 0) = false) by (apply Z.eqb_neq; lia).
      assert (Hneg : (Z.pos child <? 0) = false) by (apply Z.ltb_ge; lia).
      rewrite Hpos, Hneg. wp_steps.
      assert (Hrec : forall w1,
                forks w1 = (map in_parent children ++ fr)%list ->
                pipes w1 = (map Some fds ++ None :: pr)%list ->
                waits w1 = waits w ->
                filter is_waitpid (trace w1) = filter is_waitpid (trace w) ->
                wp (pipeline_spawn rest (i + 1) num fd fd (pids ++ [Z.pos child]))
                  (fun res w' =>
                     res = inl (-1)
                     /\ waits w' = waits w
                     /\ forks w' = fr
                     /\ pipes w' = pr
                     /\ filter is_waitpid (trace w') = filter is_waitpid (trace w)
                     /\ last (trace w') (Pipe None)
                        = Stdout "Error (FATAL): Could not open pipe")
                  returns w1).
      { intros w1 Hf1 Hp1 Hw1 Ht1.
        eapply wp_conseq;
          [eapply (IH (i + 1) num fd fd _ w1 children fds fr pr); auto;
           cbn [List.length] in Hfds, Hlen; lia | |].
        - cbn beta. intros a w' (-> & ? & ? & ? & ? & ?). repeat split; congruence.
        - auto. }
      destruct (0 <? i); wp_steps; apply Hrec; try reflexivity;
        wsimpl; rewrite !filter_app; cbn; rewrite !app_nil_r; reflexivity.
Qed.

(** X19.  When [pipe] fails for a stage after some stages have been forked,
    [__handle_pipeline] prints "Error (FATAL): Could not open pipe" and
    returns -1 at once: no further process is forked and none of the
    children already running is waited for. *)
Theorem pipeline_pipe_failure_abandons_children
    (commands : list (list string)) (children : list positive)
    (fds : list (Z * Z)) (w : world) (fr : list fork_result)
    (pr : list (option (Z * Z))) :
  List.length fds = List.length children ->
  (List.length children + 1 < List.length commands)%nat ->
  forks w = (map in_parent children ++ fr)%list ->
  pipes w = (map Some fds ++ None :: pr)%list ->
  exists w',
    __handle_pipeline commands (Z.of_nat (List.length commands)) w = Returned (-1) w'
    /\ waits w' = waits w
    /\ forks w' = fr
    /\ filter is_waitpid (trace w') = filter is_waitpid (trace w)
    /\ last (trace w') (Pipe None) = Stdout "Error (FATAL): Could not open pipe".
Proof.
  intros Hfds Hlen Hf Hp.
  cut (wp (__handle_pipeline commands (Z.of_nat (List.length commands)))
          (fun res w' =>
             res = -1 /\ waits w' = waits w /\ forks w' = fr
             /\ filter is_waitpid (trace w') = filter is_waitpid (trace w)
             /\ last (trace w') (Pipe None)
                = Stdout "Error (FATAL): Could not open pipe")
          returns w).
  { intros H. apply wp_returned in H. destruct H as (a & w' & Hrun & -> & H).
    exists w'. split; assumption. }
  unfold __handle_pipeline. wp_step.
  eapply wp_conseq;
    [eapply (pipeline_spawn_pipe_fails commands 0 _ (0, 0) (0, 0) [] w children fds fr pr);
     eauto | | auto].
  cbn beta. intros res w1 (-> & Hw1 & Hf1 & Hp1 & Ht1 & Hl1). wp_step. auto.
Qed.

Lemma pipeline_pipe_failure_abandons_children_witness :
  exists w',
    __handle_pipeline [["a"]; ["b"]; ["c"]] 3 second_pipe_fails = Returned (-1) w'
    /\ waits w' = [Some (W_EXITCODE 0 0)]
    /\ forks w' = [in_parent 102; in_parent 103]
    /\ filter is_waitpid (trace w') = []
    /\ last (trace w') (Pipe None) = Stdout "Error (FATAL): Could not open pipe".
Proof.
  refine (pipeline_pipe_failure_abandons_children [["a"]; ["b"]; ["c"]]
            [101%positive] [(3, 4)] second_pipe_fails
            [in_parent 102; in_parent 103] [] eq_refl _ eq_refl eq_refl).
  simpl. lia.
Defined.

(** ** A failed read *)

(** X20.  A failed [read] does not end the shell: [__parse_input] reports the
    error and returns NULL, [rsh_run] prints "Error: Failed to get user
    input" and prompts again, once for every failure; the session is not
    touched (it is not even created), and nothing is added to the history. *)
Theorem read_error_prompts_again (k n : nat) (rest : list read_result) (w : world) :
  stdin w = (repeat read_error k ++ rest)%list ->
  main_loop (k + n) w =
  main_loop n
    (set_stdin rest
       (set_trace
          (trace w ++
           concat (repeat [Stdout (String CR "> ");
                           Perror "Error (FATAL): Cannot read from stdin";
                           Stdout ("Error: Failed to get user input" ++ String LF "")]
                     k)) w)).
Proof.
  revert w. induction k as [|k IH]; intros w Hs.
  - cbn [repeat app concat Nat.add] in *. rewrite app_nil_r, set_trace_same, <- Hs.
    destruct w; reflexivity.
  - cbn [repeat app Nat.add] in Hs. cbn [Nat.add main_loop].
    rewrite bind_unfold. unfold __parse_input at 1. rewrite bind_unfold.
    unfold printf at 1, emit, modify. rewrite bind_unfold. unfold gets at 1.
    wsimpl. rewrite Hs. cbn [read_loop]. rewrite !bind_unfold. unfold modify at 1.
    rewrite bind_unfold. unfold perror at 1, emit, modify. cbn [ret Monad_M].
    cbv iota beta. rewrite bind_unfold. unfold printf at 1, emit, modify.
    rewrite IH by reflexivity. wsimpl. f_equal.
    cbn [repeat concat]. rewrite <- !app_assoc. reflexivity.
Qed.

Lemma read_error_prompts_again_witness :
  main_loop (2 + 1)
    (boot cooked 500 None (fun _ => true) (repeat read_error 2 ++ typed "jobs") [] [] [])
  = main_loop 1
      (set_stdin (typed "jobs")
         (set_trace
            ([] ++
             concat (repeat [Stdout (String CR "> ");
                             Perror "Error (FATAL): Cannot read from stdin";
                             Stdout ("Error: Failed to get user input" ++ String LF "")]
                       2))
            (boot cooked 500 None (fun _ => true)
               (repeat read_error 2 ++ typed "jobs") [] [] []))).
Proof.
  exact (read_error_prompts_again 2 1 (typed "jobs")
           (boot cooked 500 None (fun _ => true)
              (repeat read_error 2 ++ typed "jobs") [] [] []) eq_refl).
Defined.

(** ** End of input *)

(** While [read] returns 0 and [*c] holds a byte that is no control
    character, the byte is stored and echoed until the buffer is full. *)
Lemma read_loop_eof_fills (ch after : ascii) (rest : list read_result)
    (us : list ascii) (k : nat) :
  forall (buf : string) (w : world),
    iscntrl ch = false ->
    (String.length buf + k = 1023)%nat ->
    unwritten w = after :: us ->
    read_loop (repeat read_eof (S k) ++ rest) (Some ch) buf w =
    (if Ascii.eqb after NUL
     then Returned (Some (buf ++ string_of_list_ascii (repeat ch k)))
     else Halted Undefined)
      (set_unwritten us
         (set_stdin rest
            (set_trace (trace w ++ repeat (Stdout (String ch "")) k ++ [too_long])
               w))).
Proof.
  induction k as [|k IH]; intros buf w Hch Hlen Hu.
  - cbn [repeat app read_loop]. rewrite bind_unfold. unfold modify at 1.
    rewrite Hch.
    assert (Hfull : (Z.of_nat (String.length buf) <? PATH_LENGTH - 1) = false)
      by (apply Z.ltb_ge; unfold PATH_LENGTH; lia).
    rewrite Hfull. rewrite bind_unfold. unfold printf at 1, emit, modify.
    rewrite bind_unfold. unfold unwritten_byte. wsimpl. rewrite Hu.
    cbn [string_of_list_ascii]. rewrite append_empty_r.
    destruct (Ascii.eqb after NUL); cbn [ret Monad_M stop];
      f_equal; destruct w; reflexivity.
  - change (repeat read_eof (S (S k)) ++ rest)%list
      with (read_eof :: (repeat read_eof (S k) ++ rest))%list.
    cbn [read_loop]. rewrite bind_unfold. unfold modify at 1. rewrite Hch.
    assert (Hroom : (Z.of_nat (String.length buf) <? PATH_LENGTH - 1) = true)
      by (apply Z.ltb_lt; unfold PATH_LENGTH; lia).
    rewrite Hroom. rewrite bind_unfold. unfold printf at 1, emit, modify.
    rewrite IH; [|exact Hch | rewrite string_length_app; cbn [String.length]; lia
                 | wsimpl; exact Hu].
    wsimpl. cbn [repeat string_of_list_ascii].
    rewrite append_assoc. cbn [String.append].
    rewrite <- !app_assoc. cbn [app].
    destruct (Ascii.eqb after NUL); f_equal; destruct w; reflexivity.
Qed.

(** X21.  The read loop does not detect the end of the input: a [read] that
    returns 0 is taken as one more copy of the byte read before.  When that
    byte is no control character it is stored and echoed until the buffer
    holds 1023 bytes; then the limit is printed and the loop is left without
    a terminating NUL.  If the last byte of the buffer, which was never
    written, is NUL, the line handed back is the 1023 bytes; otherwise the
    line has no end inside the buffer. *)
Theorem end_of_input_fills_the_buffer (ch after : ascii) (buf : string)
    (rest : list read_result) (us : list ascii) (w : world) :
  iscntrl ch = false ->
  (String.length buf <= 1023)%nat ->
  unwritten w = after :: us ->
  read_loop (repeat read_eof (S (1023 - String.length buf)) ++ rest) (Some ch) buf w =
  (if Ascii.eqb after NUL
   then Returned
          (Some (buf ++ string_of_list_ascii (repeat ch (1023 - String.length buf))))
   else Halted Undefined)
    (set_unwritten us
       (set_stdin rest
          (set_trace
             (trace w ++ repeat (Stdout (String ch "")) (1023 - String.length buf)
              ++ [too_long]) w))).
Proof.
  intros Hch Hlen Hu. apply read_loop_eof_fills; [exact Hch | lia | exact Hu].
Qed.

Lemma end_of_input_fills_the_buffer_witness :
  read_loop (repeat read_eof (S (1023 - String.length "ls")) ++ typed "jobs")
    (Some "x"%char) "ls" (set_unwritten [NUL] (at_prompt [] [])) =
  Returned
    (Some ("ls" ++ string_of_list_ascii (repeat "x"%char (1023 - String.length "ls"))))
    (set_unwritten []
       (set_stdin (typed "jobs")
          (set_trace
             (trace (set_unwritten [NUL] (at_prompt [] []))
              ++ repeat (Stdout "x") (1023 - String.length "ls") ++ [too_long])
             (set_unwritten [NUL] (at_prompt [] []))))).
Proof.
  refine (end_of_input_fills_the_buffer "x"%char NUL "ls" (typed "jobs") []
            (set_unwritten [NUL] (at_prompt [] [])) eq_refl _ eq_refl).
  simpl. lia.
Defined.

(** ** Invariants of the main loop

    The section [Invariant] asks that [I] does not look at the foreground
    process and the job list.  For an [I] that does, this section takes what
    [I] needs of the functions that write them: [launch], [__handle_ctrlz]
    and [__remove_job]. *)

Section LoopInvariant.

Variable I : world -> Prop.
Variable E : halt -> world -> Prop.

Hypothesis E_halt :
  forall h w, match h with Exit _ => False | _ => True end -> E h w.
Hypothesis I_trace : forall x w, I w -> I (set_trace x w).
Hypothesis I_sigdisp : forall x w, I w -> I (set_sigdisp x w).
Hypothesis I_tty_pgrp : forall x w, I w -> I (set_tty_pgrp x w).
Hypothesis I_waits : forall x w, I w -> I (set_waits x w).
Hypothesis I_stdin : forall x w, I w -> I (set_stdin x w).
Hypothesis I_unwritten : forall x w, I w -> I (set_unwritten x w).
Hypothesis I_hist_buffer :
  forall x r w, rsh w = Some r -> I w ->
                I (set_rsh (Some (set_hist_buffer x r)) w).

Hypothesis loop_rsh_get : inv I E __rsh_get.
Hypothesis loop_handle_ctrlc : forall sig, inv I E (__handle_ctrlc sig).
Hypothesis loop_handle_ctrlz : forall sig, inv I E (__handle_ctrlz sig).
Hypothesis loop_remove_job : forall p, inv I E (__remove_job p).
Hypothesis loop_launch : forall argv raw_input, inv I E (launch argv raw_input).

Ltac loop_step :=
  lazymatch goal with
  | |- inv I E (bind _ _) => apply inv_bind; [|intros ?]
  | |- inv I E (ret _) => apply inv_ret
  | |- inv I E (gets _) => apply inv_gets
  | |- inv I E getpid => apply inv_gets
  | |- inv I E (stop _) => apply inv_stop; [exact E_halt | exact Logic.I]
  | |- inv I E (printf _) => apply inv_emit; exact I_trace
  | |- inv I E (fprintf_stderr _) => apply inv_emit; exact I_trace
  | |- inv I E (perror _) => apply inv_emit; exact I_trace
  | |- inv I E (kill _ _) => apply inv_emit; exact I_trace
  | |- inv I E (waitpid _ _ _) => apply inv_waitpid; assumption
  | |- inv I E unwritten_byte => apply inv_unwritten_byte; assumption
  | |- inv I E (rsh_read _) => apply inv_rsh_read; exact E_halt
  | |- inv I E __rsh_get => exact loop_rsh_get
  | |- inv I E (__handle_ctrlc _) => apply loop_handle_ctrlc
  | |- inv I E (__handle_ctrlz _) => apply loop_handle_ctrlz
  | |- inv I E (__remove_job _) => apply loop_remove_job
  | |- inv I E (launch _ _) => apply loop_launch
  | |- inv I E (give_terminal _) => apply inv_give_terminal; assumption
  | |- inv I E (print_jobs _) => apply inv_print_jobs; assumption
  | |- inv I E (print_lines _) => apply inv_print_lines; assumption
  | |- inv I E (__append_history _) => apply inv_append_history; assumption
  | |- inv I E (if ?b then _ else _) => destruct b
  | |- inv I E (match ?x with _ => _ end) => destruct x
  | |- inv I E (let (_, _) := ?x in _) => destruct x
  end.

Lemma loop_handle_input (argc : Z) (argv : list string) (raw_input : string) :
  inv I E (__handle_input argc argv raw_input).
Proof. unfold __handle_input. repeat loop_step. Qed.

Lemma loop_deliver (sig : Z) : inv I E (deliver sig).
Proof. unfold deliver. repeat loop_step. Qed.

Lemma loop_read_loop (keys : list read_result) :
  forall c buf, inv I E (read_loop keys c buf).
Proof.
  induction keys as [|k keys IH]; intros c buf; cbn [read_loop]; [loop_step|].
  apply inv_bind; [intros w H; apply wp_modify, I_stdin, H | intros _].
  destruct k as [b| |sig|]; repeat loop_step; auto using loop_deliver.
Qed.

Lemma loop_parse_input : inv I E __parse_input.
Proof. unfold __parse_input. repeat loop_step. apply loop_read_loop. Qed.

Lemma loop_main_loop (n : nat) : inv I E (main_loop n).
Proof.
  induction n as [|n IH]; cbn [main_loop]; repeat loop_step;
    auto using loop_parse_input, loop_handle_input.
Qed.

Lemma loop_rsh_run (n : nat) : inv I E (rsh_run n).
Proof. unfold rsh_run. repeat loop_step. apply loop_main_loop. Qed.

End LoopInvariant.

(** ** The state of every job record *)

Ltac all_stopped_frame :=
  intros; unfold all_stopped, job_table, any_halt in *; cbn in *;
  first [ exact Logic.I
        | assumption
        | match goal with
          | Hr : rsh ?w = Some _, H : context [rsh ?w] |- _ =>
              rewrite Hr in H; exact H
          end ].

Lemma all_stopped_rsh_get : inv all_stopped any_halt __rsh_get.
Proof. intros w H. apply wp_rsh_get_initialized; [apply H | exact H]. Qed.

Lemma any_halt_handle_ctrlc (I : world -> Prop) (sig : Z) :
  (forall x w, I w -> I (set_trace x w)) ->
  inv I any_halt __rsh_get ->
  inv I any_halt (__handle_ctrlc sig).
Proof.
  intros I_trace Hget w H. unfold __handle_ctrlc. wp_step.
  eapply wp_conseq; [apply Hget, H | | auto]. cbn beta. intros _ w1 H1.
  wp_step. unfold wp at 1, rsh_read. destruct (rsh w1) as [r|]; [|exact Logic.I].
  destruct (negb (running_process r =? 0)).
  - wp_step. apply I_trace, H1.
  - wp_steps. unfold __rsh_destroy. wp_steps. unfold wp.
    match goal with |- context [exit 0 ?w2] =>
      destruct (exit_halts (A := unit) 0 w2) as [w' ->] end.
    exact Logic.I.
Qed.

Lemma all_stopped_handle_ctrlc (sig : Z) :
  inv all_stopped any_halt (__handle_ctrlc sig).
Proof.
  apply any_halt_handle_ctrlc; [all_stopped_frame | apply all_stopped_rsh_get].
Qed.

Ltac all_stopped_side :=
  first [ apply all_stopped_rsh_get
        | apply all_stopped_handle_ctrlc
        | all_stopped_frame ].

Lemma all_stopped_append_job (p : Z) (cmd : string) :
  inv all_stopped any_halt (__append_job p cmd 1).
Proof.
  unfold __append_job. apply inv_bind; [apply all_stopped_rsh_get | intros _].
  intros w H. unfold wp, rsh_write. destruct (rsh w) as [r|] eqn:Hr;
    [|exact Logic.I].
  unfold all_stopped, job_table in *. cbn. rewrite Hr in H.
  destruct H as [Hi H]. split; [exact Hi|].
  constructor; [reflexivity | exact H].
Qed.

Lemma unlink_job_Forall (P : __job_node -> Prop) (p : Z) (jobs : list __job_node) :
  Forall P jobs -> Forall P (unlink_job p jobs).
Proof.
  induction 1 as [|j jobs Hj Hjobs IH]; cbn [unlink_job]; [constructor|].
  destruct (pid j =? p); [assumption | constructor; assumption].
Qed.

Lemma all_stopped_remove_job (p : Z) : inv all_stopped any_halt (__remove_job p).
Proof.
  unfold __remove_job. apply inv_bind; [apply all_stopped_rsh_get | intros _].
  intros w H. unfold wp, rsh_write. destruct (rsh w) as [r|] eqn:Hr;
    [|exact Logic.I].
  unfold all_stopped, job_table in *. cbn. rewrite Hr in H.
  destruct H as [Hi H]. split; [exact Hi | apply unlink_job_Forall, H].
Qed.

(** The proof follows the code; what does not change the job list is
    covered by the lemmas of the section [Invariant]. *)
Ltac all_stopped_step :=
  lazymatch goal with
  | |- inv _ _ (bind _ _) => apply inv_bind; [|intros ?]
  | |- inv _ _ (ret _) => apply inv_ret
  | |- inv _ _ (gets _) => apply inv_gets
  | |- inv _ _ getpid => apply inv_gets
  | |- inv _ _ (stop _) => apply inv_stop; [all_stopped_side | exact Logic.I]
  | |- inv _ _ (_exit _) => apply inv_stop; [all_stopped_side | exact Logic.I]
  | |- inv _ _ (printf _) => apply inv_emit; all_stopped_side
  | |- inv _ _ (fprintf_stderr _) => apply inv_emit; all_stopped_side
  | |- inv _ _ (perror _) => apply inv_emit; all_stopped_side
  | |- inv _ _ (kill _ _) => apply inv_emit; all_stopped_side
  | |- inv _ _ (setpgid _ _) => apply inv_emit; all_stopped_side
  | |- inv _ _ (signal _ _) => apply inv_signal; all_stopped_side
  | |- inv _ _ fork => apply inv_fork; all_stopped_side
  | |- inv _ _ (waitpid _ _ _) => apply inv_waitpid; all_stopped_side
  | |- inv _ _ (execvp _ _) => apply inv_execvp; all_stopped_side
  | |- inv _ _ (rsh_read _) => apply inv_rsh_read; all_stopped_side
  | |- inv _ _ (rsh_write (set_running_process _)) =>
      apply inv_set_running_process; all_stopped_side
  | |- inv _ _ __rsh_get => apply all_stopped_rsh_get
  | |- inv _ _ (__append_job _ _ 1) => apply all_stopped_append_job
  | |- inv _ _ (__remove_job _) => apply all_stopped_remove_job
  | |- inv _ _ (give_terminal _) => apply inv_give_terminal; all_stopped_side
  | |- inv _ _ (wait_foreground _ _ _) => apply inv_wait_foreground; all_stopped_side
  | |- inv _ _ (__handle_pipeline _ _) => apply inv_handle_pipeline; all_stopped_side
  | |- inv _ _ __display_history => apply inv_display_history; all_stopped_side
  | |- inv _ _ (if ?b then _ else _) => destruct b
  | |- inv _ _ (match ?x with _ => _ end) => destruct x
  end.

Lemma all_stopped_launch (argv : list string) (raw_input : string) :
  inv all_stopped any_halt (launch argv raw_input).
Proof. unfold launch. repeat all_stopped_step. Qed.

Lemma all_stopped_handle_ctrlz (sig : Z) :
  inv all_stopped any_halt (__handle_ctrlz sig).
Proof. unfold __handle_ctrlz. repeat all_stopped_step. Qed.

Lemma all_stopped_rsh_run (n : nat) : inv all_stopped any_halt (rsh_run n).
Proof.
  apply loop_rsh_run;
    auto using all_stopped_rsh_get, all_stopped_handle_ctrlc,
      all_stopped_handle_ctrlz, all_stopped_remove_job, all_stopped_launch;
    all_stopped_frame.
Qed.

(** X22.  Every record the shell ever puts in the job list has the state
    Stopped (1): from a session whose job list has this property, whatever
    is typed and whatever the system calls answer, the job list has it
    whenever the shell is back at its prompt.  So [jobs] never prints
    "Running". *)
Theorem job_records_are_always_stopped (n : nat) (w w' : world) :
  rsh_initialized w = true ->
  Forall (fun j => status j = 1) (job_table w) ->
  rsh_run n w = Returned tt w' ->
  Forall (fun j => status j = 1) (job_table w').
Proof.
  intros Hi H Hrun. pose proof (all_stopped_rsh_run n w (conj Hi H)) as H'.
  unfold wp in H'. rewrite Hrun in H'. apply H'.
Qed.

Lemma job_records_are_always_stopped_witness :
  exists w',
    rsh_run 2 (pid_reused (typed "fg 1234" ++ typed "vim")) = Returned tt w'
    /\ job_table w' =
       [ {| pid := 1234; command := "vim"; status := 1 |};
         {| pid := 1234; command := "vim"; status := 1 |} ]
    /\ Forall (fun j => status j = 1) (job_table w').
Proof.
  eexists. split; [vm_compute; reflexivity|]. split; [reflexivity|].
  refine (job_records_are_always_stopped 2
            (pid_reused (typed "fg 1234" ++ typed "vim")) _ eq_refl _ _).
  - repeat constructor.
  - vm_compute. reflexivity.
Defined.

(** ** No foreground process at the prompt *)

Ltac no_foreground_frame :=
  intros; unfold no_foreground, any_halt in *; cbn in *;
  first [ exact Logic.I
        | assumption
        | match goal with
          | Hr : rsh ?w = Some ?r, H : _ -> exists _, rsh ?w = Some _ /\ _ |- _ =>
              intros Hi; destruct (H Hi) as (r' & Hr' & Hrp);
              rewrite Hr in Hr'; injection Hr' as <-;
              eexists; split; [reflexivity | exact Hrp]
          end ].

Lemma no_foreground_rsh_get : inv no_foreground any_halt __rsh_get.
Proof.
  intros w H. unfold wp.
  destruct (rsh_get_returns w) as (w' & -> & _ & Hsame & Hnew).
  destruct (rsh_initialized w) eqn:Hi.
  - rewrite (Hsame eq_refl). exact H.
  - destruct (Hnew eq_refl) as (r & Hr & Hrp & _). intros _. eauto.
Qed.

(** The last statement of the parent side of [launch] and of
    [__handle_ctrlz] clears [running_process], whatever happened before. *)
Lemma no_foreground_cleared (w : world) :
  wp (rsh_write (set_running_process 0)) (fun _ w' => no_foreground w') any_halt w.
Proof.
  unfold wp, rsh_write. destruct (rsh w) as [r|]; [|exact Logic.I].
  intros _. eexists. split; reflexivity.
Qed.

Ltac skip_to_clearing :=
  repeat lazymatch goal with
    | |- wp (bind (rsh_write (set_running_process 0)) _) _ _ _ => fail
    | |- wp (bind _ _) _ _ _ =>
        apply wp_bind; apply wp_always; [intros ? ? | intros; exact Logic.I]
    end.

Lemma no_foreground_launch (argv : list string) (raw_input : string) :
  inv no_foreground any_halt (launch argv raw_input).
Proof.
  unfold launch.
  destruct (__parse_pipeline raw_input) as [commands|];
    [|apply inv_stop; [no_foreground_frame | exact Logic.I]].
  cbv zeta. destruct (1 <? Z.of_nat (List.length commands)).
  - apply inv_bind; [|intros ?; apply inv_ret].
    apply inv_handle_pipeline; no_foreground_frame.
  - destruct argv as [|argv0 args];
      [apply inv_stop; [no_foreground_frame | exact Logic.I]|].
    destruct (String.eqb argv0 "history" || String.eqb argv0 "History").
    + apply inv_bind; [|intros ?; apply inv_ret].
      apply inv_display_history;
        first [exact no_foreground_rsh_get | no_foreground_frame].
    + apply inv_bind; [apply inv_rsh_read; no_foreground_frame | intros p].
      destruct (PATH_LENGTH <=? Z.of_nat (String.length p));
        [apply inv_stop; [no_foreground_frame | exact Logic.I]|].
      apply inv_bind; [apply inv_fork; no_foreground_frame | intros id].
      destruct (id =? 0).
      * apply inv_bind; [apply inv_emit; no_foreground_frame | intros ?].
        apply inv_bind; [apply inv_execvp; no_foreground_frame | intros ?].
        apply inv_bind; [apply inv_emit; no_foreground_frame | intros ?].
        apply inv_stop; [no_foreground_frame | exact Logic.I].
      * destruct (0 <? id).
        -- intros w _. skip_to_clearing. apply wp_bind.
           eapply wp_conseq; [apply no_foreground_cleared | | auto].
           cbn beta. intros _ w1 H1. exact H1.
        -- apply inv_bind; [apply inv_emit; no_foreground_frame | intros ?].
           apply inv_ret.
Qed.

Lemma no_foreground_handle_ctrlz (sig : Z) :
  inv no_foreground any_halt (__handle_ctrlz sig).
Proof.
  unfold __handle_ctrlz. apply inv_bind; [apply no_foreground_rsh_get | intros _].
  apply inv_bind; [apply inv_rsh_read; no_foreground_frame | intros rp].
  destruct (negb (rp =? 0)); [|apply inv_ret].
  intros w _. skip_to_clearing.
  lazymatch goal with
  | |- wp (match ?status with _ => _ end) _ _ _ => destruct status
  end; [|exact Logic.I].
  skip_to_clearing. apply no_foreground_cleared.
Qed.

Lemma no_foreground_remove_job (p : Z) : inv no_foreground any_halt (__remove_job p).
Proof.
  unfold __remove_job. apply inv_bind; [apply no_foreground_rsh_get | intros _].
  intros w H. unfold wp, rsh_write. destruct (rsh w) as [r|] eqn:Hr;
    [|exact Logic.I].
  no_foreground_frame.
Qed.

Lemma no_foreground_rsh_run (n : nat) : inv no_foreground any_halt (rsh_run n).
Proof.
  apply loop_rsh_run;
    auto using no_foreground_rsh_get, no_foreground_handle_ctrlz,
      no_foreground_remove_job, no_foreground_launch;
    try (intros sig; apply any_halt_handle_ctrlc;
         [|exact no_foreground_rsh_get]);
    no_foreground_frame.
Qed.

(** Once the session exists it stays. *)
Lemma initialized_rsh_run (n : nat) :
  inv (fun w => rsh_initialized w = true) any_halt (rsh_run n).
Proof.
  apply inv_rsh_run; try (intros; assumption).
  - intros; exact Logic.I.
  - intros w H. apply wp_rsh_get_initialized; exact H.
  - intros sig. apply any_halt_handle_ctrlc; [intros; assumption|].
    intros w H. apply wp_rsh_get_initialized; exact H.
Qed.

(** X23.  In a session, whenever the shell is back at its prompt, no
    foreground process is tracked: [running_process] is 0.  A SIGTSTP that
    arrives there does nothing, and a SIGINT ends the shell with status 0. *)
Theorem no_foreground_process_at_the_prompt (n : nat) (w w' : world) (r : __rsh)
    (sig : Z) :
  rsh_initialized w = true ->
  rsh w = Some r ->
  running_process r = 0 ->
  rsh_run n w = Returned tt w' ->
  rsh_initialized w' = true
  /\ foreground_pid w' = Some 0
  /\ __handle_ctrlz sig w' = Returned tt w'
  /\ exists w'', __handle_ctrlc sig w' = Halted (Exit 0) w''.
Proof.
  intros Hi0 Hr0 Hrp0 Hrun.
  assert (Hi : rsh_initialized w' = true).
  { pose proof (initialized_rsh_run n w Hi0) as H'.
    unfold wp in H'. rewrite Hrun in H'. exact H'. }
  assert (H : no_foreground w) by (intros _; eauto).
  pose proof (no_foreground_rsh_run n w H) as H'.
  unfold wp in H'. rewrite Hrun in H'. destruct (H' Hi) as (r' & Hr & Hrp).
  split; [exact Hi|].
  split; [unfold foreground_pid; rewrite Hr, <- Hrp; reflexivity|]. split.
  - unfold __handle_ctrlz, rsh_read. run. rewrite Hrp. reflexivity.
  - unfold __handle_ctrlc, rsh_read. run. rewrite Hrp. cbn.
    match goal with |- context [run_atexit_fns ?fns ?w2] =>
      destruct (run_atexit_fns_rsh fns w2) as (w'' & -> & _) end.
    eexists. reflexivity.
Qed.

Lemma no_foreground_process_at_the_prompt_witness :
  exists w',
    rsh_run 1 before_ls = Returned tt w'
    /\ rsh_initialized w' = true
    /\ foreground_pid w' = Some 0
    /\ __handle_ctrlz SIGTSTP w' = Returned tt w'
    /\ exists w'', __handle_ctrlc SIGTSTP w' = Halted (Exit 0) w''.
Proof.
  eexists. split; [vm_compute; reflexivity|].
  refine (no_foreground_process_at_the_prompt 1 before_ls _ _ SIGTSTP
            eq_refl eq_refl eq_refl _).
  vm_compute. reflexivity.
Defined.

(** ** The descriptors of a pipeline *)

(** The first loop in the parent when every [pipe] and every [fork]
    succeeds: the parent closes both ends of the pipe before the stage, if
    there is one, and of every pipe it opens, in the order of the stages. *)
Lemma pipeline_spawn_closes (command_i : list string) (rest : list (list string)) :
  forall (i num_commands : Z) (prev_pipe next_pipe : Z * Z) (pids : list Z)
         (w : world) (children : list positive) (fds : list (Z * Z))
         (fr : list fork_result) (pr : list (option (Z * Z))),
    0 <= i ->
    i + Z.of_nat (List.length (command_i :: rest)) = num_commands ->
    List.length children = List.length (command_i :: rest) ->
    List.length fds = List.length rest ->
    forks w = (map in_parent children ++ fr)%list ->
    pipes w = (map Some fds ++ pr)%list ->
    wp (pipeline_spawn (command_i :: rest) i num_commands prev_pipe next_pipe pids)
       (fun _ w' =>
          filter is_close (trace w') =
          (filter is_close (trace w)
           ++ (if 0 <? i then close_both prev_pipe else [])
           ++ flat_map close_both fds)%list)
       returns w.
Proof.
  revert command_i. induction rest as [|command_j rest IH];
    intros command_i i num prev next pids w children fds fr pr Hi Hnum Hch Hfds Hf Hp.
  - destruct fds; [|discriminate]. destruct children as [|child children];
      [discriminate|]. cbn [List.length] in Hnum. cbn [map app] in Hf.
    assert (Hpos : (Z.pos child =? 0) = false) by (apply Z.eqb_neq; lia).
    assert (Hneg : (Z.pos child <? 0) = false) by (apply Z.ltb_ge; lia).
    cbn [pipeline_spawn]. wp_step.
    destruct (Z.ltb_spec i (num - 1)); [lia|].
    wp_steps. rewrite Hf, Hpos, Hneg. wp_steps.
    destruct (0 <? i); wp_steps; rewrite !filter_app; cbn;
      rewrite ?app_nil_r, <- ?app_assoc; reflexivity.
  - destruct fds as [|fd fds]; [discriminate|].
    destruct children as [|child children]; [discriminate|].
    cbn [List.length] in Hnum, Hch, Hfds. cbn [map app] in Hf, Hp.
    assert (Hpos : (Z.pos child =? 0) = false) by (apply Z.eqb_neq; lia).
    assert (Hneg : (Z.pos child <? 0) = false) by (apply Z.ltb_ge; lia).
    remember (command_j :: rest) as later eqn:Hlater.
    cbn [pipeline_spawn]. wp_step.
    destruct (Z.ltb_spec i (num - 1)); [|lia].
    wp_steps. rewrite Hp. wp_steps. rewrite Hf, Hpos, Hneg. wp_steps.
    subst later.
    assert (Hnext : (0 <? i + 1) = true) by (apply Z.ltb_lt; lia).
    assert (Hrec : forall w1,
              forks w1 = (map in_parent children ++ fr)%list ->
              pipes w1 = (map Some fds ++ pr)%list ->
              filter is_close (trace w1) =
              (filter is_close (trace w)
               ++ (if 0 <? i then close_both prev else []))%list ->
              wp (pipeline_spawn (command_j :: rest) (i + 1) num fd fd
                    (pids ++ [Z.pos child]))
                (fun _ w' =>
                   filter is_close (trace w') =
                   (filter is_close (trace w)
                    ++ (if 0 <? i then close_both prev else [])
                    ++ flat_map close_both (fd :: fds))%list)
                returns w1).
    { intros w1 Hf1 Hp1 Ht1.
      eapply wp_conseq;
        [eapply (IH command_j (i + 1) num fd fd _ w1 children fds fr pr); auto;
         cbn [List.length] in *; lia | | auto].
      cbn beta. intros _ w' ->. rewrite Ht1, Hnext. cbn [flat_map].
      rewrite <- !app_assoc. reflexivity. }
    destruct (0 <? i); wp_steps; apply Hrec; try reflexivity;
      wsimpl; rewrite !filter_app; cbn; rewrite ?app_nil_r, <- ?app_assoc;
      reflexivity.
Qed.

Lemma pipeline_wait_closes_nothing (pids : list Z) :
  forall status w,
    wp (pipeline_wait pids status)
       (fun _ w' => filter is_close (trace w') = filter is_close (trace w))
       (fun _ w' => filter is_close (trace w') = filter is_close (trace w)) w.
Proof.
  induction pids as [|p pids IH]; intros status w; cbn [pipeline_wait];
    [wp_step; reflexivity|].
  wp_steps.
  assert (Hone : filter is_close (trace w ++ [Waitpid p 0]) = filter is_close (trace w))
    by (rewrite filter_app; cbn; apply app_nil_r).
  destruct (waits w) as [|[s|] rest]; [exact Hone| |];
    (eapply wp_conseq; [apply IH | |]; cbn beta; wsimpl; intros; congruence).
Qed.

(** X24.  When every [pipe] and every [fork] of a pipeline succeeds, the parent
    closes both ends of every pipe it has opened, in the order of the stages
    and before it waits for a child, whatever the waits then answer. *)
Theorem pipeline_parent_closes_every_pipe
    (commands : list (list string)) (children : list positive)
    (fds : list (Z * Z)) (w : world) (fr : list fork_result)
    (pr : list (option (Z * Z))) :
  commands <> [] ->
  List.length children = List.length commands ->
  List.length fds = Nat.pred (List.length commands) ->
  forks w = (map in_parent children ++ fr)%list ->
  pipes w = (map Some fds ++ pr)%list ->
  wp (__handle_pipeline commands (Z.of_nat (List.length commands)))
     (fun _ w' =>
        filter is_close (trace w') =
        (filter is_close (trace w) ++ flat_map close_both fds)%list)
     (fun _ w' =>
        filter is_close (trace w') =
        (filter is_close (trace w) ++ flat_map close_both fds)%list)
     w.
Proof.
  intros Hne Hch Hfds Hf Hp. destruct commands as [|command_0 rest];
    [contradiction|].
  unfold __handle_pipeline. wp_step.
  eapply wp_conseq;
    [eapply (pipeline_spawn_closes command_0 rest 0 _ (0, 0) (0, 0) [] w children
               fds fr pr); auto; lia | | contradiction].
  cbn beta. intros [v|pids] w1 H1; cbn [Z.ltb Z.compare app] in H1.
  - wp_step. exact H1.
  - wp_step.
    eapply wp_conseq; [apply pipeline_wait_closes_nothing | |];
      cbn beta; intros; try wp_step; congruence.
Qed.

Lemma pipeline_parent_closes_every_pipe_witness :
  wp (__handle_pipeline [["ls"]; ["grep"; "foo"]; ["wc"; "-l"]] 3)
     (fun _ w' => filter is_close (trace w') = [Close 3; Close 4; Close 5; Close 6])
     (fun _ w' => filter is_close (trace w') = [Close 3; Close 4; Close 5; Close 6])
     three_stages.
Proof.
  refine (pipeline_parent_closes_every_pipe
            [["ls"]; ["grep"; "foo"]; ["wc"; "-l"]] [101; 102; 103]%positive
            [(3, 4); (5, 6)] three_stages [] [] _ eq_refl eq_refl eq_refl eq_refl).
  discriminate.
Defined.

(** ** The two tokenisers on a line without pipe *)

Lemma fields_without_sep (sep : ascii -> bool) (s : string) :
  has_char sep s = false -> fields sep s = [s].
Proof.
  induction s as [|c s IH]; [reflexivity|].
  rewrite has_char_cons. intros [Hc Hs]%orb_false_elim.
  rewrite fields_cons, Hc, (IH Hs). reflexivity.
Qed.

(** X25.  On a line without pipe character the two tokenisers agree: the only
    stage that [__parse_pipeline] finds is the argument vector that
    [__parse_input] builds from the same line. *)
Theorem single_stage_is_argv (line : string) :
  line <> "" ->
  has_char is_pipe line = false ->
  (List.length (strtok_loop BLANKS line) < 16)%nat ->
  __parse_pipeline line = Some [strtok_loop BLANKS line].
Proof.
  intros Hne Hpipe Hlen. unfold __parse_pipeline.
  rewrite strtok_loop_pipe, (fields_without_sep is_pipe line Hpipe).
  unfold nonempty. cbn [filter].
  destruct (String.eqb_spec line ""); [contradiction|].
  cbn [negb List.length Nat.leb stages_args]. unfold stage_args.
  apply Nat.ltb_lt in Hlen. rewrite Hlen. reflexivity.
Qed.

Lemma single_stage_is_argv_witness :
  __parse_pipeline "ls -l /tmp" = Some [strtok_loop BLANKS "ls -l /tmp"].
Proof.
  refine (single_stage_is_argv "ls -l /tmp" _ eq_refl _).
  - discriminate.
  - vm_compute. lia.
Defined.
